(** * Recipient-reason aggregation of the feature-change notifier

    A shallow embedding of [internals/notifier.py]: the reason table
    ([accumulate_reasons]), the rendering of one task per recipient
    ([convert_reasons_to_task]), the hard-coded subscription rules
    ([apply_subscription_rules]), the task builder
    ([make_feature_changes_email]), the task-queue handler
    ([FeatureChangeHandler.process_post_data]) and the posting of a review
    comment ([post_comment_to_mailing_list]).

    Conventions of the embedding.
    - A Python [str] is a [string] holding its UTF-8 bytes.  Python orders
      strings by code point, and the byte-wise lexicographic order of UTF-8
      is that same order, so [String.le] is the order used by [sorted].
      A slice [s[:n]] counts code points, not bytes ([PyStr.slice_to]).
    - A [dict] whose iteration order does not matter is a [gmap]; the rule
      results, whose insertion order is iterated, are an association list.
    - Exceptions are the [Raise] results of an error monad; the datastore,
      the log and the task queue are threaded through a state. *)

From Stdlib Require Import ZArith String Ascii List DecimalString.
From stdpp Require Import gmap strings list sorting.

Open Scope string_scope.
Open Scope list_scope.

(** ** Python strings *)

Module PyStr.

(** The double-quote character (code 34), for the literals of the
    source that contain it. *)
Definition dquote : string := String (ascii_of_nat 34) EmptyString.

(** The character [\n] (code 10). *)
Definition newline : string := String (ascii_of_nat 10) EmptyString.

(** [sep.join(parts)] *)
Fixpoint join (sep : string) (parts : list string) : string :=
  match parts with
  | [] => EmptyString
  | [p] => p
  | p :: rest => p +:+ sep +:+ join sep rest
  end.

(** [s.startswith(p)] *)
Definition startswith (p s : string) : bool := String.prefix p s.

(** [s.split(c)[0]]: the part of [s] before the first [c]. *)
Fixpoint before_char (c : ascii) (s : string) : string :=
  match s with
  | EmptyString => EmptyString
  | String a rest =>
      if Ascii.eqb a c then EmptyString else String a (before_char c rest)
  end.

(** [s[n:]] *)
Fixpoint drop_prefix (n : nat) (s : string) : string :=
  match n, s with
  | O, _ => s
  | S n', String _ rest => drop_prefix n' rest
  | S _, EmptyString => EmptyString
  end.

(** Truth value of a string: the empty string is falsy. *)
Definition truthy (s : string) : bool :=
  match s with EmptyString => false | _ => true end.

(** A byte that continues a code point in UTF-8: [10xxxxxx]. *)
Definition is_continuation (a : ascii) : bool :=
  match a with Ascii _ _ _ _ _ _ b6 b7 => b7 && negb b6 end.

(** [s[:n]]: the first [n] code points of [s], all of [s] when it has
    fewer.  A code point is a byte that is no continuation byte, followed by
    its continuation bytes. *)
Fixpoint slice_to (n : nat) (s : string) : string :=
  match s with
  | EmptyString => EmptyString
  | String a rest =>
      if is_continuation a then String a (slice_to n rest)
      else
        match n with
        | O => EmptyString
        | S n' => String a (slice_to n' rest)
        end
  end.

End PyStr.

(** ** Python sets and [sorted] *)

(** [set(l)] iterates in an order fixed by the hashes of its elements,
    which differs from one interpreter run to the next.  An iteration
    order is any function listing each distinct element once. *)
Record set_order := SetOrder {
  iter_set : list string → list string;
  iter_set_NoDup : ∀ l, NoDup (iter_set l);
  iter_set_elem_of : ∀ l x, x ∈ iter_set l ↔ x ∈ l
}.

(** One iteration order: first occurrences, left to right. *)
Definition first_occurrence_order : set_order :=
  {| iter_set := remove_dups;
     iter_set_NoDup := NoDup_remove_dups;
     iter_set_elem_of := λ l x, elem_of_remove_dups l x |}.

(** Another one: last occurrences, right to left. *)
Definition reverse_order : set_order.
Proof.
  refine {| iter_set := λ l, remove_dups (reverse l) |}.
  - intros l. apply NoDup_remove_dups.
  - intros l x. rewrite elem_of_remove_dups. apply elem_of_reverse.
Defined.

(** [sorted(l)] on strings. *)
Definition sorted (l : list string) : list string := merge_sort String.le l.

(** [sorted(set(l))] *)
Definition sorted_set (o : set_order) (l : list string) : list string :=
  sorted (iter_set o l).

(** ** Results and exceptions *)

Inductive exn :=
| AssertionError (msg : string)
| KeyError
| ValueError (msg : string).

Inductive result (A : Type) :=
| Ok (a : A)
| Raise (e : exn).
Arguments Ok {A} a.
Arguments Raise {A} e.

Definition result_bind {A B} (r : result A) (k : A → result B) : result B :=
  match r with
  | Ok a => k a
  | Raise e => Raise e
  end.

(** A list comprehension whose body may raise: the first exception ends it. *)
Fixpoint result_map {A B} (f : A → result B) (l : list A) : result (list B) :=
  match l with
  | [] => Ok []
  | x :: rest =>
      result_bind (f x) (λ y,
      result_bind (result_map f rest) (λ ys, Ok (y :: ys)))
  end.

(** ** The reason table *)

(** [addr_reasons[email].append(reason)] on a [defaultdict(list)]: a
    missing key is first bound to a fresh empty list. *)
Definition append_reason (reason : string) (addr_reasons : gmap string (list string))
    (email : string) : gmap string (list string) :=
  <[email := default [] (addr_reasons !! email) ++ [reason]]> addr_reasons.

Definition accumulate_reasons (addr_reasons : gmap string (list string))
    (addr_list : list string) (reason : string) : gmap string (list string) :=
  foldl (append_reason reason) addr_reasons addr_list.

(** ** Email tasks *)

(** The two shapes of task dict of the module: a notification
    [{to, subject, reply_to, html}] and a reply posted to a thread
    [{to, from_user, references, subject, html}]. *)
Inductive email_task :=
| NotificationTask (to subject : string) (reply_to : option string) (html : string)
| ThreadReplyTask (to from_user : string) (references : option string)
    (subject html : string).

Definition task_to (t : email_task) : string :=
  match t with
  | NotificationTask to _ _ _ => to
  | ThreadReplyTask to _ _ _ _ => to
  end.

Definition task_html (t : email_task) : string :=
  match t with
  | NotificationTask _ _ _ html => html
  | ThreadReplyTask _ _ _ _ html => html
  end.

Record settings := Settings {
  SITE_URL : string;
  SEND_EMAIL : bool;
  REVIEW_COMMENT_MAILING_LIST : string
}.

Section Rendering.

Variable cfg : settings.
(** [permissions.can_create_feature(users.User(email=addr))] *)
Variable can_create_feature : string → bool.
Variable o : set_order.

Definition reason_item (reason : string) : string :=
  "<li>" +:+ reason +:+ "</li>".

Definition unsubscribe_line : string :=
  "<p><a href=" +:+ PyStr.dquote +:+ SITE_URL cfg +:+ "settings" +:+ PyStr.dquote
    +:+ ">Unsubscribe</a></p>".

Definition footer_lines (reasons : list string) : list string :=
  ["<p>You are receiving this email because:</p>"; "<ul>"]
    ++ (reason_item <$> sorted_set o reasons)
    ++ ["</ul>"]
    ++ [unsubscribe_line].

Definition convert_reasons_to_task (addr : string) (reasons : list string)
    (email_html subject : string) (triggering_user_email : option string)
    : result email_task :=
  match reasons with
  | [] => Raise (AssertionError "We are emailing someone without any reason")
  | _ :: _ =>
      let email_html_with_footer :=
        email_html +:+ PyStr.newline +:+ PyStr.newline
          +:+ PyStr.join PyStr.newline (footer_lines reasons) in
      let reply_to :=
        if can_create_feature addr then triggering_user_email else None in
      Ok (NotificationTask addr subject reply_to email_html_with_footer)
  end.

End Rendering.

(** ** Entities of the datastore *)

(** One entry of a change list: [{'prop_name', 'old_val', 'new_val'}]. *)
Record Change := {
  prop_name : string;
  old_val : option string;
  new_val : option string
}.

Record FeatureEntry := {
  fe_id : Z;                         (* fe.key.integer_id() *)
  name : string;
  category : Z;
  feature_type : Z;
  creator_email : option string;
  updater_email : option string;
  owner_emails : list string;
  editor_emails : list string;
  cc_emails : list string;
  devrel_emails : list string;
  blink_components : list string
}.

Record MilestoneSet := {
  desktop_first : option Z;
  android_first : option Z;
  webview_first : option Z
}.

Record Stage := {
  milestones : option MilestoneSet;
  intent_thread_url : option string;
  intent_subject_line : option string
}.

Record Gate := { stage_id : Z }.

Record FeatureOwner := {
  fo_email : string;
  watching_all_features : bool
}.

Record BlinkComponent := {
  owners : list FeatureOwner;
  subscribers : list FeatureOwner
}.

Record FeatureStar := {
  fs_email : string;
  fs_feature_id : Z;
  starred : bool
}.

Record UserPref := {
  up_email : string;
  notify_as_starrer : bool;
  bounced : bool
}.

(** What the model layer answers: the entities by key, the queries of the
    module, and the two helpers defined outside it. *)
Record datastore := {
  FeatureEntry_get_by_id : gmap Z FeatureEntry;
  FeatureOwner_query : list FeatureOwner;
  BlinkComponent_get_by_name : gmap string BlinkComponent;
  FeatureStar_query : list FeatureStar;
  UserPref_get_prefs_for_emails : list string → list UserPref;
  get_feature_stages : Z → gmap Z (list Stage);
  Gate_get_by_id : gmap Z Gate;
  Stage_get_by_id : gmap Z Stage
}.

(** Truth value of an optional integer: [None] and [0] are falsy. *)
Definition truthy_int (v : option Z) : bool :=
  match v with
  | Some z => negb (z =? 0)%Z
  | None => false
  end.

(** [v or d] on an optional integer. *)
Definition or_int (v : option Z) (d : Z) : Z :=
  match v with
  | Some z => if (z =? 0)%Z then d else z
  | None => d
  end.

(** ** The log, the task queue and the monad of the handlers *)

Inductive log_level := INFO | WARNING.

(** The arguments of a log call; [ArgRepr l] is the [repr] of a list of
    strings, cut at [settings.MAX_LOG_LINE]. *)
Inductive log_arg :=
| ArgStr (s : string)
| ArgOptStr (s : option string)
| ArgInt (z : Z)
| ArgRepr (l : list string).

(** A call [logging.<level>(msg, *args)]. *)
Record log_entry := LogEntry {
  level : log_level;
  msg : string;
  args : list log_arg
}.

Record world := World {
  db : datastore;
  log : list log_entry;
  task_queue : list (string * email_task)   (* cloud_tasks_helpers.enqueue_task *)
}.

Definition M (A : Type) : Type := world → result A * world.

Definition ret {A} (a : A) : M A := λ w, (Ok a, w).

Definition bind {A B} (c : M A) (k : A → M B) : M B :=
  λ w, match c w with
       | (Ok a, w') => k a w'
       | (Raise e, w') => (Raise e, w')
       end.

Definition raise {A} (e : exn) : M A := λ w, (Raise e, w).

Definition lift {A} (r : result A) : M A := λ w, (r, w).

Definition get_db : M datastore := λ w, (Ok (db w), w).

Definition logging (lvl : log_level) (fmt : string) (a : list log_arg) : M unit :=
  λ w, (Ok tt, World (db w) (log w ++ [LogEntry lvl fmt a]) (task_queue w)).

Definition enqueue_task (path : string) (task : email_task) : M unit :=
  λ w, (Ok tt, World (db w) (log w) (task_queue w ++ [(path, task)])).

Notation "'do' x <- c ; k" := (bind c (λ x, k))
  (at level 10, x name, c at level 100, k at level 200).
Notation "c ;; k" := (bind c (λ _, k))
  (at level 100, k at level 200, right associativity).

(** A [for] loop over [l] whose body runs in [M]. *)
Fixpoint for_each {A} (body : A → M unit) (l : list A) : M unit :=
  match l with
  | [] => ret tt
  | x :: rest => body x ;; for_each body rest
  end.

(** A [for] loop that updates a local variable of type [S]. *)
Fixpoint for_fold {A S} (body : S → A → M S) (s : S) (l : list A) : M S :=
  match l with
  | [] => ret s
  | x :: rest => do s' <- body s x; for_fold body s' rest
  end.

(** ** The notifier *)

Definition WEBVIEW_RULE_REASON : string :=
  "This feature has an android milestone, but not a webview milestone".
Definition WEBVIEW_RULE_ADDRS : list string := ["webview-leads-external@google.com"].
Definition IWA_RULE_REASON : string := "You are subscribed to all IWA features".
Definition IWA_RULE_ADDRS : list string := ["iwa-dev@chromium.org"].

(** [results[key] = value] on an insertion-ordered [dict]: a key already
    present keeps its position. *)
Fixpoint dict_set (key : string) (value : list string)
    (results : list (string * list string)) : list (string * list string) :=
  match results with
  | [] => [(key, value)]
  | (k, v) :: rest =>
      if decide (k = key) then (key, value) :: rest
      else (k, v) :: dict_set key value rest
  end.

Fixpoint dict_get (key : string) (results : list (string * list string))
    : option (list string) :=
  match results with
  | [] => None
  | (k, v) :: rest => if decide (k = key) then Some v else dict_get key rest
  end.

(** [sorted(addr_reasons.items())]: tuples are compared by address first
    and by reason list (lexicographically) on equal addresses. *)
Fixpoint list_compare (l1 l2 : list string) : comparison :=
  match l1, l2 with
  | [], [] => Eq
  | [], _ :: _ => Lt
  | _ :: _, [] => Gt
  | x :: l1', y :: l2' =>
      match String.compare x y with
      | Eq => list_compare l1' l2'
      | c => c
      end
  end.

Definition item_compare (p q : string * list string) : comparison :=
  match String.compare p.1 q.1 with
  | Eq => list_compare p.2 q.2
  | c => c
  end.

Definition item_le (p q : string * list string) : Prop := item_compare p q ≠ Gt.

Global Instance item_le_dec : RelDecision item_le.
Proof. intros p q. unfold item_le. destruct (item_compare p q); [left|left|right]; congruence. Defined.

Definition sorted_items (addr_reasons : gmap string (list string))
    : list (string * list string) :=
  merge_sort item_le (map_to_list addr_reasons).

(** The parameter [feature] of a handler: its [id] entry and its [repr]. *)
Record feature_param := {
  feature_param_id : Z;
  feature_param_repr : string
}.

(** The format of the dry-run log line of [send_emails]. *)
Definition would_send_format : string :=
  PyStr.join PyStr.newline
    ["Would send the following email:"; "To: %s"; "From: %s"; "References: %s";
     "Reply-To: %s"; "Subject: %s"; "Body:"; "%s"].

Section Notifier.

Variable cfg : settings.
Variable MAX_LOG_LINE : nat.
Variable can_create_feature : string → bool.
Variable o : set_order.
(** [core_enums.IWA] and [core_enums.STAGE_TYPES_SHIPPING], a [dict] from
    feature type to an optional stage type. *)
Variable IWA : Z.
Variable STAGE_TYPES_SHIPPING : gmap Z (option Z).
(** The body that [format_email_body(template_path, fe, changes)] returns.
    Rendering goes through the template engine and through tables kept
    outside this module, and comes before any recipient is gathered; the
    builders are modelled from the point where the body has been rendered,
    and what is proved of them concerns the recipients, their reasons and
    their order, for that body. *)
Variable format_email_body : string → FeatureEntry → list Change → string.

Definition apply_subscription_rules (d : datastore) (fe : FeatureEntry)
    (changes : list Change) : result (list (string * list string)) :=
  let changed_field_names : gset string := list_to_set (prop_name <$> changes) in
  let results : list (string * list string) := [] in
  (* Rule 1: Check for IWA features *)
  let results :=
    if decide (category fe = IWA) then dict_set IWA_RULE_REASON IWA_RULE_ADDRS results
    else results in
  (* Find an existing shipping stage with milestone info. *)
  let fe_stages := get_feature_stages d (fe_id fe) in
  match STAGE_TYPES_SHIPPING !! feature_type fe with
  | None => Raise KeyError
  | Some entry =>
      let stage_type := or_int entry 0 in
      let ship_stages := default [] (fe_stages !! stage_type) in
      let ship_milestones :=
        match ship_stages with
        | s :: _ => milestones s
        | [] => None
        end in
      (* Rule 2: Check if feature has some other milestone set, but not webview. *)
      let results :=
        match ship_milestones with
        | Some ms =>
            if truthy_int (android_first ms) && negb (truthy_int (webview_first ms)) then
              let milestone_fields := ["shipped_android_milestone"] in
              if negb (forallb (λ f, bool_decide (f ∉ changed_field_names)) milestone_fields)
              then dict_set WEBVIEW_RULE_REASON WEBVIEW_RULE_ADDRS results
              else results
            else results
        | None => results
        end in
      Ok results
  end.

Definition add_core_receivers (fe : FeatureEntry)
    (addr_reasons : gmap string (list string)) : gmap string (list string) :=
  let addr_reasons := accumulate_reasons addr_reasons (owner_emails fe)
    "You are listed as an owner of this feature" in
  let addr_reasons := accumulate_reasons addr_reasons (editor_emails fe)
    "You are listed as an editor of this feature" in
  let addr_reasons := accumulate_reasons addr_reasons (cc_emails fe)
    "You are CC'd on this feature" in
  accumulate_reasons addr_reasons (devrel_emails fe)
    "You are a devrel contact for this feature.".

(** [FeatureStar.get_feature_starrers] *)
Definition get_feature_starrers (feature_id : Z) : M (list UserPref) :=
  do d <- get_db;
  let feature_stars :=
    filter (λ fs, fs_feature_id fs = feature_id ∧ starred fs = true) (FeatureStar_query d) in
  logging INFO "found %d stars for %r"
    [ArgInt (Z.of_nat (length feature_stars)); ArgInt feature_id] ;;
  let emails := fs_email <$> feature_stars in
  logging INFO "looking up %r" [ArgRepr emails] ;;
  let user_prefs := UserPref_get_prefs_for_emails d emails in
  ret (filter (λ up, notify_as_starrer up = true ∧ bounced up = false) user_prefs).

Definition component_not_found (component_name : string) : string :=
  "Blink component " +:+ PyStr.dquote +:+ component_name +:+ PyStr.dquote
    +:+ " not found.Not sending email to subscribers".

(** The body of the loop over [fe.blink_components]. *)
Definition add_component_receivers (addr_reasons : gmap string (list string))
    (component_name : string) : M (gmap string (list string)) :=
  do d <- get_db;
  match BlinkComponent_get_by_name d !! component_name with
  | None =>
      logging WARNING (component_not_found component_name) [] ;;
      ret addr_reasons
  | Some component =>
      let owner_emails := fo_email <$> owners component in
      let subscriber_emails := fo_email <$> subscribers component in
      let addr_reasons := accumulate_reasons addr_reasons owner_emails
        "You are an owner of this feature's component" in
      let addr_reasons := accumulate_reasons addr_reasons subscriber_emails
        "You subscribe to this feature's component" in
      ret addr_reasons
  end.

(** The comprehension that ends every task builder. *)
Definition all_tasks (addr_reasons : gmap string (list string))
    (email_html subject : string) (triggering_user_email : option string)
    : result (list email_task) :=
  result_map
    (λ item, convert_reasons_to_task cfg can_create_feature o
               item.1 item.2 email_html subject triggering_user_email)
    (sorted_items addr_reasons).

Definition make_feature_changes_email (fe : FeatureEntry) (is_update : bool)
    (changes : option (list Change)) : M (list email_task) :=
  let changes := default [] changes in
  do d <- get_db;
  let watchers := filter (λ fo, watching_all_features fo = true) (FeatureOwner_query d) in
  let watcher_emails := fo_email <$> watchers in
  let '(subject, triggering_user_email, template_path) :=
    if is_update
    then ("updated feature: " +:+ name fe, updater_email fe, "update-feature-email.html")
    else ("new feature: " +:+ name fe, creator_email fe, "new-feature-email.html") in
  let email_html := format_email_body template_path fe changes in
  let addr_reasons : gmap string (list string) := ∅ in
  let addr_reasons := add_core_receivers fe addr_reasons in
  let addr_reasons := accumulate_reasons addr_reasons watcher_emails
    "You are watching all feature changes" in
  do addr_reasons <- for_fold add_component_receivers addr_reasons (blink_components fe);
  do starrers <- get_feature_starrers (fe_id fe);
  let starrer_emails := up_email <$> starrers in
  let addr_reasons := accumulate_reasons addr_reasons starrer_emails
    "You starred this feature" in
  do rule_results <- lift (apply_subscription_rules d fe changes);
  let addr_reasons :=
    foldl (λ table item, accumulate_reasons table item.2 item.1) addr_reasons rule_results in
  lift (all_tasks addr_reasons email_html subject triggering_user_email).

(** The body of the loop of [send_emails]: enqueue the task, or log it
    in a dry run. *)
Definition send_email_task (task : email_task) : M unit :=
  if SEND_EMAIL cfg then enqueue_task "/tasks/outbound-email" task
  else
    logging INFO would_send_format
      match task with
      | NotificationTask to subject reply_to html =>
          [ArgOptStr (Some to); ArgOptStr None; ArgOptStr None;
           ArgOptStr reply_to; ArgOptStr (Some subject);
           ArgStr (PyStr.slice_to MAX_LOG_LINE html)]
      | ThreadReplyTask to from_user references subject html =>
          [ArgOptStr (Some to); ArgOptStr (Some from_user); ArgOptStr references;
           ArgOptStr None; ArgOptStr (Some subject);
           ArgStr (PyStr.slice_to MAX_LOG_LINE html)]
      end.

Definition send_emails (email_tasks : list email_task) : M unit :=
  logging INFO "Processing %d email tasks" [ArgInt (Z.of_nat (length email_tasks))] ;;
  for_each send_email_task email_tasks.

(** [FeatureChangeHandler.process_post_data], on a request that carries
    the task header and the parameter [feature]. *)
Definition process_post_data (feature : feature_param) (is_update : bool)
    (changes_param : option (list Change)) : M string :=
  let changes := default [] changes_param in
  logging INFO "Starting to notify subscribers for feature %s"
    [ArgStr (PyStr.slice_to MAX_LOG_LINE (feature_param_repr feature))] ;;
  do d <- get_db;
  let fe := FeatureEntry_get_by_id d !! feature_param_id feature in
  match fe with
  | Some fe =>
      if (is_update && negb (Nat.eqb (length changes) 0)) || negb is_update then
        do email_tasks <- make_feature_changes_email fe is_update (Some changes);
        send_emails email_tasks ;;
        ret "Done"
      else ret "Done"
  | None => ret "Done"
  end.

End Notifier.

(** ** Posting a review comment to the intent thread *)

(** An entry of [approval_defs.APPROVAL_FIELDS_BY_ID]. *)
Record ApprovalFieldDef := {
  field_name : string;
  field_id : Z
}.

Global Instance ApprovalFieldDef_eq_dec : EqDecision ApprovalFieldDef.
Proof. solve_decision. Defined.

Definition BLINK_DEV_ARCHIVE_URL_PREFIX : string :=
  "https://groups.google.com/a/chromium.org/d/msgid/blink-dev/".
Definition TEST_ARCHIVE_URL_PREFIX : string :=
  "https://groups.google.com/d/msgid/jrobbins-test/".

Definition NO_MATCHING_STAGE : string :=
  "No matching Stage entity found for given Gate ID.".

Section ReviewComments.

Variable cfg : settings.
Variable MAX_LOG_LINE : nat.
(** Constants of [core_enums] and [approval_defs]. *)
Variable FEATURE_TYPE_DEPRECATION_ID : Z.
Variables PrototypeApproval ExperimentApproval ExtendExperimentApproval : ApprovalFieldDef.
Variable APPROVAL_FIELDS_BY_ID : gmap Z ApprovalFieldDef.
(** [urllib.parse.unquote] *)
Variable unquote : string → string.
(** [render_template('review-comment-email.html', comment_content=...)] *)
Variable render_review_comment : string → string.

Definition generate_thread_subject (feature : FeatureEntry)
    (approval_field : ApprovalFieldDef) : string :=
  let intent_phrase := field_name approval_field in
  let intent_phrase :=
    if decide (feature_type feature = FEATURE_TYPE_DEPRECATION_ID) then
      let intent_phrase :=
        if decide (approval_field = PrototypeApproval)
        then "Intent to Deprecate and Remove" else intent_phrase in
      let intent_phrase :=
        if decide (approval_field = ExperimentApproval)
        then "Request for Deprecation Trial" else intent_phrase in
      if decide (approval_field = ExtendExperimentApproval)
      then "Intent to Extend Deprecation Trial" else intent_phrase
    else intent_phrase in
  intent_phrase +:+ ": " +:+ name feature.

Definition get_thread_id (stage : Stage) : option string :=
  match intent_thread_url stage with
  | None => None
  | Some thread_url =>
      let thread_url := PyStr.before_char "#"%char thread_url in
      let thread_url := PyStr.before_char "?"%char thread_url in
      let thread_url := unquote thread_url in
      let thread_id := None in
      let thread_id :=
        if PyStr.startswith BLINK_DEV_ARCHIVE_URL_PREFIX thread_url
        then Some (PyStr.drop_prefix (String.length BLINK_DEV_ARCHIVE_URL_PREFIX) thread_url)
        else thread_id in
      if PyStr.startswith TEST_ARCHIVE_URL_PREFIX thread_url
      then Some (PyStr.drop_prefix (String.length TEST_ARCHIVE_URL_PREFIX) thread_url)
      else thread_id
  end.

Definition post_comment_to_mailing_list (feature : FeatureEntry)
    (gate_id approval_field_id : Z) (author_addr comment_content : string) : M unit :=
  let to_addr := REVIEW_COMMENT_MAILING_LIST cfg in
  let from_user := PyStr.before_char "@"%char author_addr in
  match APPROVAL_FIELDS_BY_ID !! approval_field_id with
  | None => raise KeyError
  | Some approval_field =>
      (* Use the Gate ID to find the Stage ID that has the thread URL and subject. *)
      do d <- get_db;
      let gate := Gate_get_by_id d !! gate_id in
      let stage :=
        match gate with
        | None => None
        | Some g => Stage_get_by_id d !! stage_id g
        end in
      (* There should always be a matching stage for every gate. *)
      match stage with
      | None => raise (ValueError NO_MATCHING_STAGE)
      | Some stage =>
          let subject :=
            match intent_subject_line stage with
            | Some s => s
            | None => generate_thread_subject feature approval_field
            end in
          let subject :=
            if negb (PyStr.startswith "Re: " subject) then "Re: " +:+ subject
            else subject in
          let thread_id := get_thread_id stage in
          let references :=
            match thread_id with
            | Some t => if PyStr.truthy t then Some ("<" +:+ t +:+ ">") else None
            | None => None
            end in
          let html := render_review_comment comment_content in
          send_emails cfg MAX_LOG_LINE
            [ThreadReplyTask to_addr from_user references subject html]
      end
  end.

End ReviewComments.

(** ** Contributions: the specification side

    A contribution is one call of [accumulate_reasons]: a list of addresses
    and the reason they share.  The definitions below say, in the words of
    the specification, which contributions a feature change gathers; the
    theorems compare them with what the code computes. *)

Definition contribution : Type := list string * string.

(** A sequence of accumulations applied to a table. *)
Definition accumulate_all (table : gmap string (list string))
    (seq : list contribution) : gmap string (list string) :=
  foldl (λ t c, accumulate_reasons t c.1 c.2) table seq.

(** How often [addr] is listed in [addrs]. *)
Definition occurrences (addr : string) (addrs : list string) : nat :=
  length (filter (λ a, a = addr) addrs).

(** The reasons that a sequence of contributions gives to [addr], in the
    order of the contributions. *)
Definition reasons_for (seq : list contribution) (addr : string) : list string :=
  mjoin ((λ c : contribution, replicate (occurrences addr c.1) c.2) <$> seq).

(** The entry of the table for a list of reasons: no entry for no reason. *)
Definition entry (reasons : list string) : option (list string) :=
  match reasons with
  | [] => None
  | _ :: _ => Some reasons
  end.

(** No address of the table is bound to the empty list. *)
Definition reasoned (table : gmap string (list string)) : Prop :=
  ∀ addr, table !! addr ≠ Some [].

Definition watcher_emails (d : datastore) : list string :=
  fo_email <$> filter (λ fo, watching_all_features fo = true) (FeatureOwner_query d).

(** Owners and subscribers of the components that exist. *)
Definition component_contributions (d : datastore) (names : list string)
    : list contribution :=
  names ≫= λ component_name,
    match BlinkComponent_get_by_name d !! component_name with
    | None => []
    | Some component =>
        [(fo_email <$> owners component, "You are an owner of this feature's component");
         (fo_email <$> subscribers component, "You subscribe to this feature's component")]
    end.

(** One warning for each component that does not exist. *)
Definition component_warnings (d : datastore) (names : list string) : list log_entry :=
  names ≫= λ component_name,
    match BlinkComponent_get_by_name d !! component_name with
    | None => [LogEntry WARNING (component_not_found component_name) []]
    | Some _ => []
    end.

Definition starring (d : datastore) (feature_id : Z) : list FeatureStar :=
  filter (λ fs, fs_feature_id fs = feature_id ∧ starred fs = true) (FeatureStar_query d).

(** Starrers that want notifications and did not bounce. *)
Definition starrer_emails (d : datastore) (feature_id : Z) : list string :=
  up_email <$>
    filter (λ up, notify_as_starrer up = true ∧ bounced up = false)
      (UserPref_get_prefs_for_emails d (fs_email <$> starring d feature_id)).

Definition starrer_log (d : datastore) (feature_id : Z) : list log_entry :=
  [LogEntry INFO "found %d stars for %r"
     [ArgInt (Z.of_nat (length (starring d feature_id))); ArgInt feature_id];
   LogEntry INFO "looking up %r" [ArgRepr (fs_email <$> starring d feature_id)]].

Definition rule_contributions (rule_results : list (string * list string))
    : list contribution :=
  (λ item, (item.2, item.1)) <$> rule_results.

(** Every category of recipient of a feature change, in the order of the
    code: owners, editors, CC, devrel, watchers, component owners and
    subscribers, starrers, matching subscription rules. *)
Definition category_contributions (d : datastore) (fe : FeatureEntry)
    (rule_results : list (string * list string)) : list contribution :=
  [(owner_emails fe, "You are listed as an owner of this feature");
   (editor_emails fe, "You are listed as an editor of this feature");
   (cc_emails fe, "You are CC'd on this feature");
   (devrel_emails fe, "You are a devrel contact for this feature.");
   (watcher_emails d, "You are watching all feature changes")]
  ++ component_contributions d (blink_components fe)
  ++ [(starrer_emails d (fe_id fe), "You starred this feature")]
  ++ rule_contributions rule_results.

(** The subject, triggering user and template of a feature change. *)
Definition change_subject (fe : FeatureEntry) (is_update : bool) : string :=
  if is_update then "updated feature: " +:+ name fe else "new feature: " +:+ name fe.

Definition change_triggering_user (fe : FeatureEntry) (is_update : bool) : option string :=
  if is_update then updater_email fe else creator_email fe.

Definition change_template (is_update : bool) : string :=
  if is_update then "update-feature-email.html" else "new-feature-email.html".

(** The task of a recipient with at least one reason. *)
Definition rendered_task (cfg : settings) (can_create_feature : string → bool)
    (o : set_order) (email_html subject : string) (triggering_user_email : option string)
    (item : string * list string) : email_task :=
  NotificationTask item.1 subject
    (if can_create_feature item.1 then triggering_user_email else None)
    (email_html +:+ PyStr.newline +:+ PyStr.newline
       +:+ PyStr.join PyStr.newline (footer_lines cfg o item.2)).

(** Sample values for the examples. *)
Definition sample_settings : settings :=
  {| SITE_URL := "https://chromestatus.com/"; SEND_EMAIL := true;
     REVIEW_COMMENT_MAILING_LIST := "blink-dev@chromium.org" |}.

Definition chromium_or_google (addr : string) : bool :=
  bool_decide (addr = "user@chromium.org").

Definition sample_feature : FeatureEntry :=
  {| fe_id := 123; name := "feature one"; category := 1; feature_type := 0;
     creator_email := Some "creator@example.com";
     updater_email := Some "editor@example.com";
     owner_emails := ["feature_owner@example.com"];
     editor_emails := ["feature_editor@example.com"; "owner_1@example.com"];
     cc_emails := ["cc@example.com"];
     devrel_emails := ["devrel1@gmail.com"];
     blink_components := ["Blink"; "Gone"] |}.

(** The sample feature with the component that does not exist listed first. *)
Definition sample_feature_missing_first : FeatureEntry :=
  {| fe_id := 123; name := "feature one"; category := 1; feature_type := 0;
     creator_email := Some "creator@example.com";
     updater_email := Some "editor@example.com";
     owner_emails := ["feature_owner@example.com"];
     editor_emails := ["feature_editor@example.com"];
     cc_emails := []; devrel_emails := [];
     blink_components := ["Gone"; "Blink"] |}.

Definition sample_iwa_feature : FeatureEntry :=
  {| fe_id := 123; name := "feature one"; category := 21; feature_type := 0;
     creator_email := Some "creator@example.com";
     updater_email := Some "editor@example.com";
     owner_emails := ["feature_owner@example.com"];
     editor_emails := []; cc_emails := []; devrel_emails := [];
     blink_components := ["Blink"] |}.

Definition sample_ship_stage : Stage :=
  {| milestones :=
       Some {| desktop_first := None; android_first := Some 88%Z; webview_first := None |};
     intent_thread_url := None; intent_subject_line := None |}.

Definition sample_datastore : datastore :=
  {| FeatureEntry_get_by_id := {[ 123%Z := sample_feature ]};
     FeatureOwner_query :=
       [ {| fo_email := "owner_1@example.com"; watching_all_features := false |};
         {| fo_email := "watcher_1@example.com"; watching_all_features := true |} ];
     BlinkComponent_get_by_name :=
       {[ "Blink" :=
            {| owners := [ {| fo_email := "owner_1@example.com";
                              watching_all_features := false |} ];
               subscribers := [] |} ]};
     FeatureStar_query :=
       [ {| fs_email := "starrer@example.com"; fs_feature_id := 123; starred := true |} ];
     UserPref_get_prefs_for_emails :=
       fmap (λ e, {| up_email := e; notify_as_starrer := true; bounced := false |});
     get_feature_stages := λ _, {[ 160%Z := [sample_ship_stage] ]};
     Gate_get_by_id := {[ 1%Z := {| stage_id := 2 |} ]};
     Stage_get_by_id := ∅ |}.

Definition sample_world : world :=
  {| db := sample_datastore; log := []; task_queue := [] |}.

Definition sample_IWA : Z := 21.

Definition sample_STAGE_TYPES_SHIPPING : gmap Z (option Z) := {[ 0%Z := Some 160%Z ]}.

Definition sample_format_email_body (template_path : string) (fe : FeatureEntry)
    (changes : list Change) : string := "mock body html".

Definition sample_changes : list Change :=
  [ {| prop_name := "shipped_android_milestone"; old_val := None; new_val := Some "88" |} ].

Definition sample_feature_param : feature_param :=
  {| feature_param_id := 123; feature_param_repr := "{'id': 123}" |}.

Definition sample_PrototypeApproval : ApprovalFieldDef :=
  {| field_name := "Intent to Prototype"; field_id := 1 |}.
Definition sample_ExperimentApproval : ApprovalFieldDef :=
  {| field_name := "Intent to Experiment"; field_id := 2 |}.
Definition sample_ExtendExperimentApproval : ApprovalFieldDef :=
  {| field_name := "Intent to Extend Experiment"; field_id := 3 |}.
Definition sample_APPROVAL_FIELDS_BY_ID : gmap Z ApprovalFieldDef :=
  {[ 1%Z := sample_PrototypeApproval; 2%Z := sample_ExperimentApproval;
     3%Z := sample_ExtendExperimentApproval ]}.

(** The first log line of [FeatureChangeHandler.process_post_data]. *)
Definition starting_entry (MAX_LOG_LINE : nat) (feature : feature_param) : log_entry :=
  LogEntry INFO "Starting to notify subscribers for feature %s"
    [ArgStr (PyStr.slice_to MAX_LOG_LINE (feature_param_repr feature))].

(** A feature entry without one of its component names. *)
Definition without_component (component_name : string) (fe : FeatureEntry) : FeatureEntry :=
  {| fe_id := fe_id fe; name := name fe; category := category fe;
     feature_type := feature_type fe; creator_email := creator_email fe;
     updater_email := updater_email fe; owner_emails := owner_emails fe;
     editor_emails := editor_emails fe; cc_emails := cc_emails fe;
     devrel_emails := devrel_emails fe;
     blink_components := filter (λ n, n ≠ component_name) (blink_components fe) |}.

(** The log lines of [send_emails]: the count, then one line per task in a
    dry run. *)
Definition would_send_entry (MAX_LOG_LINE : nat) (task : email_task) : log_entry :=
  LogEntry INFO would_send_format
    match task with
    | NotificationTask to subject reply_to html =>
        [ArgOptStr (Some to); ArgOptStr None; ArgOptStr None;
         ArgOptStr reply_to; ArgOptStr (Some subject);
         ArgStr (PyStr.slice_to MAX_LOG_LINE html)]
    | ThreadReplyTask to from_user references subject html =>
        [ArgOptStr (Some to); ArgOptStr (Some from_user); ArgOptStr references;
         ArgOptStr None; ArgOptStr (Some subject);
         ArgStr (PyStr.slice_to MAX_LOG_LINE html)]
    end.

Definition processing_entry (email_tasks : list email_task) : log_entry :=
  LogEntry INFO "Processing %d email tasks" [ArgInt (Z.of_nat (length email_tasks))].

(** The world after [send_emails email_tasks]. *)
Definition sent (cfg : settings) (MAX_LOG_LINE : nat) (email_tasks : list email_task)
    (w : world) : world :=
  if SEND_EMAIL cfg then
    World (db w) (log w ++ [processing_entry email_tasks])
      (task_queue w ++ ((λ t, ("/tasks/outbound-email", t)) <$> email_tasks))
  else
    World (db w)
      (log w ++ [processing_entry email_tasks] ++ (would_send_entry MAX_LOG_LINE <$> email_tasks))
      (task_queue w).

(** ** The milestone shown in the email body *)

(** [str(n)] for an integer [n]. *)
Definition str_int (n : Z) : string := NilZero.string_of_int (Z.to_int n).

(** [min(values, default=None)] *)
Definition py_min (values : list Z) : option Z :=
  match values with
  | [] => None
  | v :: rest => Some (foldl Z.min v rest)
  end.

(** The generator [stage.milestones.<field> for stage in ship_stages if
    stage.milestones and stage.milestones.<field>]. *)
Definition stage_milestones (field : MilestoneSet → option Z) (ship_stages : list Stage)
    : list Z :=
  omap (λ stage,
          match milestones stage with
          | Some ms => if truthy_int (field ms) then field ms else None
          | None => None
          end)
       ship_stages.

Definition _determine_milestone_string (ship_stages : list Stage) : string :=
  (* Get the earliest desktop and android milestones. *)
  let first_desktop := py_min (stage_milestones desktop_first ship_stages) in
  let first_android := py_min (stage_milestones android_first ship_stages) in
  (* Use the desktop milestone by default if it's available. *)
  let milestone_str :=
    match first_desktop with
    | Some n => str_int n
    | None => "None"
    end in
  (* Use the android milestone with the android suffix if there are no
     desktop milestones. *)
  if negb (truthy_int first_desktop) && truthy_int first_android then
    match first_android with
    | Some n => str_int n +:+ " (android)"
    | None => "None (android)"
    end
  else milestone_str.

(** ** Slices of a log line *)

(** The number of code points of a string: its bytes that are no
    continuation bytes. *)
Fixpoint code_points (s : string) : nat :=
  match s with
  | EmptyString => 0
  | String a rest => (if PyStr.is_continuation a then 0 else 1) + code_points rest
  end.

(** A string that does not start inside a code point. *)
Definition at_boundary (s : string) : bool :=
  match s with
  | EmptyString => true
  | String a _ => negb (PyStr.is_continuation a)
  end.

(** The bytes of [é€x]: a code point of two bytes, one of three, one of one. *)
Definition sample_non_ascii : string :=
  String "195" (String "169" (String "226" (String "130" (String "172" "x")))).

(** A shipping stage with the desktop milestone [n] and the android
    milestone 88, for the examples. *)
Definition sample_desktop_stage (n : Z) : Stage :=
  {| milestones :=
       Some {| desktop_first := Some n; android_first := Some 88%Z; webview_first := None |};
     intent_thread_url := None; intent_subject_line := None |}.

(** ** Review emails *)

(** A [Gate] as [add_reviewers] reads it: the entity and its assignees. *)
Record AssignedGate := {
  gate_entity : Gate;
  assignee_emails : list string
}.

Section ReviewEmails.

Variable cfg : settings.
Variable MAX_LOG_LINE : nat.
Variable can_create_feature : string → bool.
Variable o : set_order.
(** The body that [format_email_body(template_path, fe, changes,
    updater_email)] returns, rendered before any recipient is gathered. *)
Variable format_email_body : string → FeatureEntry → list Change → option string → string.
(** [approval_defs.get_gate_by_type(feature_id, gate_type)] and
    [approval_defs.get_approvers(gate_type)] *)
Variable get_gate_by_type : Z → Z → option AssignedGate.
Variable get_approvers : Z → list string.

(** Add addresses of people who will do the review. *)
Definition add_reviewers (fe : FeatureEntry) (gate_type : Z)
    (addr_reasons : gmap string (list string)) : gmap string (list string) :=
  let gate := get_gate_by_type (fe_id fe) gate_type in
  let '(recipients, reasons) :=
    match gate with
    | Some g =>
        match assignee_emails g with
        | _ :: _ => (assignee_emails g, "This review is assigned to you")
        | [] => (get_approvers gate_type, "You are a reviewer for this type of gate")
        end
    | None => (get_approvers gate_type, "You are a reviewer for this type of gate")
    end in
  accumulate_reasons addr_reasons recipients reasons.

Definition make_review_requests_email (fe : FeatureEntry) (gate_type : Z)
    (changes : option (list Change)) : result (list email_task) :=
  let changes := default [] changes in
  let email_html := format_email_body "update-feature-email.html" fe changes None in
  let subject := "Review Request for feature: " +:+ name fe in
  let triggering_user_email := updater_email fe in
  let addr_reasons : gmap string (list string) := ∅ in
  let addr_reasons := add_reviewers fe gate_type addr_reasons in
  all_tasks cfg can_create_feature o addr_reasons email_html subject triggering_user_email.

(** [', '.join(assignees) or 'None'] *)
Definition joined_or_None (assignees : list string) : string :=
  let joined := PyStr.join ", " assignees in
  if PyStr.truthy joined then joined else "None".

Definition make_review_assignment_email (fe : FeatureEntry) (gate_type : Z)
    (triggering_user_email : string) (old_assignees new_assignees : list string)
    : result (list email_task) :=
  let change :=
    {| prop_name := "Assigned reiewer";
       old_val := Some (joined_or_None old_assignees);
       new_val := Some (joined_or_None new_assignees) |} in
  let email_html :=
    format_email_body "update-feature-email.html" fe [change]
      (Some triggering_user_email) in
  let subject := "Review assigned for feature: " +:+ name fe in
  let approvers := get_approvers gate_type in
  let reasons := "You received a review request for this feature" in
  let addr_reasons : gmap string (list string) := ∅ in
  let addr_reasons := accumulate_reasons addr_reasons old_assignees
    "The review was previously assigned to you" in
  let addr_reasons := accumulate_reasons addr_reasons new_assignees
    "The review is now assigned to you" in
  all_tasks cfg can_create_feature o addr_reasons email_html subject
    (Some triggering_user_email).

Definition make_new_comments_email (d : datastore) (fe : FeatureEntry) (gate_type : Z)
    (changes : option (list Change)) : result (list email_task) :=
  let changes := default [] changes in
  let fe_stages := get_feature_stages d (fe_id fe) in
  let email_html := format_email_body "update-feature-email.html" fe changes None in
  let subject := "New comments for feature: " +:+ name fe in
  let triggering_user_email := updater_email fe in
  let addr_reasons : gmap string (list string) := ∅ in
  let addr_reasons := add_core_receivers fe addr_reasons in
  let addr_reasons := add_reviewers fe gate_type addr_reasons in
  all_tasks cfg can_create_feature o addr_reasons email_html subject triggering_user_email.

(** The log line that opens a handler: [logging.info(fmt,
    repr(feature)[:settings.MAX_LOG_LINE])]. *)
Definition starting_to_notify (fmt : string) (feature : feature_param) : M unit :=
  logging INFO fmt
    [ArgStr (PyStr.slice_to MAX_LOG_LINE (feature_param_repr feature))].

(** [FeatureReviewHandler.process_post_data] *)
Definition FeatureReviewHandler_process_post_data (feature : feature_param)
    (gate_type : Z) (changes_param : option (list Change)) : M string :=
  let changes := default [] changes_param in
  starting_to_notify "Starting to notify reviewers for feature %s" feature ;;
  do d <- get_db;
  match FeatureEntry_get_by_id d !! feature_param_id feature with
  | Some fe =>
      do email_tasks <- lift (make_review_requests_email fe gate_type (Some changes));
      send_emails cfg MAX_LOG_LINE email_tasks ;;
      ret "Done"
  | None => ret "Done"
  end.

(** [ReviewAssignmentHandler.process_post_data] *)
Definition ReviewAssignmentHandler_process_post_data (feature : feature_param)
    (gate_type : Z) (triggering_user_email : string)
    (old_assignees new_assignees : list string) : M string :=
  starting_to_notify "Starting to notify assignees for feature %s" feature ;;
  do d <- get_db;
  match FeatureEntry_get_by_id d !! feature_param_id feature with
  | Some fe =>
      do email_tasks <-
        lift (make_review_assignment_email fe gate_type triggering_user_email
                old_assignees new_assignees);
      send_emails cfg MAX_LOG_LINE email_tasks ;;
      ret "Done"
  | None => ret "Done"
  end.

(** [FeatureCommentHandler.process_post_data] *)
Definition FeatureCommentHandler_process_post_data (feature : feature_param)
    (gate_type : Z) (changes_param : option (list Change)) : M string :=
  let changes := default [] changes_param in
  starting_to_notify "Starting to notify of comments for feature %s" feature ;;
  do d <- get_db;
  match FeatureEntry_get_by_id d !! feature_param_id feature with
  | Some fe =>
      do email_tasks <- lift (make_new_comments_email d fe gate_type (Some changes));
      send_emails cfg MAX_LOG_LINE email_tasks ;;
      ret "Done"
  | None => ret "Done"
  end.

End ReviewEmails.

(** Who reviews, in the words of [add_reviewers]: the assignees of the gate
    when it has some, the approvers of the gate type otherwise. *)
Definition review_contribution (get_gate_by_type : Z → Z → option AssignedGate)
    (get_approvers : Z → list string) (fe : FeatureEntry) (gate_type : Z) : contribution :=
  match get_gate_by_type (fe_id fe) gate_type with
  | Some g =>
      if decide (assignee_emails g = []) then
        (get_approvers gate_type, "You are a reviewer for this type of gate")
      else (assignee_emails g, "This review is assigned to you")
  | None => (get_approvers gate_type, "You are a reviewer for this type of gate")
  end.

(** The contributions of [add_core_receivers]. *)
Definition core_contributions (fe : FeatureEntry) : list contribution :=
  [(owner_emails fe, "You are listed as an owner of this feature");
   (editor_emails fe, "You are listed as an editor of this feature");
   (cc_emails fe, "You are CC'd on this feature");
   (devrel_emails fe, "You are a devrel contact for this feature.")].

(** Sample gates and approvers. *)
Definition sample_get_gate_by_type (feature_id gate_type : Z) : option AssignedGate :=
  if decide (gate_type = 1%Z) then
    Some {| gate_entity := {| stage_id := 2 |};
            assignee_emails := ["approver3@example.com"] |}
  else if decide (gate_type = 2%Z) then
    Some {| gate_entity := {| stage_id := 2 |}; assignee_emails := [] |}
  else None.

Definition sample_get_approvers (gate_type : Z) : list string :=
  ["approver1@example.com"; "approver2@example.com"].

Definition sample_format_email_body4 (template_path : string) (fe : FeatureEntry)
    (changes : list Change) (updater : option string) : string := "mock body html".

(** The world after the first log line of a handler. *)
Definition started_with (MAX_LOG_LINE : nat) (fmt : string) (feature : feature_param)
    (w : world) : world :=
  World (db w)
    (log w ++ [LogEntry INFO fmt
                 [ArgStr (PyStr.slice_to MAX_LOG_LINE (feature_param_repr feature))]])
    (task_queue w).

(** The characters of a string. *)
Definition chars (s : string) : list ascii := list_ascii_of_string s.

Definition sample_stage_with_thread : Stage :=
  {| milestones := None;
     intent_thread_url :=
       Some (BLINK_DEV_ARCHIVE_URL_PREFIX +:+ "CAKXHy=abc@mail.gmail.com"
               +:+ "?utm_medium=email&utm_source=footer");
     intent_subject_line := Some "Re: Intent to Ship: feature one" |}.

Definition sample_review_datastore : datastore :=
  {| FeatureEntry_get_by_id := {[ 123%Z := sample_feature ]};
     FeatureOwner_query := [];
     BlinkComponent_get_by_name := ∅;
     FeatureStar_query := [];
     UserPref_get_prefs_for_emails := λ _, [];
     get_feature_stages := λ _, ∅;
     Gate_get_by_id := {[ 1%Z := {| stage_id := 2 |} ]};
     Stage_get_by_id := {[ 2%Z := sample_stage_with_thread ]} |}.

Definition sample_review_world : world :=
  {| db := sample_review_datastore; log := []; task_queue := [] |}.

(** ** Stars *)

Inductive star_log_entry :=
| InfoFoundStars (count : nat) (email : string)      (* 'found %d stars for %r' *)
| InfoReturning (feature_ids : list Z)                (* 'returning %r' *)
| ErrorCountBelowZero (email : string) (feature_id : Z) (new_starred : bool).
                                                      (* 'count would be < 0: %r' *)

(** What the star methods read and write: the [FeatureStar] entities in
    the order a query returns them, the [star_count] of each
    [FeatureEntry], and the log. *)
Record star_store := StarStore {
  feature_stars : list FeatureStar;
  star_counts : gmap Z Z;
  star_log : list star_log_entry
}.

Inductive star_outcome :=
| Returned
| RaisedAttributeError.   (* [feature_entry] is [None] *)

(** [FeatureStar.get_star]: the first entity of that user and feature, with
    its place among the entities (its key), or [None]. *)
Definition get_star (email : string) (feature_id : Z) (st : star_store)
    : option (nat * FeatureStar) :=
  list_find (λ fs, fs_email fs = email ∧ fs_feature_id fs = feature_id) (feature_stars st).

(** A new entity lands at some place among the results of later queries. *)
Definition insert_at {A} (place : nat) (x : A) (l : list A) : list A :=
  take place l ++ x :: drop place l.

(** [FeatureStar.set_star]; [place] is where a new entity lands. *)
Definition set_star (email : string) (feature_id : Z) (new_starred : bool) (place : nat)
    (st : star_store) : star_outcome * star_store :=
  let feature_star := get_star email feature_id st in
  let put_star : option (list FeatureStar) :=
    match feature_star with
    | None =>
        if new_starred then
          Some (insert_at place
                  {| fs_email := email; fs_feature_id := feature_id; starred := true |}
                  (feature_stars st))
        else None
    | Some (key, fs) =>
        if negb (eqb (starred fs) new_starred) then
          Some (<[key := {| fs_email := fs_email fs; fs_feature_id := fs_feature_id fs;
                            starred := new_starred |}]> (feature_stars st))
        else None
    end in
  match put_star with
  | None => (Returned, st)  (* No need to update anything in datastore *)
  | Some stars =>
      match star_counts st !! feature_id with
      | None => (RaisedAttributeError, StarStore stars (star_counts st) (star_log st))
      | Some star_count =>
          let star_count := (star_count + if new_starred then 1 else -1)%Z in
          if (star_count <? 0)%Z then
            (Returned,
             StarStore stars (star_counts st)
               (star_log st ++ [ErrorCountBelowZero email feature_id new_starred]))
          else
            (Returned,
             StarStore stars (<[feature_id := star_count]> (star_counts st)) (star_log st))
      end
  end.

(** [sorted(feature_ids, reverse=True)] *)
Definition sorted_reverse (feature_ids : list Z) : list Z :=
  merge_sort (flip Z.le) feature_ids.

(** [FeatureStar.get_user_stars] *)
Definition get_user_stars (email : string) (st : star_store) : list Z * star_store :=
  let stars := filter (λ fs, fs_email fs = email ∧ starred fs = true) (feature_stars st) in
  let feature_ids := fs_feature_id <$> stars in
  (sorted_reverse feature_ids,
   StarStore (feature_stars st) (star_counts st)
     (star_log st ++ [InfoFoundStars (length stars) email; InfoReturning feature_ids])).

(** The key of a star entity for [get_star], and the entity with another
    value of [starred]. *)
Definition star_key (fs : FeatureStar) : string * Z := (fs_email fs, fs_feature_id fs).

Definition restarred (fs : FeatureStar) (new_starred : bool) : FeatureStar :=
  {| fs_email := fs_email fs; fs_feature_id := fs_feature_id fs; starred := new_starred |}.

(** At most one star entity per user and feature. *)
Definition unique_stars (st : star_store) : Prop :=
  NoDup (star_key <$> feature_stars st).

Definition sample_star_store : star_store :=
  {| feature_stars :=
       [ {| fs_email := "a@example.com"; fs_feature_id := 7; starred := true |};
         {| fs_email := "b@example.com"; fs_feature_id := 7; starred := false |};
         {| fs_email := "a@example.com"; fs_feature_id := 9; starred := true |} ];
     star_counts := {[ 7%Z := 1%Z; 9%Z := 0%Z ]};
     star_log := [] |}.

(** ** Inactive users *)

(** An [AppUser]; a [datetime] is its number of microseconds since the epoch. *)
Record AppUser := {
  au_email : string;
  is_admin : bool;
  is_site_editor : bool;
  notified_inactive : bool;
  last_visit : option Z;
  created : Z
}.

(** [timedelta(days=n)] *)
Definition timedelta_days (n : Z) : Z := (n * 86400 * 1000000)%Z.

(** [datetime(2022, 8, 1)] *)
Definition DEFAULT_LAST_VISIT : Z := (1659312000 * 1000000)%Z.
Definition INACTIVE_WARN_DAYS : Z := 180.
Definition EMAIL_TEMPLATE_PATH : string := "inactive_user_email.html".

(** [user.notified_inactive = True] *)
Definition mark_notified (user : AppUser) : AppUser :=
  {| au_email := au_email user; is_admin := is_admin user;
     is_site_editor := is_site_editor user; notified_inactive := true;
     last_visit := last_visit user; created := created user |}.

(** The loop of [_determine_users_to_notify] over the fetched users: the
    addresses appended to [inactive_users], and the users as stored after
    the [put]s. *)
Fixpoint notify_loop (inactive_cutoff : Z) (users : list AppUser)
    : list string * list AppUser :=
  match users with
  | [] => ([], [])
  | user :: rest =>
      let '(inactive_users, stored) := notify_loop inactive_cutoff rest in
      (* Site admins and editors aren't warned due to inactivity.
         Also, users that have been previously notified are not notified again. *)
      if is_admin user || is_site_editor user || notified_inactive user then
        (inactive_users, user :: stored)
      else
        let last_visit := default DEFAULT_LAST_VISIT (last_visit user) in
        let last_visit :=
          if (last_visit <? created user)%Z then created user else last_visit in
        (* Notify the user of inactivity if they haven't already been notified. *)
        if (last_visit <? inactive_cutoff)%Z then
          (au_email user :: inactive_users, mark_notified user :: stored)
        else (inactive_users, user :: stored)
  end.

Definition _determine_users_to_notify (now : Z) (users : list AppUser)
    : list string * list AppUser :=
  let inactive_cutoff := (now - timedelta_days INACTIVE_WARN_DAYS)%Z in
  notify_loop inactive_cutoff users.

Section InactiveUsers.

Variable cfg : settings.
Variable MAX_LOG_LINE : nat.
(** [render_template(EMAIL_TEMPLATE_PATH, site_url=...)] *)
Variable render_template : string → string → string.

Definition _build_email_tasks (users_to_notify : list string) : list email_task :=
  (λ email,
     let html := render_template EMAIL_TEMPLATE_PATH (SITE_URL cfg) in
     let subject := "Notice of WebStatus user inactivity for " +:+ email in
     NotificationTask email subject None html) <$> users_to_notify.

(** [NotifyInactiveUsersHandler.get_template_data], on a request that
    carries the cron header; [users] are the stored [AppUser]s. *)
Definition get_template_data (now : Z) (users : list AppUser)
    : M (string * list AppUser) :=
  let '(users_to_notify, users) := _determine_users_to_notify now users in
  let email_tasks := _build_email_tasks users_to_notify in
  send_emails cfg MAX_LOG_LINE email_tasks ;;
  let message_parts :=
    [str_int (Z.of_nat (length email_tasks)) +:+ " users notified of inactivity.";
     "Notified users:"] ++ (task_to <$> email_tasks) in
  let message := PyStr.join PyStr.newline message_parts in
  logging INFO message [] ;;
  ret (message, users).

End InactiveUsers.

(** A user is due for a notice at [now]: not exempt, not yet notified, and
    last seen (or created, or the default date, whichever is latest) more
    than the warning period ago. *)
Definition due (now : Z) (user : AppUser) : Prop :=
  is_admin user = false ∧ is_site_editor user = false ∧ notified_inactive user = false ∧
  (Z.max (created user) (default DEFAULT_LAST_VISIT (last_visit user))
   < now - timedelta_days INACTIVE_WARN_DAYS)%Z.

Global Instance due_dec now user : Decision (due now user).
Proof. unfold due. apply _. Defined.

Definition sample_users : list AppUser :=
  [ {| au_email := "admin@example.com"; is_admin := true; is_site_editor := false;
       notified_inactive := false; last_visit := None; created := 0 |};
    {| au_email := "old@example.com"; is_admin := false; is_site_editor := false;
       notified_inactive := false; last_visit := None; created := 0 |};
    {| au_email := "recent@example.com"; is_admin := false; is_site_editor := false;
       notified_inactive := false;
       last_visit := Some (1690000000 * 1000000)%Z; created := 0 |};
    {| au_email := "lapsed@example.com"; is_admin := false; is_site_editor := false;
       notified_inactive := false;
       last_visit := Some (1641000000 * 1000000)%Z; created := 0 |} ].

(** 2023-09-01 *)
Definition sample_now : Z := (1693526400 * 1000000)%Z.

(** ** Saving amendments and notifying subscribers ([notifier_helpers]) *)

(** What [_get_changes_as_amendments] asks of the old and new values of a
    field: [new != old], [old is None], [bool(new)] and [str(v)]. *)
Class PyValue (V : Type) := {
  py_eqb : V → V → bool;
  py_is_None : V → bool;
  py_bool : V → bool;
  py_str : V → string
}.

Record Amendment := {
  amendment_field_name : string;
  old_value : string;
  new_value : string
}.

Record Activity := {
  activity_feature_id : Z;
  author : option string;
  content : string;
  amendments : list Amendment
}.

(** The payload of a task for [/tasks/email-subscribers]. *)
Record subscriber_params := {
  params_changes : list Change;
  params_is_update : bool;
  params_feature : feature_param
}.

(** The [Activity] entities and the task queue. *)
Record helper_store := HelperStore {
  activities : list Activity;
  cloud_tasks : list (string * subscriber_params)
}.

(** Scalar values, for the examples. *)
Inductive scalar :=
| PyNone
| PyBool (b : bool)
| PyInt (n : Z)
| PyStr (s : string).

Definition scalar_as_int (v : scalar) : option Z :=
  match v with
  | PyBool b => Some (if b then 1 else 0)%Z
  | PyInt n => Some n
  | _ => None
  end.

Global Instance scalar_PyValue : PyValue scalar := {|
  py_eqb v1 v2 :=
    match v1, v2 with
    | PyNone, PyNone => true
    | PyStr s1, PyStr s2 => bool_decide (s1 = s2)
    | _, _ =>
        match scalar_as_int v1, scalar_as_int v2 with
        | Some n1, Some n2 => (n1 =? n2)%Z
        | _, _ => false
        end
    end;
  py_is_None v := match v with PyNone => true | _ => false end;
  py_bool v :=
    match v with
    | PyNone => false
    | PyBool b => b
    | PyInt n => negb (n =? 0)%Z
    | PyStr s => PyStr.truthy s
    end;
  py_str v :=
    match v with
    | PyNone => "None"
    | PyBool b => if b then "True" else "False"
    | PyInt n => str_int n
    | PyStr s => s
    end
|}.

Section NotifierHelpers.

Context {V : Type} `{PyValue V}.
(** [core_enums.convert_enum_int_to_string],
    [converters.feature_entry_to_json_verbose] and the address of
    [users.get_current_user()] *)
Variable convert_enum_int_to_string : string → string → string.
Variable feature_entry_to_json_verbose : FeatureEntry → feature_param.
Variable current_user_email : option string.

(** Convert list of field changes to Amendment entities. *)
Fixpoint _get_changes_as_amendments (changed_fields : list (string * V * V))
    : list Amendment :=
  match changed_fields with
  | [] => []
  | (field, old_val, new_val) :: rest =>
      (* Diff values to see what properties have changed. *)
      if negb (py_eqb new_val old_val) then
        (* Don't log if the old value was null and now it's falsey. *)
        if py_is_None old_val && negb (py_bool new_val) then
          _get_changes_as_amendments rest
        else
          {| amendment_field_name := field; old_value := py_str old_val;
             new_value := py_str new_val |} :: _get_changes_as_amendments rest
      else _get_changes_as_amendments rest
  end.

Definition notify_feature_subscribers_of_changes (fe : FeatureEntry)
    (amendments : list Amendment) (is_update : bool) (st : helper_store) : helper_store :=
  let changed_props :=
    (λ a, {| prop_name := amendment_field_name a;
             old_val := Some (convert_enum_int_to_string (amendment_field_name a)
                                (old_value a));
             new_val := Some (convert_enum_int_to_string (amendment_field_name a)
                                (new_value a)) |}) <$> amendments in
  let params :=
    {| params_changes := changed_props; params_is_update := is_update;
       params_feature := feature_entry_to_json_verbose fe |} in
  (* Create task to email subscribers. *)
  HelperStore (activities st) (cloud_tasks st ++ [("/tasks/email-subscribers", params)]).

Definition notify_subscribers_and_save_amendments (fe : FeatureEntry)
    (changed_fields : list (string * V * V)) (notify is_update : bool)
    (st : helper_store) : helper_store :=
  let amendments := _get_changes_as_amendments changed_fields in
  let st :=
    if (0 <? length amendments)%nat then
      let activity :=
        {| activity_feature_id := fe_id fe; author := current_user_email;
           content := EmptyString; amendments := amendments |} in
      HelperStore (activities st ++ [activity]) (cloud_tasks st)
    else st in
  if notify then notify_feature_subscribers_of_changes fe amendments is_update st
  else st.

End NotifierHelpers.

(** A changed field counts when the values differ, unless the old one is
    [None] and the new one falsy. *)
Definition effective_change `{PyValue V} (change : string * V * V) : Prop :=
  py_eqb change.2 change.1.2 = false ∧
  (py_is_None change.1.2 = false ∨ py_bool change.2 = true).

Global Instance effective_change_dec `{PyValue V} (change : string * V * V) :
  Decision (effective_change change).
Proof. unfold effective_change. apply _. Defined.

Definition amendment_of `{PyValue V} (change : string * V * V) : Amendment :=
  {| amendment_field_name := change.1.1; old_value := py_str change.1.2;
     new_value := py_str change.2 |}.

Definition sample_changed_fields : list (string * scalar * scalar) :=
  [("name", PyStr "old name", PyStr "new name");
   ("summary", PyStr "same", PyStr "same");
   ("shipped_milestone", PyNone, PyInt 0);
   ("unlisted", PyBool false, PyBool true)].

(** * Properties *)

(** ** Sorting *)

Section Sorting.

Lemma sorted_Permutation l : sorted l ≡ₚ l.
Proof. apply merge_sort_Permutation. Qed.

Lemma sorted_StronglySorted l : StronglySorted String.le (sorted l).
Proof. apply (StronglySorted_merge_sort String.le). Qed.

Lemma sorted_set_elem_of o l x : x ∈ sorted_set o l ↔ x ∈ l.
Proof.
  unfold sorted_set. rewrite sorted_Permutation. apply iter_set_elem_of.
Qed.

Lemma sorted_set_NoDup o l : NoDup (sorted_set o l).
Proof.
  unfold sorted_set. rewrite sorted_Permutation. apply iter_set_NoDup.
Qed.

(** A list in order without repetition is in strict order. *)
Lemma StronglySorted_strict (l : list string) :
  StronglySorted String.le l → NoDup l → StronglySorted (strict String.le) l.
Proof.
  induction 1 as [|x l Hl IH Hx]; intros Hnd; inversion_clear Hnd; constructor; auto.
  rewrite Forall_forall in Hx |- *. intros y Hy. split; [by apply Hx|].
  intros Hyx. assert (x = y) by (apply (anti_symm String.le); auto). congruence.
Qed.

Lemma sorted_set_strict o l : StronglySorted (strict String.le) (sorted_set o l).
Proof.
  apply StronglySorted_strict; [apply sorted_StronglySorted | apply sorted_set_NoDup].
Qed.

(** The rendering order depends on the set of reasons only. *)
Lemma sorted_set_ext o1 o2 l1 l2 :
  (∀ x, x ∈ l1 ↔ x ∈ l2) → sorted_set o1 l1 = sorted_set o2 l2.
Proof.
  intros Hext. apply (StronglySorted_unique String.le).
  - apply sorted_StronglySorted.
  - apply sorted_StronglySorted.
  - apply NoDup_Permutation; [apply sorted_set_NoDup..|].
    intros x. by rewrite !sorted_set_elem_of.
Qed.

Lemma list_compare_antisym l1 l2 : list_compare l1 l2 = CompOpp (list_compare l2 l1).
Proof.
  revert l2. induction l1 as [|x l1 IH]; intros [|y l2]; simpl; try done.
  rewrite (String.compare_antisym x y).
  destruct (String.compare y x); simpl; auto.
Qed.

Lemma item_compare_antisym p q : item_compare p q = CompOpp (item_compare q p).
Proof.
  unfold item_compare. rewrite (String.compare_antisym p.1 q.1).
  destruct (String.compare q.1 p.1); simpl; auto using list_compare_antisym.
Qed.

Global Instance item_le_total : Total item_le.
Proof.
  intros p q. unfold item_le. rewrite (item_compare_antisym q p).
  destruct (item_compare p q); simpl; [left|left|right]; congruence.
Qed.

Lemma item_le_fst p q : item_le p q → String.le p.1 q.1.
Proof.
  unfold item_le, item_compare, String.le, String.leb.
  destruct (String.compare p.1 q.1); simpl; auto; congruence.
Qed.

Lemma sorted_items_Permutation (m : gmap string (list string)) :
  sorted_items m ≡ₚ map_to_list m.
Proof. apply merge_sort_Permutation. Qed.

Lemma elem_of_sorted_items (m : gmap string (list string)) addr reasons :
  (addr, reasons) ∈ sorted_items m ↔ m !! addr = Some reasons.
Proof. rewrite sorted_items_Permutation. apply elem_of_map_to_list. Qed.

Lemma sorted_items_NoDup_fst (m : gmap string (list string)) :
  NoDup (sorted_items m).*1.
Proof. rewrite sorted_items_Permutation. apply NoDup_fst_map_to_list. Qed.

Lemma elem_of_sorted_items_fst (m : gmap string (list string)) addr :
  addr ∈ (sorted_items m).*1 ↔ is_Some (m !! addr).
Proof.
  rewrite list_elem_of_fmap. split.
  - intros [[a l] [-> H]]. apply elem_of_sorted_items in H. eauto.
  - intros [l H]. exists (addr, l). split; [done|]. by apply elem_of_sorted_items.
Qed.

Lemma sorted_items_length (m : gmap string (list string)) :
  length (sorted_items m) = size m.
Proof. rewrite sorted_items_Permutation. apply length_map_to_list. Qed.

(** Items in tuple order with distinct keys have their keys in strict order. *)
Lemma Sorted_items_keys (l : list (string * list string)) :
  Sorted item_le l → NoDup l.*1 → StronglySorted (strict String.le) l.*1.
Proof.
  intros Hs Hnd. apply StronglySorted_strict; [|done].
  apply Sorted_StronglySorted; [apply _|].
  eapply (Sorted_fmap fst item_le String.le); [|done].
  intros x y. apply item_le_fst.
Qed.

Lemma sorted_items_keys (m : gmap string (list string)) :
  StronglySorted (strict String.le) (sorted_items m).*1.
Proof.
  apply Sorted_items_keys; [|apply sorted_items_NoDup_fst].
  apply (Sorted_merge_sort item_le).
Qed.

End Sorting.

(** ** The reason table *)

Section Table.

Implicit Types (table : gmap string (list string)) (addr reason : string).

Lemma occurrences_cons addr a addrs :
  occurrences addr (a :: addrs) =
    if decide (a = addr) then S (occurrences addr addrs) else occurrences addr addrs.
Proof. unfold occurrences. rewrite filter_cons. by case_decide. Qed.

Lemma occurrences_zero addr addrs : occurrences addr addrs = 0 ↔ addr ∉ addrs.
Proof.
  induction addrs as [|a addrs IH]; [split; [intros _; apply not_elem_of_nil | done]|].
  rewrite occurrences_cons, not_elem_of_cons. case_decide; subst.
  - split; [lia | intros [? _]; congruence].
  - rewrite IH. split; [intros ?; split; auto | tauto].
Qed.

Lemma append_reason_lookup reason table email addr :
  append_reason reason table email !! addr =
    if decide (email = addr) then Some (default [] (table !! addr) ++ [reason])
    else table !! addr.
Proof.
  unfold append_reason. case_decide; subst.
  - by rewrite lookup_insert_eq.
  - by rewrite lookup_insert_ne.
Qed.

Lemma accumulate_reasons_cons table a addrs reason :
  accumulate_reasons table (a :: addrs) reason =
    accumulate_reasons (append_reason reason table a) addrs reason.
Proof. reflexivity. Qed.

Lemma accumulate_reasons_lookup table addrs reason addr :
  accumulate_reasons table addrs reason !! addr =
    match occurrences addr addrs with
    | 0 => table !! addr
    | S _ => Some (default [] (table !! addr) ++ replicate (occurrences addr addrs) reason)
    end.
Proof.
  revert table. induction addrs as [|a addrs IH]; intros table; [done|].
  rewrite accumulate_reasons_cons, IH, occurrences_cons, append_reason_lookup.
  case_decide; subst; [|done].
  destruct (occurrences addr addrs); simpl; [done|].
  by rewrite <- app_assoc.
Qed.

Lemma reasoned_empty : reasoned ∅.
Proof. intros addr. by rewrite lookup_empty. Qed.

Lemma reasoned_entry table addr :
  reasoned table → table !! addr = entry (default [] (table !! addr)).
Proof.
  intros H. specialize (H addr). destruct (table !! addr) as [[|r l]|]; simpl; congruence.
Qed.

Lemma accumulate_reasons_reasoned table addrs reason :
  reasoned table → reasoned (accumulate_reasons table addrs reason).
Proof.
  intros H addr. rewrite accumulate_reasons_lookup.
  destruct (occurrences addr addrs); [apply H|].
  intros [= Heq]. apply app_eq_nil in Heq as [_ Heq]. discriminate.
Qed.

Lemma accumulate_all_reasoned table seq :
  reasoned table → reasoned (accumulate_all table seq).
Proof.
  revert table. induction seq as [|c seq IH]; intros table H; [done|].
  apply IH. by apply accumulate_reasons_reasoned.
Qed.

Lemma accumulate_all_empty_reasoned seq : reasoned (accumulate_all ∅ seq).
Proof. apply accumulate_all_reasoned, reasoned_empty. Qed.

Lemma accumulate_all_app table seq1 seq2 :
  accumulate_all table (seq1 ++ seq2) = accumulate_all (accumulate_all table seq1) seq2.
Proof. apply foldl_app. Qed.

Lemma reasons_for_cons (c : contribution) seq addr :
  reasons_for (c :: seq) addr =
    replicate (occurrences addr c.1) c.2 ++ reasons_for seq addr.
Proof. reflexivity. Qed.

Lemma accumulate_all_default table seq addr :
  default [] (accumulate_all table seq !! addr) =
    default [] (table !! addr) ++ reasons_for seq addr.
Proof.
  revert table. induction seq as [|c seq IH]; intros table.
  - unfold reasons_for. simpl. by rewrite app_nil_r.
  - change (accumulate_all table (c :: seq))
      with (accumulate_all (accumulate_reasons table c.1 c.2) seq).
    rewrite IH, accumulate_reasons_lookup, reasons_for_cons.
    destruct (occurrences addr c.1); simpl; [done|].
    by rewrite <- app_assoc.
Qed.

(** The table built from nothing binds each address to its reasons. *)
Lemma accumulate_all_lookup seq addr :
  accumulate_all ∅ seq !! addr = entry (reasons_for seq addr).
Proof.
  rewrite (reasoned_entry _ _ (accumulate_all_empty_reasoned seq)).
  by rewrite accumulate_all_default, lookup_empty.
Qed.

Lemma reasons_for_nil seq addr :
  reasons_for seq addr = [] ↔ ∀ c : contribution, c ∈ seq → addr ∉ c.1.
Proof.
  induction seq as [|c seq IH].
  - split; [intros _ c Hc; by apply not_elem_of_nil in Hc | done].
  - rewrite reasons_for_cons. split.
    + intros Heq. apply app_eq_nil in Heq as [H1 H2].
      intros c' [->|Hc']%elem_of_cons; [|by apply IH].
      apply occurrences_zero. by destruct (occurrences addr c.1).
    + intros H. rewrite (proj2 IH) by (intros c' Hc'; apply H; by right).
      assert (Hc : addr ∉ c.1) by (apply H; by left).
      apply occurrences_zero in Hc. by rewrite Hc.
Qed.

Lemma reasons_for_elem_of seq addr reason :
  reason ∈ reasons_for seq addr ↔ ∃ c : contribution, c ∈ seq ∧ addr ∈ c.1 ∧ c.2 = reason.
Proof.
  unfold reasons_for. rewrite list_elem_of_join. split.
  - intros (l & Hr & Hl). apply list_elem_of_fmap in Hl as (c & -> & Hc).
    apply elem_of_replicate in Hr as [-> Hn]. exists c. repeat split; auto.
    destruct (decide (addr ∈ c.1)) as [|Hno]; [done|].
    by apply occurrences_zero in Hno.
  - intros (c & Hc & Ha & <-). exists (replicate (occurrences addr c.1) c.2). split.
    + apply elem_of_replicate. split; [done|].
      intros H0. by apply occurrences_zero in H0.
    + apply list_elem_of_fmap. by exists c.
Qed.

(** The recipients are the addresses of the contributions. *)
Lemma accumulate_all_is_Some seq addr :
  is_Some (accumulate_all ∅ seq !! addr) ↔ ∃ c : contribution, c ∈ seq ∧ addr ∈ c.1.
Proof.
  rewrite accumulate_all_lookup. split.
  - intros [l Hl]. destruct (reasons_for seq addr) as [|r rs] eqn:E; [done|].
    assert (Hr : r ∈ reasons_for seq addr) by (rewrite E; left).
    apply reasons_for_elem_of in Hr as (c & ? & ? & _). eauto.
  - intros (c & Hc & Ha). destruct (reasons_for seq addr) eqn:E; [|by eexists].
    exfalso. eapply reasons_for_nil in E; eauto.
Qed.

End Table.

(** ** Rendering *)

Section RenderingProperties.

Variable cfg : settings.
Variable can_create_feature : string → bool.

Lemma convert_reasons_to_task_Ok o addr reasons email_html subject triggering_user_email :
  reasons ≠ [] →
  convert_reasons_to_task cfg can_create_feature o addr reasons email_html subject
      triggering_user_email =
    Ok (rendered_task cfg can_create_feature o email_html subject triggering_user_email
          (addr, reasons)).
Proof. by destruct reasons. Qed.

Lemma result_map_Ok {A B} (f : A → result B) (g : A → B) (l : list A) :
  (∀ x, x ∈ l → f x = Ok (g x)) → result_map f l = Ok (g <$> l).
Proof.
  induction l as [|x l IH]; intros H; [done|]. simpl.
  rewrite (H x) by left. simpl. rewrite IH by (intros y Hy; apply H; by right). done.
Qed.

Lemma all_tasks_Ok o table email_html subject triggering_user_email :
  reasoned table →
  all_tasks cfg can_create_feature o table email_html subject triggering_user_email =
    Ok (rendered_task cfg can_create_feature o email_html subject triggering_user_email
          <$> sorted_items table).
Proof.
  intros Hr. unfold all_tasks. apply result_map_Ok.
  intros [addr reasons] Hin. simpl. apply convert_reasons_to_task_Ok.
  apply elem_of_sorted_items in Hin. intros ->. by apply (Hr addr).
Qed.

Lemma rendered_task_to o email_html subject triggering_user_email
    (items : list (string * list string)) :
  task_to <$> (rendered_task cfg can_create_feature o email_html subject
                 triggering_user_email <$> items) = items.*1.
Proof. rewrite <- list_fmap_compose. by apply list_fmap_ext. Qed.

Lemma rendered_task_ext o1 o2 email_html subject triggering_user_email addr l1 l2 :
  (∀ r, r ∈ l1 ↔ r ∈ l2) →
  rendered_task cfg can_create_feature o1 email_html subject triggering_user_email (addr, l1) =
  rendered_task cfg can_create_feature o2 email_html subject triggering_user_email (addr, l2).
Proof.
  intros H. unfold rendered_task, footer_lines. simpl.
  by rewrite (sorted_set_ext o1 o2 l1 l2 H).
Qed.

End RenderingProperties.

(** C1.  Whatever the sequence of accumulations, every recipient of the
    table it builds has at least one reason: task conversion succeeds for
    each of them, the builder returns one task per recipient without the
    assertion failing, and an address that no accumulation covers gets no
    task. *)
Theorem every_recipient_has_a_reason (cfg : settings) (can_create_feature : string → bool)
    (o : set_order) (seq : list contribution) (email_html subject : string)
    (triggering_user_email : option string) :
  let table := accumulate_all ∅ seq in
  (∀ addr reasons, (addr, reasons) ∈ sorted_items table →
     reasons ≠ [] ∧
     ∃ task, convert_reasons_to_task cfg can_create_feature o addr reasons email_html
               subject triggering_user_email = Ok task) ∧
  (∃ tasks, all_tasks cfg can_create_feature o table email_html subject
              triggering_user_email = Ok tasks ∧
            task_to <$> tasks = (sorted_items table).*1) ∧
  (∀ addr, addr ∈ (sorted_items table).*1 ↔ ∃ c : contribution, c ∈ seq ∧ addr ∈ c.1).
Proof.
  intros table.
  assert (Hr : reasoned table) by apply accumulate_all_empty_reasoned.
  split; [|split].
  - intros addr reasons Hin. apply elem_of_sorted_items in Hin.
    assert (reasons ≠ []) by (intros ->; by apply (Hr addr)).
    split; [done|]. eexists. by apply convert_reasons_to_task_Ok.
  - eexists. split; [by apply all_tasks_Ok|]. apply rendered_task_to.
  - intros addr. rewrite elem_of_sorted_items_fst. apply accumulate_all_is_Some.
Qed.

(** C2.  [accumulate_reasons table addresses reason] appends [reason] to
    the entry of each listed address, once per occurrence in the list,
    starting from the empty list where the table had no entry (so an
    absent address listed once is bound to [[reason]]); the entries of the
    other addresses are unchanged. *)
Theorem accumulate_reasons_contract (table : gmap string (list string))
    (addresses : list string) (reason addr : string) :
  accumulate_reasons table addresses reason !! addr =
    if decide (addr ∈ addresses)
    then Some (default [] (table !! addr) ++ replicate (occurrences addr addresses) reason)
    else table !! addr.
Proof.
  rewrite accumulate_reasons_lookup. case_decide as Hin.
  - destruct (occurrences addr addresses) eqn:E; [|done].
    by apply occurrences_zero in E.
  - apply occurrences_zero in Hin. by rewrite Hin.
Qed.

(** The accumulations of the unit test of [accumulate_reasons]. *)
Example accumulate_reasons_twice :
  sorted_items
    (accumulate_reasons
       (accumulate_reasons (accumulate_reasons ∅ [] "a reason")
          ["owner_1@example.com"] "a reason")
       ["owner_1@example.com"; "watcher_1@example.com"] "another reason")
  = [("owner_1@example.com", ["a reason"; "another reason"]);
     ("watcher_1@example.com", ["another reason"])].
Proof. vm_compute. reflexivity. Qed.

(** An address listed twice receives the reason twice. *)
Example accumulate_reasons_repeated_address :
  accumulate_reasons ∅ ["a@example.com"; "a@example.com"] "a reason" !! "a@example.com"
  = Some ["a reason"; "a reason"].
Proof. vm_compute. reflexivity. Qed.

(** No reason, no task: the assertion fails. *)
Example convert_reasons_to_task_no_reasons :
  convert_reasons_to_task sample_settings chromium_or_google first_occurrence_order
    "addr" [] "html" "subject" (Some "triggerer")
  = Raise (AssertionError "We are emailing someone without any reason").
Proof. reflexivity. Qed.

(** Strings are ordered by code point: capitals come before small letters. *)
Example sorted_set_code_points :
  sorted_set reverse_order ["b"; "a"; "b"; "Z"] = ["Z"; "a"; "b"].
Proof. vm_compute. reflexivity. Qed.

(** [PyStr.join] is the library's [concat]. *)
Lemma join_concat (sep : string) (parts : list string) :
  PyStr.join sep parts = String.concat sep parts.
Proof. induction parts as [|p [|q parts] IH]; [done|done|]. simpl in *. by rewrite IH. Qed.

(** C3.  For a non-empty reason list the task is emitted, and the HTML of
    the task is the body, an empty line, and the footer: the line
    [<p>You are receiving this email because:</p>], the line [<ul>], one
    line [<li>reason</li>] for each distinct reason of the list, in strictly
    ascending string order, the line [</ul>], and the unsubscribe link to
    the settings page of the site.  Any reason list with the same set of
    reasons, under any iteration order of the set, renders the same task. *)
Theorem footer_lists_sorted_distinct_reasons (cfg : settings)
    (can_create_feature : string → bool) (o : set_order) (addr : string)
    (reasons : list string) (email_html subject : string)
    (triggering_user_email : option string) :
  reasons ≠ [] →
  let nl := String "010" EmptyString in
  let dq := String "034" EmptyString in
  ∃ distinct_reasons,
    StronglySorted (strict String.le) distinct_reasons ∧
    NoDup distinct_reasons ∧
    (∀ r, r ∈ distinct_reasons ↔ r ∈ reasons) ∧
    convert_reasons_to_task cfg can_create_feature o addr reasons email_html subject
        triggering_user_email =
      Ok (NotificationTask addr subject
            (if can_create_feature addr then triggering_user_email else None)
            (email_html +:+ nl +:+ nl +:+
               String.concat nl
                 (["<p>You are receiving this email because:</p>"; "<ul>"]
                    ++ ((λ r, "<li>" +:+ r +:+ "</li>") <$> distinct_reasons)
                    ++ ["</ul>";
                        "<p><a href=" +:+ dq +:+ SITE_URL cfg +:+ "settings" +:+ dq
                          +:+ ">Unsubscribe</a></p>"]))) ∧
    (∀ o' reasons', (∀ r, r ∈ reasons' ↔ r ∈ reasons) →
       convert_reasons_to_task cfg can_create_feature o' addr reasons' email_html subject
           triggering_user_email =
       convert_reasons_to_task cfg can_create_feature o addr reasons email_html subject
           triggering_user_email).
Proof.
  intros Hne nl dq. exists (sorted_set o reasons). split; [|split; [|split; [|split]]].
  - apply sorted_set_strict.
  - apply sorted_set_NoDup.
  - apply sorted_set_elem_of.
  - rewrite convert_reasons_to_task_Ok by done. unfold rendered_task.
    by rewrite join_concat.
  - intros o' reasons' Hext.
    assert (reasons' ≠ []).
    { intros ->. destruct reasons as [|r rs]; [done|].
      eapply not_elem_of_nil, Hext. left. }
    rewrite !convert_reasons_to_task_Ok by done. f_equal.
    by apply rendered_task_ext.
Qed.

Lemma footer_lists_sorted_distinct_reasons_witness :
  let nl := String "010" EmptyString in
  let dq := String "034" EmptyString in
  ∃ distinct_reasons,
    StronglySorted (strict String.le) distinct_reasons ∧
    (∀ r, r ∈ distinct_reasons ↔ r ∈ ["reason 2"; "reason 1"; "reason 2"]) ∧
    convert_reasons_to_task sample_settings chromium_or_google first_occurrence_order
        "addr" ["reason 2"; "reason 1"; "reason 2"] "html" "subject"
        (Some "triggerer@example.com") =
      Ok (NotificationTask "addr" "subject" None
            ("html" +:+ nl +:+ nl +:+
               String.concat nl
                 (["<p>You are receiving this email because:</p>"; "<ul>"]
                    ++ ((λ r, "<li>" +:+ r +:+ "</li>") <$> distinct_reasons)
                    ++ ["</ul>";
                        "<p><a href=" +:+ dq +:+ "https://chromestatus.com/" +:+ "settings"
                          +:+ dq +:+ ">Unsubscribe</a></p>"]))).
Proof.
  destruct (footer_lists_sorted_distinct_reasons sample_settings chromium_or_google
              first_occurrence_order "addr" ["reason 2"; "reason 1"; "reason 2"]
              "html" "subject" (Some "triggerer@example.com"))
    as (ds & Hsorted & _ & Helem & Heq & _); [discriminate|].
  exists ds. split; [exact Hsorted|]. split; [exact Helem | exact Heq].
Defined.

(** The task of the witness, written out: the two distinct reasons, in
    order. *)
Example convert_reasons_to_task_footer :
  let nl := PyStr.newline in
  convert_reasons_to_task sample_settings chromium_or_google first_occurrence_order
    "addr" ["reason 2"; "reason 1"; "reason 2"] "html" "subject"
    (Some "triggerer@example.com")
  = Ok (NotificationTask "addr" "subject" None
          ("html" +:+ nl +:+ nl
             +:+ "<p>You are receiving this email because:</p>" +:+ nl
             +:+ "<ul>" +:+ nl
             +:+ "<li>reason 1</li>" +:+ nl
             +:+ "<li>reason 2</li>" +:+ nl
             +:+ "</ul>" +:+ nl
             +:+ "<p><a href=" +:+ PyStr.dquote +:+ "https://chromestatus.com/settings"
             +:+ PyStr.dquote +:+ ">Unsubscribe</a></p>")).
Proof. vm_compute. reflexivity. Qed.

(** ** Running the task builder *)

Section Running.

Variable cfg : settings.
Variable MAX_LOG_LINE : nat.
Variable can_create_feature : string → bool.
Variable o : set_order.
Variable IWA : Z.
Variable STAGE_TYPES_SHIPPING : gmap Z (option Z).
Variable format_email_body : string → FeatureEntry → list Change → string.

Lemma world_eta w : World (db w) (log w ++ []) (task_queue w) = w.
Proof. destruct w. simpl. by rewrite app_nil_r. Qed.

Lemma for_fold_components names table w :
  for_fold add_component_receivers table names w =
    (Ok (accumulate_all table (component_contributions (db w) names)),
     World (db w) (log w ++ component_warnings (db w) names) (task_queue w)).
Proof.
  revert table w. induction names as [|n names IH]; intros table w.
  - simpl. unfold ret. by rewrite world_eta.
  - destruct w as [d lg q].
    change (component_contributions d (n :: names))
      with (match BlinkComponent_get_by_name d !! n with
            | None => []
            | Some component =>
                [(fo_email <$> owners component, "You are an owner of this feature's component");
                 (fo_email <$> subscribers component, "You subscribe to this feature's component")]
            end ++ component_contributions d names).
    change (component_warnings d (n :: names))
      with (match BlinkComponent_get_by_name d !! n with
            | None => [LogEntry WARNING (component_not_found n) []]
            | Some _ => []
            end ++ component_warnings d names).
    simpl. unfold bind, add_component_receivers, bind, get_db. simpl.
    destruct (BlinkComponent_get_by_name d !! n) as [component|]; simpl.
    + rewrite IH. simpl. done.
    + rewrite IH. simpl. by rewrite <- app_assoc.
Qed.

Lemma get_feature_starrers_run feature_id w :
  get_feature_starrers feature_id w =
    (Ok (filter (λ up, notify_as_starrer up = true ∧ bounced up = false)
           (UserPref_get_prefs_for_emails (db w) (fs_email <$> starring (db w) feature_id))),
     World (db w) (log w ++ starrer_log (db w) feature_id) (task_queue w)).
Proof.
  destruct w as [d lg q]. unfold get_feature_starrers, bind, get_db, logging, ret. simpl.
  by rewrite <- app_assoc.
Qed.

Lemma accumulate_all_rules table (rule_results : list (string * list string)) :
  accumulate_all table (rule_contributions rule_results) =
    foldl (λ table item, accumulate_reasons table item.2 item.1) table rule_results.
Proof. unfold accumulate_all, rule_contributions. by rewrite foldl_fmap. Qed.

Lemma make_feature_changes_email_run fe is_update changes w :
  make_feature_changes_email cfg can_create_feature o IWA STAGE_TYPES_SHIPPING
      format_email_body fe is_update changes w =
    (result_bind
       (apply_subscription_rules IWA STAGE_TYPES_SHIPPING (db w) fe (default [] changes))
       (λ rule_results,
          all_tasks cfg can_create_feature o
            (accumulate_all ∅ (category_contributions (db w) fe rule_results))
            (format_email_body (change_template is_update) fe (default [] changes))
            (change_subject fe is_update) (change_triggering_user fe is_update)),
     World (db w)
       (log w ++ component_warnings (db w) (blink_components fe)
              ++ starrer_log (db w) (fe_id fe))
       (task_queue w)).
Proof.
  unfold make_feature_changes_email.
  unfold bind at 1. unfold get_db at 1.
  assert (Htable : ∀ rule_results,
    foldl (λ table item, accumulate_reasons table item.2 item.1)
      (accumulate_reasons
         (accumulate_all
            (accumulate_reasons (add_core_receivers fe ∅) (watcher_emails (db w))
               "You are watching all feature changes")
            (component_contributions (db w) (blink_components fe)))
         (starrer_emails (db w) (fe_id fe)) "You starred this feature")
      rule_results
    = accumulate_all ∅ (category_contributions (db w) fe rule_results)).
  { intros rule_results. unfold category_contributions. rewrite !accumulate_all_app.
    by rewrite accumulate_all_rules. }
  unfold watcher_emails, starrer_emails in Htable.
  destruct is_update; cbv beta iota zeta; unfold bind; rewrite for_fold_components;
    cbv beta iota zeta; rewrite get_feature_starrers_run;
    unfold lift; cbn [db log task_queue]; rewrite <- app_assoc;
    (destruct (apply_subscription_rules IWA STAGE_TYPES_SHIPPING (db w) fe
                 (default [] changes)) as [rule_results|e];
       [rewrite Htable|]; reflexivity).
Qed.

Lemma for_each_send_email_task email_tasks w :
  for_each (send_email_task cfg MAX_LOG_LINE) email_tasks w =
    (Ok tt,
     if SEND_EMAIL cfg then
       World (db w) (log w)
         (task_queue w ++ ((λ t, ("/tasks/outbound-email", t)) <$> email_tasks))
     else
       World (db w) (log w ++ (would_send_entry MAX_LOG_LINE <$> email_tasks))
         (task_queue w)).
Proof.
  unfold send_email_task. destruct (SEND_EMAIL cfg).
  - revert w. induction email_tasks as [|t ts IH]; intros [d lg q]; simpl.
    + unfold ret. by rewrite app_nil_r.
    + unfold bind at 1. unfold enqueue_task at 1. cbn [db log task_queue].
      rewrite IH. cbn [db log task_queue]. by rewrite <- app_assoc.
  - revert w. induction email_tasks as [|t ts IH]; intros [d lg q]; simpl.
    + unfold ret. by rewrite app_nil_r.
    + unfold bind at 1. unfold logging at 1. cbn [db log task_queue].
      rewrite IH. cbn [db log task_queue]. by rewrite <- app_assoc.
Qed.

Lemma send_emails_run email_tasks w :
  send_emails cfg MAX_LOG_LINE email_tasks w = (Ok tt, sent cfg MAX_LOG_LINE email_tasks w).
Proof.
  unfold send_emails, sent, bind, logging. rewrite for_each_send_email_task.
  cbn [db log task_queue]. destruct (SEND_EMAIL cfg); [done|].
  by rewrite <- app_assoc.
Qed.

End Running.

(** ** The subscription rules *)

Section Rules.

Variable IWA : Z.
Variable STAGE_TYPES_SHIPPING : gmap Z (option Z).

Lemma dict_get_set key value results : dict_get key (dict_set key value results) = Some value.
Proof.
  induction results as [|[k v] results IH]; simpl.
  - by rewrite decide_True.
  - destruct (decide (k = key)); simpl.
    + by rewrite decide_True.
    + by rewrite decide_False.
Qed.

(** The changed field names meet the milestone fields exactly when one
    change names [shipped_android_milestone]. *)
Lemma milestone_field_changed (changes : list Change) :
  negb (forallb
          (λ f, bool_decide (f ∉ (list_to_set (prop_name <$> changes) : gset string)))
          ["shipped_android_milestone"])
    = bool_decide ("shipped_android_milestone" ∈ prop_name <$> changes).
Proof.
  simpl. rewrite andb_true_r.
  destruct (decide ("shipped_android_milestone" ∈ prop_name <$> changes)) as [Hin|Hin].
  - rewrite (bool_decide_eq_true_2 _ Hin), bool_decide_eq_false_2; [done|].
    intros Hno. apply Hno. by apply elem_of_list_to_set.
  - rewrite (bool_decide_eq_false_2 _ Hin), bool_decide_eq_true_2; [done|].
    intros Hyes. apply Hin. by apply elem_of_list_to_set in Hyes.
Qed.

Lemma apply_subscription_rules_Ok d fe changes :
  is_Some (STAGE_TYPES_SHIPPING !! feature_type fe) →
  ∃ rule_results, apply_subscription_rules IWA STAGE_TYPES_SHIPPING d fe changes = Ok rule_results.
Proof. intros [entry Hentry]. unfold apply_subscription_rules. rewrite Hentry. eauto. Qed.

Lemma apply_subscription_rules_IWA d fe changes rule_results :
  category fe = IWA →
  apply_subscription_rules IWA STAGE_TYPES_SHIPPING d fe changes = Ok rule_results →
  dict_get IWA_RULE_REASON rule_results = Some IWA_RULE_ADDRS.
Proof.
  intros Hcat. unfold apply_subscription_rules.
  destruct (STAGE_TYPES_SHIPPING !! feature_type fe) as [entry|]; [|done].
  rewrite decide_True by done. intros [= <-].
  repeat match goal with
         | |- context [match ?x with _ => _ end] => destruct x
         end;
    reflexivity.
Qed.

End Rules.

(** ** The tasks of a feature change *)

Section FeatureChanges.

Variable cfg : settings.
Variable can_create_feature : string → bool.
Variable IWA : Z.
Variable STAGE_TYPES_SHIPPING : gmap Z (option Z).
Variable format_email_body : string → FeatureEntry → list Change → string.

Lemma dict_get_elem_of key value (results : list (string * list string)) :
  dict_get key results = Some value → (value, key) ∈ rule_contributions results.
Proof.
  unfold rule_contributions. induction results as [|[k v] results IH]; simpl; [done|].
  destruct (decide (k = key)) as [->|].
  - intros [= ->]. left.
  - intros H. right. by apply IH.
Qed.

(** The tasks are the rendered items of the table of all contributions. *)
Lemma make_feature_changes_email_tasks o fe is_update changes rule_results w :
  apply_subscription_rules IWA STAGE_TYPES_SHIPPING (db w) fe (default [] changes)
    = Ok rule_results →
  make_feature_changes_email cfg can_create_feature o IWA STAGE_TYPES_SHIPPING
      format_email_body fe is_update changes w =
    (Ok (rendered_task cfg can_create_feature o
           (format_email_body (change_template is_update) fe (default [] changes))
           (change_subject fe is_update) (change_triggering_user fe is_update)
           <$> sorted_items (accumulate_all ∅ (category_contributions (db w) fe rule_results))),
     World (db w)
       (log w ++ component_warnings (db w) (blink_components fe)
              ++ starrer_log (db w) (fe_id fe))
       (task_queue w)).
Proof.
  intros Hrules. rewrite make_feature_changes_email_run, Hrules. unfold result_bind.
  rewrite all_tasks_Ok; [done|]. apply accumulate_all_empty_reasoned.
Qed.

(** An item of the table carries the reasons of its address. *)
Lemma sorted_items_reasons seq addr reasons :
  (addr, reasons) ∈ sorted_items (accumulate_all ∅ seq) ↔
    reasons = reasons_for seq addr ∧ reasons ≠ [].
Proof.
  rewrite elem_of_sorted_items, accumulate_all_lookup.
  destruct (reasons_for seq addr) as [|r rs]; simpl.
  - split; [done|]. by intros [-> ?].
  - split; [by intros [= <-] | by intros [-> _]].
Qed.

(** C4.  A feature change yields one task per distinct address of the
    category contributions (owners, editors, CC, devrel, watchers, component
    owners and subscribers, starrers, matching subscription rules), in
    strictly ascending order of address, and the task of an address is
    rendered from exactly the reasons that the contributions give it. *)
Theorem one_task_per_recipient_in_address_order (o : set_order) (fe : FeatureEntry)
    (is_update : bool) (changes : option (list Change)) (w : world) :
  is_Some (STAGE_TYPES_SHIPPING !! feature_type fe) →
  ∃ rule_results tasks w',
    apply_subscription_rules IWA STAGE_TYPES_SHIPPING (db w) fe (default [] changes)
      = Ok rule_results ∧
    make_feature_changes_email cfg can_create_feature o IWA STAGE_TYPES_SHIPPING
      format_email_body fe is_update changes w = (Ok tasks, w') ∧
    let contributions := category_contributions (db w) fe rule_results in
    StronglySorted (strict String.le) (task_to <$> tasks) ∧
    NoDup (task_to <$> tasks) ∧
    (∀ addr, addr ∈ task_to <$> tasks ↔ ∃ c : contribution, c ∈ contributions ∧ addr ∈ c.1) ∧
    (∀ task, task ∈ tasks →
       reasons_for contributions (task_to task) ≠ [] ∧
       convert_reasons_to_task cfg can_create_feature o (task_to task)
         (reasons_for contributions (task_to task))
         (format_email_body (change_template is_update) fe (default [] changes))
         (change_subject fe is_update) (change_triggering_user fe is_update) = Ok task).
Proof.
  intros Hft.
  destruct (apply_subscription_rules_Ok IWA STAGE_TYPES_SHIPPING (db w) fe
              (default [] changes) Hft) as [rule_results Hrules].
  eexists rule_results, _, _. split; [done|].
  split; [by apply make_feature_changes_email_tasks|].
  cbv zeta. rewrite rendered_task_to. split; [|split; [|split]].
  - apply sorted_items_keys.
  - apply sorted_items_NoDup_fst.
  - intros addr. rewrite elem_of_sorted_items_fst. apply accumulate_all_is_Some.
  - intros task Hin. apply list_elem_of_fmap in Hin as ([addr reasons] & -> & Hin).
    apply sorted_items_reasons in Hin as [-> Hne]. simpl. split; [done|].
    by apply convert_reasons_to_task_Ok.
Qed.

(** C6.  For a feature of category IWA the rules map the IWA reason to
    the IWA addresses, and the tasks of the feature change include one to
    each IWA address whose reasons, and whose footer, hold the IWA reason. *)
Theorem iwa_feature_notifies_iwa_list (o : set_order) (fe : FeatureEntry)
    (is_update : bool) (changes : option (list Change)) (w : world) :
  category fe = IWA →
  is_Some (STAGE_TYPES_SHIPPING !! feature_type fe) →
  ∃ rule_results tasks w',
    apply_subscription_rules IWA STAGE_TYPES_SHIPPING (db w) fe (default [] changes)
      = Ok rule_results ∧
    dict_get IWA_RULE_REASON rule_results = Some IWA_RULE_ADDRS ∧
    make_feature_changes_email cfg can_create_feature o IWA STAGE_TYPES_SHIPPING
      format_email_body fe is_update changes w = (Ok tasks, w') ∧
    ∀ addr, addr ∈ IWA_RULE_ADDRS →
      ∃ task reasons,
        task ∈ tasks ∧ task_to task = addr ∧
        convert_reasons_to_task cfg can_create_feature o addr reasons
          (format_email_body (change_template is_update) fe (default [] changes))
          (change_subject fe is_update) (change_triggering_user fe is_update) = Ok task ∧
        IWA_RULE_REASON ∈ reasons ∧
        reason_item IWA_RULE_REASON ∈ footer_lines cfg o reasons.
Proof.
  intros Hcat Hft.
  destruct (apply_subscription_rules_Ok IWA STAGE_TYPES_SHIPPING (db w) fe
              (default [] changes) Hft) as [rule_results Hrules].
  pose proof (apply_subscription_rules_IWA _ _ _ _ _ _ Hcat Hrules) as Hget.
  eexists rule_results, _, _. split; [done|]. split; [done|].
  split; [by apply make_feature_changes_email_tasks|].
  intros addr Haddr.
  set (seq := category_contributions (db w) fe rule_results).
  assert (Hreason : IWA_RULE_REASON ∈ reasons_for seq addr).
  { apply reasons_for_elem_of. exists (IWA_RULE_ADDRS, IWA_RULE_REASON).
    split; [|done]. unfold seq, category_contributions.
    rewrite !elem_of_app. right. right. right. by apply dict_get_elem_of. }
  assert (Hne : reasons_for seq addr ≠ []).
  { intros Heq. rewrite Heq in Hreason. by apply not_elem_of_nil in Hreason. }
  eexists _, (reasons_for seq addr). split; [|split; [|split; [|split]]].
  - apply list_elem_of_fmap. exists (addr, reasons_for seq addr). split; [reflexivity|].
    by apply sorted_items_reasons.
  - done.
  - by apply convert_reasons_to_task_Ok.
  - done.
  - unfold footer_lines. rewrite !elem_of_app. right. left.
    apply list_elem_of_fmap. exists IWA_RULE_REASON. split; [done|].
    by apply sorted_set_elem_of.
Qed.

End FeatureChanges.

(** C5.  When the first shipping stage of the feature has an android
    milestone (a non-zero [android_first]) and no webview milestone
    ([webview_first] is [None] or [0]), the rules bind the webview reason
    to the webview addresses if a change names
    [shipped_android_milestone], and leave the webview reason out of the
    result otherwise. *)
Theorem webview_rule_follows_android_change (IWA : Z)
    (STAGE_TYPES_SHIPPING : gmap Z (option Z)) (d : datastore) (fe : FeatureEntry)
    (changes : list Change) (entry : option Z) (stage : Stage) (rest : list Stage)
    (ms : MilestoneSet) :
  STAGE_TYPES_SHIPPING !! feature_type fe = Some entry →
  default [] (get_feature_stages d (fe_id fe) !! or_int entry 0) = stage :: rest →
  milestones stage = Some ms →
  truthy_int (android_first ms) = true →
  truthy_int (webview_first ms) = false →
  ∃ results,
    apply_subscription_rules IWA STAGE_TYPES_SHIPPING d fe changes = Ok results ∧
    dict_get WEBVIEW_RULE_REASON results =
      if decide ("shipped_android_milestone" ∈ prop_name <$> changes)
      then Some WEBVIEW_RULE_ADDRS else None.
Proof.
  intros Hentry Hstages Hms Handroid Hwebview. unfold apply_subscription_rules.
  rewrite Hentry, Hstages, Hms, Handroid, Hwebview, milestone_field_changed.
  eexists. split; [reflexivity|]. cbn [andb negb].
  destruct (decide ("shipped_android_milestone" ∈ prop_name <$> changes)) as [Hin|Hin].
  - rewrite (bool_decide_eq_true_2 _ Hin). apply dict_get_set.
  - rewrite (bool_decide_eq_false_2 _ Hin). by destruct (decide (category fe = IWA)).
Qed.

Lemma webview_rule_follows_android_change_witness :
  ∃ results,
    apply_subscription_rules sample_IWA sample_STAGE_TYPES_SHIPPING sample_datastore
      sample_feature sample_changes = Ok results ∧
    dict_get WEBVIEW_RULE_REASON results =
      if decide ("shipped_android_milestone" ∈ prop_name <$> sample_changes)
      then Some WEBVIEW_RULE_ADDRS else None.
Proof.
  apply (webview_rule_follows_android_change sample_IWA sample_STAGE_TYPES_SHIPPING
           sample_datastore sample_feature sample_changes (Some 160%Z)
           sample_ship_stage [] {| desktop_first := None; android_first := Some 88%Z;
                                   webview_first := None |});
    reflexivity.
Defined.

(** The rule tests of the module: an IWA feature with an android
    milestone, and a change that is not relevant. *)
Example apply_subscription_rules_both :
  apply_subscription_rules sample_IWA sample_STAGE_TYPES_SHIPPING sample_datastore
    sample_iwa_feature sample_changes
  = Ok [(IWA_RULE_REASON, IWA_RULE_ADDRS); (WEBVIEW_RULE_REASON, WEBVIEW_RULE_ADDRS)].
Proof. vm_compute. reflexivity. Qed.

Example apply_subscription_rules_irrelevant_change :
  apply_subscription_rules sample_IWA sample_STAGE_TYPES_SHIPPING sample_datastore
    sample_feature [ {| prop_name := "some_other_field"; old_val := None; new_val := None |} ]
  = Ok [].
Proof. vm_compute. reflexivity. Qed.

(** A feature type outside [STAGE_TYPES_SHIPPING] is a [KeyError]. *)
Example apply_subscription_rules_unknown_feature_type :
  apply_subscription_rules sample_IWA ∅ sample_datastore sample_feature sample_changes
  = Raise KeyError.
Proof. vm_compute. reflexivity. Qed.

(** C7.  Two runs on the same feature entry, change list and datastore
    return the same result (the same tasks in the same order), whatever
    order the sets of reasons are iterated in during each run and whatever
    the first run logged; a run leaves the datastore and the task queue as
    they were. *)
Theorem same_inputs_same_tasks (cfg : settings) (can_create_feature : string → bool)
    (o1 o2 : set_order) (IWA : Z) (STAGE_TYPES_SHIPPING : gmap Z (option Z))
    (format_email_body : string → FeatureEntry → list Change → string)
    (fe : FeatureEntry) (is_update : bool) (changes : option (list Change)) (w : world) :
  let first := make_feature_changes_email cfg can_create_feature o1 IWA
                 STAGE_TYPES_SHIPPING format_email_body fe is_update changes w in
  let second := make_feature_changes_email cfg can_create_feature o2 IWA
                  STAGE_TYPES_SHIPPING format_email_body fe is_update changes first.2 in
  first.1 = second.1 ∧
  db first.2 = db w ∧ task_queue first.2 = task_queue w ∧
  db second.2 = db w ∧ task_queue second.2 = task_queue w.
Proof.
  cbv zeta. rewrite !make_feature_changes_email_run. cbn [fst snd db task_queue].
  split; [|done].
  destruct (apply_subscription_rules IWA STAGE_TYPES_SHIPPING (db w) fe (default [] changes))
    as [rule_results|e]; [|done].
  unfold result_bind. rewrite !all_tasks_Ok by apply accumulate_all_empty_reasoned.
  f_equal. apply list_fmap_ext. intros _ [addr reasons] _.
  by apply rendered_task_ext.
Qed.

(** ** Missing components *)

Lemma component_contributions_cons d n names :
  component_contributions d (n :: names) =
    component_contributions d [n] ++ component_contributions d names.
Proof. unfold component_contributions. simpl. by rewrite app_nil_r. Qed.

Lemma component_contributions_missing d n :
  BlinkComponent_get_by_name d !! n = None → component_contributions d [n] = [].
Proof. intros H. unfold component_contributions. simpl. by rewrite H. Qed.

Lemma component_contributions_without d n names :
  BlinkComponent_get_by_name d !! n = None →
  component_contributions d (filter (λ n', n' ≠ n) names) = component_contributions d names.
Proof.
  intros Hnone. induction names as [|n' names IH]; [done|].
  rewrite filter_cons, (component_contributions_cons d n' names).
  case_decide as Hne.
  - by rewrite component_contributions_cons, IH.
  - subst n'.
    by rewrite component_contributions_missing, IH.
Qed.

Lemma component_warnings_elem_of d n names :
  n ∈ names → BlinkComponent_get_by_name d !! n = None →
  LogEntry WARNING (component_not_found n) [] ∈ component_warnings d names.
Proof.
  intros Hin Hnone. unfold component_warnings. apply list_elem_of_bind.
  exists n. split; [|done]. rewrite Hnone. left.
Qed.

Lemma component_contributions_elem_of d names other component :
  other ∈ names → BlinkComponent_get_by_name d !! other = Some component →
  (fo_email <$> owners component, "You are an owner of this feature's component")
    ∈ component_contributions d names ∧
  (fo_email <$> subscribers component, "You subscribe to this feature's component")
    ∈ component_contributions d names.
Proof.
  intros Hin Hsome. unfold component_contributions.
  split; apply list_elem_of_bind; exists other; (split; [|done]); rewrite Hsome.
  - left.
  - right. left.
Qed.

(** C8.  When a component name of the feature has no [BlinkComponent]
    entity, the builder still returns its tasks and changes nothing but the
    log, where it leaves the warning for that name.  The name is skipped:
    the recipients are the addresses of the contributions of the entry
    without that name, each with exactly the reasons that those
    contributions give it.  The other components are still accumulated,
    wherever they stand in the list: every owner and every subscriber of a
    component that exists is a recipient, with the reason of its role. *)
Theorem missing_component_is_logged_and_skipped (cfg : settings)
    (can_create_feature : string → bool) (o : set_order) (IWA : Z)
    (STAGE_TYPES_SHIPPING : gmap Z (option Z))
    (format_email_body : string → FeatureEntry → list Change → string)
    (fe : FeatureEntry) (is_update : bool) (changes : option (list Change)) (w : world)
    (component_name : string) :
  component_name ∈ blink_components fe →
  BlinkComponent_get_by_name (db w) !! component_name = None →
  is_Some (STAGE_TYPES_SHIPPING !! feature_type fe) →
  let dq := String "034" EmptyString in
  ∃ rule_results tasks logged,
    apply_subscription_rules IWA STAGE_TYPES_SHIPPING (db w) fe (default [] changes)
      = Ok rule_results ∧
    make_feature_changes_email cfg can_create_feature o IWA STAGE_TYPES_SHIPPING
      format_email_body fe is_update changes w
      = (Ok tasks, World (db w) (log w ++ logged) (task_queue w)) ∧
    LogEntry WARNING
      ("Blink component " +:+ dq +:+ component_name +:+ dq
         +:+ " not found.Not sending email to subscribers") [] ∈ logged ∧
    let contributions :=
      category_contributions (db w) (without_component component_name fe) rule_results in
    StronglySorted (strict String.le) (task_to <$> tasks) ∧
    (∀ addr, addr ∈ task_to <$> tasks ↔ ∃ c : contribution, c ∈ contributions ∧ addr ∈ c.1) ∧
    (∀ task, task ∈ tasks →
       reasons_for contributions (task_to task) ≠ [] ∧
       convert_reasons_to_task cfg can_create_feature o (task_to task)
         (reasons_for contributions (task_to task))
         (format_email_body (change_template is_update) fe (default [] changes))
         (change_subject fe is_update) (change_triggering_user fe is_update) = Ok task) ∧
    (∀ other component,
       other ∈ blink_components fe →
       BlinkComponent_get_by_name (db w) !! other = Some component →
       (∀ addr, addr ∈ fo_email <$> owners component →
          addr ∈ task_to <$> tasks ∧
          "You are an owner of this feature's component" ∈ reasons_for contributions addr) ∧
       (∀ addr, addr ∈ fo_email <$> subscribers component →
          addr ∈ task_to <$> tasks ∧
          "You subscribe to this feature's component" ∈ reasons_for contributions addr)).
Proof.
  intros Hin Hnone Hft dq.
  destruct (apply_subscription_rules_Ok IWA STAGE_TYPES_SHIPPING (db w) fe
              (default [] changes) Hft) as [rule_results Hrules].
  set (contributions :=
         category_contributions (db w) (without_component component_name fe) rule_results).
  assert (Hsame : category_contributions (db w) fe rule_results = contributions).
  { unfold contributions, category_contributions, without_component.
    cbn [owner_emails editor_emails cc_emails devrel_emails blink_components fe_id].
    by rewrite component_contributions_without. }
  assert (Hrecipients : ∀ addr,
            addr ∈ (sorted_items (accumulate_all ∅ contributions)).*1 ↔
              ∃ c : contribution, c ∈ contributions ∧ addr ∈ c.1).
  { intros addr. rewrite elem_of_sorted_items_fst. apply accumulate_all_is_Some. }
  eexists rule_results, _, _. split; [done|].
  split; [rewrite (make_feature_changes_email_tasks _ _ _ _ _ _ _ _ _ rule_results) by done;
          reflexivity|].
  split; [rewrite elem_of_app; left; by apply component_warnings_elem_of|].
  cbv zeta. rewrite Hsame, rendered_task_to. fold contributions.
  split; [apply sorted_items_keys|]. split; [exact Hrecipients|]. split.
  - intros task Htask. apply list_elem_of_fmap in Htask as ([addr reasons] & -> & Htask).
    apply sorted_items_reasons in Htask as [-> Hne]. simpl. split; [done|].
    by apply convert_reasons_to_task_Ok.
  - intros other component Hother Hsome.
    destruct (component_contributions_elem_of (db w) (blink_components fe) other component
                Hother Hsome) as [Howners Hsubscribers].
    assert (Hlisted : ∀ c, c ∈ component_contributions (db w) (blink_components fe) →
                           c ∈ contributions).
    { intros c Hc. rewrite <- Hsame. unfold category_contributions.
      rewrite !elem_of_app. right. by left. }
    split; intros addr Haddr.
    + split.
      * apply Hrecipients. eexists. split; [apply Hlisted, Howners | exact Haddr].
      * apply reasons_for_elem_of. eexists. split; [apply Hlisted, Howners|]. done.
    + split.
      * apply Hrecipients. eexists. split; [apply Hlisted, Hsubscribers | exact Haddr].
      * apply reasons_for_elem_of. eexists. split; [apply Hlisted, Hsubscribers|]. done.
Qed.

Lemma missing_component_is_logged_and_skipped_witness :
  ∃ tasks logged,
    make_feature_changes_email sample_settings chromium_or_google first_occurrence_order
      sample_IWA sample_STAGE_TYPES_SHIPPING sample_format_email_body
      sample_feature_missing_first true (Some sample_changes) sample_world
      = (Ok tasks, World sample_datastore ([] ++ logged) []) ∧
    LogEntry WARNING
      ("Blink component " +:+ String "034" EmptyString +:+ "Gone" +:+ String "034" EmptyString
         +:+ " not found.Not sending email to subscribers") [] ∈ logged ∧
    "owner_1@example.com" ∈ task_to <$> tasks.
Proof.
  destruct (missing_component_is_logged_and_skipped sample_settings chromium_or_google
              first_occurrence_order sample_IWA sample_STAGE_TYPES_SHIPPING
              sample_format_email_body sample_feature_missing_first true
              (Some sample_changes) sample_world "Gone")
    as (rule_results & tasks & logged & _ & Hrun & Hlogged & _ & _ & _ & Hothers).
  - left.
  - reflexivity.
  - eexists. reflexivity.
  - exists tasks, logged. split; [exact Hrun|]. split; [exact Hlogged|].
    destruct (Hothers "Blink"
                {| owners := [ {| fo_email := "owner_1@example.com";
                                  watching_all_features := false |} ];
                   subscribers := [] |}) as [Howners _].
    + right. left.
    + reflexivity.
    + apply Howners. left.
Defined.

(** The tasks of the sample with the missing component listed first: the
    owner of the component that exists is among the recipients. *)
Example make_feature_changes_email_missing_first :
  match (make_feature_changes_email sample_settings chromium_or_google
           first_occurrence_order sample_IWA sample_STAGE_TYPES_SHIPPING
           sample_format_email_body sample_feature_missing_first true (Some sample_changes)
           sample_world).1 with
  | Ok tasks => task_to <$> tasks
  | Raise _ => []
  end
  = ["feature_editor@example.com"; "feature_owner@example.com"; "owner_1@example.com";
     "starrer@example.com"; "watcher_1@example.com"; "webview-leads-external@google.com"].
Proof. vm_compute. reflexivity. Qed.

(** ** The handler of feature changes *)

(** C10.  An update with an absent or empty change list builds no task
    and sends nothing, also when the feature exists: the handler only logs
    its first line.  The same holds when the feature does not exist.  A
    creation of an existing feature builds the tasks of the feature change
    and hands every one of them to [send_emails]. *)
Theorem handler_sends_only_creations_and_real_updates (cfg : settings)
    (MAX_LOG_LINE : nat) (can_create_feature : string → bool) (o : set_order) (IWA : Z)
    (STAGE_TYPES_SHIPPING : gmap Z (option Z))
    (format_email_body : string → FeatureEntry → list Change → string)
    (feature : feature_param) (w : world) :
  let run := process_post_data cfg MAX_LOG_LINE can_create_feature o IWA
               STAGE_TYPES_SHIPPING format_email_body feature in
  let started :=
    World (db w) (log w ++ [starting_entry MAX_LOG_LINE feature]) (task_queue w) in
  (∀ changes, changes = None ∨ changes = Some [] →
     run true changes w = (Ok "Done", started)) ∧
  (∀ is_update changes,
     FeatureEntry_get_by_id (db w) !! feature_param_id feature = None →
     run is_update changes w = (Ok "Done", started)) ∧
  (∀ fe changes,
     FeatureEntry_get_by_id (db w) !! feature_param_id feature = Some fe →
     is_Some (STAGE_TYPES_SHIPPING !! feature_type fe) →
     ∃ tasks w',
       make_feature_changes_email cfg can_create_feature o IWA STAGE_TYPES_SHIPPING
         format_email_body fe false (Some (default [] changes)) started = (Ok tasks, w') ∧
       run false changes w = (Ok "Done", sent cfg MAX_LOG_LINE tasks w') ∧
       (SEND_EMAIL cfg = true →
        task_queue (sent cfg MAX_LOG_LINE tasks w') =
          task_queue w ++ ((λ t, ("/tasks/outbound-email", t)) <$> tasks))).
Proof.
  cbv zeta. split; [|split].
  - intros changes Hchanges. unfold process_post_data, bind, logging, get_db.
    cbn [db log task_queue]. fold (starting_entry MAX_LOG_LINE feature).
    destruct (FeatureEntry_get_by_id (db w) !! feature_param_id feature); [|done].
    by destruct Hchanges as [-> | ->].
  - intros is_update changes Hnone. unfold process_post_data, bind, logging, get_db.
    cbn [db log task_queue]. fold (starting_entry MAX_LOG_LINE feature).
    by rewrite Hnone.
  - intros fe changes Hfe Hft.
    destruct (apply_subscription_rules_Ok IWA STAGE_TYPES_SHIPPING (db w) fe
                (default [] changes) Hft) as [rule_results Hrules].
    set (started := World (db w) (log w ++ [starting_entry MAX_LOG_LINE feature])
                      (task_queue w)).
    pose proof (make_feature_changes_email_tasks cfg can_create_feature IWA
                  STAGE_TYPES_SHIPPING format_email_body o fe false
                  (Some (default [] changes)) rule_results started Hrules) as Hrun.
    eexists _, _. split; [exact Hrun|]. split.
    + unfold process_post_data, bind at 1 2, logging at 1, get_db at 1.
      cbn [db log task_queue]. fold (starting_entry MAX_LOG_LINE feature).
      rewrite Hfe. cbn [andb negb orb]. fold started.
      unfold bind at 1. rewrite Hrun. unfold bind. rewrite send_emails_run. done.
    + intros Hsend. unfold sent. rewrite Hsend. done.
Qed.

Lemma handler_sends_only_creations_and_real_updates_witness :
  process_post_data sample_settings 100 chromium_or_google first_occurrence_order
    sample_IWA sample_STAGE_TYPES_SHIPPING sample_format_email_body
    sample_feature_param true (Some []) sample_world =
    (Ok "Done",
     World sample_datastore [starting_entry 100 sample_feature_param] []) ∧
  ∃ tasks w',
    make_feature_changes_email sample_settings chromium_or_google first_occurrence_order
      sample_IWA sample_STAGE_TYPES_SHIPPING sample_format_email_body sample_feature
      false (Some [])
      (World sample_datastore [starting_entry 100 sample_feature_param] [])
      = (Ok tasks, w') ∧
    process_post_data sample_settings 100 chromium_or_google first_occurrence_order
      sample_IWA sample_STAGE_TYPES_SHIPPING sample_format_email_body
      sample_feature_param false None sample_world =
      (Ok "Done", sent sample_settings 100 tasks w').
Proof.
  destruct (handler_sends_only_creations_and_real_updates sample_settings 100
              chromium_or_google first_occurrence_order sample_IWA
              sample_STAGE_TYPES_SHIPPING sample_format_email_body
              sample_feature_param sample_world) as (Hupdate & _ & Hcreate).
  split.
  - apply (Hupdate (Some [])). by right.
  - destruct (Hcreate sample_feature None) as (tasks & w' & Hmake & Hrun & _).
    + reflexivity.
    + eexists. reflexivity.
    + exists tasks, w'. split; [exact Hmake | exact Hrun].
Defined.

(** ** Review comments *)

(** C9.  When the gate id has no [Gate] entity, or the stage id of the
    gate has no [Stage] entity, posting a comment raises an error and
    leaves the world as it was: no task is enqueued and nothing is logged.
    The error is the [ValueError] that no matching stage was found when the
    approval field id is a key of [APPROVAL_FIELDS_BY_ID]; when it is not,
    the lookup of the approval field, which comes first, raises a
    [KeyError]. *)
Theorem comment_without_stage_is_fatal (cfg : settings) (MAX_LOG_LINE : nat)
    (FEATURE_TYPE_DEPRECATION_ID : Z)
    (PrototypeApproval ExperimentApproval ExtendExperimentApproval : ApprovalFieldDef)
    (APPROVAL_FIELDS_BY_ID : gmap Z ApprovalFieldDef)
    (unquote render_review_comment : string → string)
    (feature : FeatureEntry) (gate_id approval_field_id : Z)
    (author_addr comment_content : string) (w : world) :
  Gate_get_by_id (db w) !! gate_id = None ∨
  (∃ gate, Gate_get_by_id (db w) !! gate_id = Some gate ∧
           Stage_get_by_id (db w) !! stage_id gate = None) →
  post_comment_to_mailing_list cfg MAX_LOG_LINE FEATURE_TYPE_DEPRECATION_ID
    PrototypeApproval ExperimentApproval ExtendExperimentApproval
    APPROVAL_FIELDS_BY_ID unquote render_review_comment
    feature gate_id approval_field_id author_addr comment_content w
  = (Raise match APPROVAL_FIELDS_BY_ID !! approval_field_id with
           | Some _ => ValueError "No matching Stage entity found for given Gate ID."
           | None => KeyError
           end,
     w).
Proof.
  intros Hmissing.
  assert (Hstage :
    match Gate_get_by_id (db w) !! gate_id with
    | None => None
    | Some g => Stage_get_by_id (db w) !! stage_id g
    end = None).
  { destruct Hmissing as [-> | (gate & -> & ->)]; done. }
  unfold post_comment_to_mailing_list.
  destruct (APPROVAL_FIELDS_BY_ID !! approval_field_id) as [approval_field|].
  - unfold bind, get_db. rewrite Hstage. reflexivity.
  - reflexivity.
Qed.

Lemma comment_without_stage_is_fatal_witness :
  post_comment_to_mailing_list sample_settings 100 3
    sample_PrototypeApproval sample_ExperimentApproval sample_ExtendExperimentApproval
    sample_APPROVAL_FIELDS_BY_ID id id sample_feature 1 1
    "reviewer@example.com" "Looks good" sample_world =
    (Raise (ValueError "No matching Stage entity found for given Gate ID."), sample_world).
Proof.
  apply (comment_without_stage_is_fatal sample_settings 100 3
           sample_PrototypeApproval sample_ExperimentApproval
           sample_ExtendExperimentApproval sample_APPROVAL_FIELDS_BY_ID id id
           sample_feature 1 1 "reviewer@example.com" "Looks good" sample_world).
  right. exists {| stage_id := 2 |}. split; reflexivity.
Defined.

(** Not every such call raises the [ValueError]: gate 1 has no stage and
    gate 7 does not exist, yet with the approval field id 99, which is no
    key of the table, the error is the [KeyError] of the earlier lookup.
    Nothing is sent either way. *)
Lemma comment_without_stage_unknown_field_raises_KeyError :
  (∃ gate, Gate_get_by_id (db sample_world) !! 1%Z = Some gate ∧
           Stage_get_by_id (db sample_world) !! stage_id gate = None) ∧
  Gate_get_by_id (db sample_world) !! 7%Z = None ∧
  sample_APPROVAL_FIELDS_BY_ID !! 99%Z = None ∧
  post_comment_to_mailing_list sample_settings 100 3
    sample_PrototypeApproval sample_ExperimentApproval sample_ExtendExperimentApproval
    sample_APPROVAL_FIELDS_BY_ID id id sample_feature 1 99
    "reviewer@example.com" "Looks good" sample_world
  = (Raise KeyError, sample_world) ∧
  post_comment_to_mailing_list sample_settings 100 3
    sample_PrototypeApproval sample_ExperimentApproval sample_ExtendExperimentApproval
    sample_APPROVAL_FIELDS_BY_ID id id sample_feature 7 99
    "reviewer@example.com" "Looks good" sample_world
  = (Raise KeyError, sample_world) ∧
  (Raise KeyError : result unit)
    ≠ Raise (ValueError "No matching Stage entity found for given Gate ID.").
Proof.
  split; [exists {| stage_id := 2 |}; split; reflexivity|].
  repeat split; try (vm_compute; reflexivity). discriminate.
Qed.

(** ** The sample entries *)

(** The recipients of the sample update, in order. *)
Example make_feature_changes_email_recipients :
  match (make_feature_changes_email sample_settings chromium_or_google
           first_occurrence_order sample_IWA sample_STAGE_TYPES_SHIPPING
           sample_format_email_body sample_feature true (Some sample_changes)
           sample_world).1 with
  | Ok tasks => task_to <$> tasks
  | Raise _ => []
  end
  = ["cc@example.com"; "devrel1@gmail.com"; "feature_editor@example.com";
     "feature_owner@example.com"; "owner_1@example.com"; "starrer@example.com";
     "watcher_1@example.com"; "webview-leads-external@google.com"].
Proof. vm_compute. reflexivity. Qed.

Lemma every_recipient_has_a_reason_witness :
  ∃ tasks,
    all_tasks sample_settings chromium_or_google first_occurrence_order
      (accumulate_all ∅ [(["a@example.com"; "b@example.com"], "first");
                         (["b@example.com"], "second")])
      "html" "subject" None = Ok tasks ∧
    task_to <$> tasks =
      (sorted_items
         (accumulate_all ∅ [(["a@example.com"; "b@example.com"], "first");
                            (["b@example.com"], "second")])).*1.
Proof.
  apply (every_recipient_has_a_reason sample_settings chromium_or_google
           first_occurrence_order
           [(["a@example.com"; "b@example.com"], "first"); (["b@example.com"], "second")]
           "html" "subject" None).
Defined.

Lemma one_task_per_recipient_in_address_order_witness :
  ∃ tasks w',
    make_feature_changes_email sample_settings chromium_or_google first_occurrence_order
      sample_IWA sample_STAGE_TYPES_SHIPPING sample_format_email_body
      sample_feature true (Some sample_changes) sample_world = (Ok tasks, w') ∧
    StronglySorted (strict String.le) (task_to <$> tasks) ∧
    NoDup (task_to <$> tasks).
Proof.
  destruct (one_task_per_recipient_in_address_order sample_settings chromium_or_google
              sample_IWA sample_STAGE_TYPES_SHIPPING sample_format_email_body
              first_occurrence_order sample_feature true (Some sample_changes)
              sample_world)
    as (rule_results & tasks & w' & _ & Hrun & Hsorted & Hnodup & _).
  - eexists. reflexivity.
  - exists tasks, w'. split; [exact Hrun|]. split; [exact Hsorted | exact Hnodup].
Defined.

Lemma iwa_feature_notifies_iwa_list_witness :
  ∃ tasks w' task,
    make_feature_changes_email sample_settings chromium_or_google first_occurrence_order
      sample_IWA sample_STAGE_TYPES_SHIPPING sample_format_email_body
      sample_iwa_feature false None sample_world = (Ok tasks, w') ∧
    task ∈ tasks ∧ task_to task = "iwa-dev@chromium.org".
Proof.
  destruct (iwa_feature_notifies_iwa_list sample_settings chromium_or_google
              sample_IWA sample_STAGE_TYPES_SHIPPING sample_format_email_body
              first_occurrence_order sample_iwa_feature false None sample_world)
    as (rule_results & tasks & w' & _ & _ & Hrun & Haddr).
  - reflexivity.
  - eexists. reflexivity.
  - destruct (Haddr "iwa-dev@chromium.org") as (task & reasons & Hin & Hto & _).
    + left.
    + exists tasks, w', task. split; [exact Hrun|]. split; [exact Hin | exact Hto].
Defined.

(** * Further properties of the module *)

(** ** The milestone string *)

Lemma foldl_min_le (v : Z) (rest : list Z) :
  (foldl Z.min v rest ≤ v)%Z ∧ ∀ x, x ∈ rest → (foldl Z.min v rest ≤ x)%Z.
Proof.
  revert v. induction rest as [|y rest IH]; intros v; simpl.
  - split; [lia|]. intros x Hx. by apply not_elem_of_nil in Hx.
  - destruct (IH (Z.min v y)) as [H1 H2]. split; [lia|].
    intros x [->|Hx]%elem_of_cons; [lia | by apply H2].
Qed.

Lemma foldl_min_elem_of (v : Z) (rest : list Z) : foldl Z.min v rest ∈ v :: rest.
Proof.
  revert v. induction rest as [|y rest IH]; intros v; simpl; [left|].
  specialize (IH (Z.min v y)). apply elem_of_cons in IH as [->|IH].
  - destruct (Z.min_spec v y) as [[_ ->]|[_ ->]]; [left | right; left].
  - right. by right.
Qed.

Lemma py_min_Some (values : list Z) (m : Z) :
  py_min values = Some m → m ∈ values ∧ ∀ x, x ∈ values → (m ≤ x)%Z.
Proof.
  destruct values as [|v rest]; [done|]. intros [= <-].
  split; [apply foldl_min_elem_of|].
  destruct (foldl_min_le v rest) as [H1 H2].
  intros x [->|Hx]%elem_of_cons; auto.
Qed.

Lemma py_min_None (values : list Z) : py_min values = None ↔ values = [].
Proof. by destruct values. Qed.

Lemma stage_milestones_elem_of (field : MilestoneSet → option Z) (ship_stages : list Stage)
    (n : Z) :
  n ∈ stage_milestones field ship_stages ↔
    ∃ stage ms, stage ∈ ship_stages ∧ milestones stage = Some ms ∧
                field ms = Some n ∧ n ≠ 0%Z.
Proof.
  unfold stage_milestones. rewrite list_elem_of_omap. split.
  - intros (stage & Hin & Hn). exists stage.
    destruct (milestones stage) as [ms|]; [|done]. exists ms.
    destruct (field ms) as [z|] eqn:E; simpl in Hn; [|done].
    destruct (z =? 0)%Z eqn:Ez; simpl in Hn; [done|]. injection Hn as ->.
    apply Z.eqb_neq in Ez. done.
  - intros (stage & ms & Hin & Hms & Hf & Hn). exists stage. split; [done|].
    rewrite Hms, Hf. simpl. apply Z.eqb_neq in Hn. by rewrite Hn.
Qed.

(** X1.  When some shipping stage has a desktop milestone (a non-zero
    [desktop_first]), the string is the decimal of the earliest desktop
    milestone, whatever the android milestones are: of the smallest non-zero
    [desktop_first] of the stages.  A [desktop_first] of zero is no
    milestone and is never the one shown. *)
Theorem milestone_string_prefers_earliest_desktop (ship_stages : list Stage)
    (stage0 : Stage) (ms0 : MilestoneSet) :
  stage0 ∈ ship_stages → milestones stage0 = Some ms0 →
  truthy_int (desktop_first ms0) = true →
  ∃ m,
    _determine_milestone_string ship_stages = str_int m ∧
    m ≠ 0%Z ∧
    (∃ stage ms, stage ∈ ship_stages ∧ milestones stage = Some ms ∧
                 desktop_first ms = Some m) ∧
    (∀ stage ms n, stage ∈ ship_stages → milestones stage = Some ms →
                   desktop_first ms = Some n → n ≠ 0%Z → (m ≤ n)%Z).
Proof.
  intros Hin Hms Htruthy.
  destruct (desktop_first ms0) as [n0|] eqn:Hn0; [|done].
  assert (Hn0' : n0 ∈ stage_milestones desktop_first ship_stages).
  { apply stage_milestones_elem_of. exists stage0, ms0. repeat split; try done.
    simpl in Htruthy. intros ->. done. }
  unfold _determine_milestone_string.
  destruct (py_min (stage_milestones desktop_first ship_stages)) as [m|] eqn:Hmin.
  - apply py_min_Some in Hmin as [Hm Hle].
    apply stage_milestones_elem_of in Hm as (stage & ms & ? & ? & ? & Hne).
    exists m. split; [|split; [|split]].
    + simpl. apply Z.eqb_neq in Hne. by rewrite Hne.
    + exact Hne.
    + eauto.
    + intros stage' ms' n ? ? ? ?. apply Hle, stage_milestones_elem_of. eauto 10.
  - apply py_min_None in Hmin. rewrite Hmin in Hn0'. by apply not_elem_of_nil in Hn0'.
Qed.

(** Stages with the desktop milestones 0, 120 and 118, and an android
    milestone 88 on the first: the string is [118]. *)
Lemma milestone_string_prefers_earliest_desktop_witness :
  _determine_milestone_string (sample_desktop_stage <$> [0; 120; 118]%Z) = "118".
Proof.
  destruct (milestone_string_prefers_earliest_desktop
              (sample_desktop_stage <$> [0; 120; 118]%Z)
              (sample_desktop_stage 120)
              {| desktop_first := Some 120%Z; android_first := Some 88%Z;
                 webview_first := None |})
    as (m & Hstr & Hne & (stage & ms & Hstage & Hms & Hm) & Hle).
  - right. left.
  - reflexivity.
  - reflexivity.
  - rewrite Hstr.
    assert (Hleast : (m ≤ 118)%Z).
    { apply (Hle (sample_desktop_stage 118)
                 {| desktop_first := Some 118%Z; android_first := Some 88%Z;
                    webview_first := None |});
        [do 2 right; left | reflexivity | reflexivity | discriminate]. }
    assert (Hcases : m = 0%Z ∨ m = 120%Z ∨ m = 118%Z).
    { cbn [fmap list_fmap] in Hstage.
      apply elem_of_cons in Hstage as [->|Hstage];
        [injection Hms as <-; injection Hm as <-; by left|].
      apply elem_of_cons in Hstage as [->|Hstage];
        [injection Hms as <-; injection Hm as <-; right; by left|].
      apply list_elem_of_singleton in Hstage as ->.
      injection Hms as <-. injection Hm as <-. right. by right. }
    destruct Hcases as [->|[->| ->]]; [done | lia | reflexivity].
Defined.

(** X2.  Without any desktop milestone, the string is the earliest android
    milestone followed by [ (android)] when some stage has one, and the
    text [None] when no stage has one (an empty list of stages included). *)
Theorem milestone_string_without_desktop (ship_stages : list Stage) :
  (∀ stage ms, stage ∈ ship_stages → milestones stage = Some ms →
               truthy_int (desktop_first ms) = false) →
  match py_min (stage_milestones android_first ship_stages) with
  | Some a =>
      _determine_milestone_string ship_stages = str_int a +:+ " (android)" ∧
      (∃ stage ms, stage ∈ ship_stages ∧ milestones stage = Some ms ∧
                   android_first ms = Some a) ∧
      (∀ stage ms n, stage ∈ ship_stages → milestones stage = Some ms →
                     android_first ms = Some n → n ≠ 0%Z → (a ≤ n)%Z)
  | None =>
      _determine_milestone_string ship_stages = "None" ∧
      (∀ stage ms, stage ∈ ship_stages → milestones stage = Some ms →
                   truthy_int (android_first ms) = false)
  end.
Proof.
  intros Hno.
  assert (Hd : stage_milestones desktop_first ship_stages = []).
  { apply elem_of_nil_inv. intros n (stage & ms & Hin & Hms & Hf & Hn)%stage_milestones_elem_of.
    specialize (Hno stage ms Hin Hms). rewrite Hf in Hno. simpl in Hno.
    apply Z.eqb_neq in Hn. by rewrite Hn in Hno. }
  unfold _determine_milestone_string. rewrite Hd. simpl.
  destruct (py_min (stage_milestones android_first ship_stages)) as [a|] eqn:Hmin.
  - apply py_min_Some in Hmin as [Ha Hle].
    apply stage_milestones_elem_of in Ha as (stage & ms & ? & ? & ? & Hne).
    split; [|split].
    + simpl. apply Z.eqb_neq in Hne. by rewrite Hne.
    + eauto.
    + intros stage' ms' n ? ? ? ?. apply Hle, stage_milestones_elem_of. eauto 10.
  - split; [done|]. apply py_min_None in Hmin.
    intros stage ms Hin Hms. destruct (truthy_int (android_first ms)) eqn:E; [|done].
    exfalso. destruct (android_first ms) as [n|] eqn:Hn; [|done].
    assert (n ∈ stage_milestones android_first ship_stages) as Hmem.
    { apply stage_milestones_elem_of. exists stage, ms. repeat split; try done.
      simpl in E. intros ->. done. }
    rewrite Hmin in Hmem. by apply not_elem_of_nil in Hmem.
Qed.

Lemma milestone_string_without_desktop_witness :
  _determine_milestone_string [sample_ship_stage] = "88 (android)" ∧
  _determine_milestone_string [] = "None".
Proof.
  split.
  - apply (milestone_string_without_desktop [sample_ship_stage]).
    intros stage ms Hin Hms. apply list_elem_of_singleton in Hin. subst stage.
    injection Hms as <-. reflexivity.
  - apply (milestone_string_without_desktop []).
    intros stage ms Hin. by apply not_elem_of_nil in Hin.
Defined.

(** ** Review emails *)

Section ReviewEmailProperties.

Variable cfg : settings.
Variable MAX_LOG_LINE : nat.
Variable can_create_feature : string → bool.
Variable o : set_order.
Variable format_email_body : string → FeatureEntry → list Change → option string → string.
Variable get_gate_by_type : Z → Z → option AssignedGate.
Variable get_approvers : Z → list string.

(** The tasks built from a sequence of contributions: one per address, in
    address order, each rendered from the reasons of its address. *)
Lemma all_tasks_of_contributions (seq : list contribution) (email_html subject : string)
    (triggering_user_email : option string) :
  ∃ tasks,
    all_tasks cfg can_create_feature o (accumulate_all ∅ seq) email_html subject
      triggering_user_email = Ok tasks ∧
    StronglySorted (strict String.le) (task_to <$> tasks) ∧
    (∀ addr, addr ∈ task_to <$> tasks ↔ ∃ c : contribution, c ∈ seq ∧ addr ∈ c.1) ∧
    (∀ task, task ∈ tasks →
       reasons_for seq (task_to task) ≠ [] ∧
       convert_reasons_to_task cfg can_create_feature o (task_to task)
         (reasons_for seq (task_to task)) email_html subject triggering_user_email
       = Ok task).
Proof.
  eexists. split; [apply all_tasks_Ok, accumulate_all_empty_reasoned|].
  rewrite rendered_task_to. split; [apply sorted_items_keys|]. split.
  - intros addr. rewrite elem_of_sorted_items_fst. apply accumulate_all_is_Some.
  - intros task Hin. apply list_elem_of_fmap in Hin as ([addr reasons] & -> & Hin).
    apply sorted_items_reasons in Hin as [-> Hne]. simpl. split; [done|].
    by apply convert_reasons_to_task_Ok.
Qed.

(** A recipient with only one kind of reason is rendered as if it had it once. *)
Lemma convert_replicate (addr reason : string) (n : nat) (email_html subject : string)
    (triggering_user_email : option string) :
  n ≠ 0 →
  convert_reasons_to_task cfg can_create_feature o addr (replicate n reason) email_html
    subject triggering_user_email =
  convert_reasons_to_task cfg can_create_feature o addr [reason] email_html subject
    triggering_user_email.
Proof.
  intros Hn. rewrite !convert_reasons_to_task_Ok; [|done|destruct n; [done|discriminate]].
  f_equal. apply rendered_task_ext. intros r.
  rewrite elem_of_replicate, list_elem_of_singleton. tauto.
Qed.

Lemma add_reviewers_contribution fe gate_type table :
  add_reviewers get_gate_by_type get_approvers fe gate_type table =
    accumulate_reasons table
      (review_contribution get_gate_by_type get_approvers fe gate_type).1
      (review_contribution get_gate_by_type get_approvers fe gate_type).2.
Proof.
  unfold add_reviewers, review_contribution.
  destruct (get_gate_by_type (fe_id fe) gate_type) as [g|]; [|done].
  destruct (assignee_emails g) eqn:E; [done|]. by rewrite decide_False.
Qed.

(** The tasks of a review request: one per distinct reviewer, each with the
    single reason of the contribution. *)
Lemma make_review_requests_email_tasks fe gate_type changes :
  ∃ tasks,
    make_review_requests_email cfg can_create_feature o format_email_body
      get_gate_by_type get_approvers fe gate_type changes = Ok tasks ∧
    StronglySorted (strict String.le) (task_to <$> tasks) ∧
    (∀ addr, addr ∈ task_to <$> tasks ↔
       addr ∈ (review_contribution get_gate_by_type get_approvers fe gate_type).1) ∧
    (∀ task, task ∈ tasks →
       convert_reasons_to_task cfg can_create_feature o (task_to task)
         [(review_contribution get_gate_by_type get_approvers fe gate_type).2]
         (format_email_body "update-feature-email.html" fe (default [] changes) None)
         ("Review Request for feature: " +:+ name fe) (updater_email fe) = Ok task).
Proof.
  unfold make_review_requests_email. rewrite add_reviewers_contribution.
  set (c := review_contribution get_gate_by_type get_approvers fe gate_type).
  destruct (all_tasks_of_contributions [c]
              (format_email_body "update-feature-email.html" fe (default [] changes) None)
              ("Review Request for feature: " +:+ name fe) (updater_email fe))
    as (tasks & Hrun & Hsorted & Hmem & Htask).
  exists tasks. split; [exact Hrun|]. split; [done|]. split.
  - intros addr. rewrite Hmem. split.
    + intros (c' & Hc' & ?). apply list_elem_of_singleton in Hc'. by subst c'.
    + intros ?. exists c. split; [left | done].
  - intros task Hin. destruct (Htask task Hin) as [Hne Hconv].
    rewrite <- Hconv. symmetry.
    assert (Hr : reasons_for [c] (task_to task)
                 = replicate (occurrences (task_to task) c.1) c.2).
    { unfold reasons_for. simpl. by rewrite app_nil_r. }
    rewrite Hr. apply convert_replicate. intros H0. rewrite Hr, H0 in Hne. done.
Qed.

(** X3.  A review request for a gate that has assignees goes to the assignees
    and to nobody else, one task per distinct assignee in address order, each
    with the reason that the review is assigned to them; approvers who are not
    assignees get nothing. *)
Theorem review_request_goes_to_assignees (fe : FeatureEntry) (gate_type : Z)
    (changes : option (list Change)) (g : AssignedGate) :
  get_gate_by_type (fe_id fe) gate_type = Some g →
  assignee_emails g ≠ [] →
  ∃ tasks,
    make_review_requests_email cfg can_create_feature o format_email_body
      get_gate_by_type get_approvers fe gate_type changes = Ok tasks ∧
    StronglySorted (strict String.le) (task_to <$> tasks) ∧
    (∀ addr, addr ∈ task_to <$> tasks ↔ addr ∈ assignee_emails g) ∧
    (∀ task, task ∈ tasks →
       convert_reasons_to_task cfg can_create_feature o (task_to task)
         ["This review is assigned to you"]
         (format_email_body "update-feature-email.html" fe (default [] changes) None)
         ("Review Request for feature: " +:+ name fe) (updater_email fe) = Ok task).
Proof.
  intros Hgate Hassigned.
  destruct (make_review_requests_email_tasks fe gate_type changes) as (tasks & H).
  unfold review_contribution in H. rewrite Hgate, decide_False in H by done.
  by exists tasks.
Qed.

(** X4.  A review request for a gate without assignees, or for a gate that
    does not exist, goes to the approvers of the gate type as reviewers; with
    no approver either, no task is built. *)
Theorem review_request_falls_back_to_approvers (fe : FeatureEntry) (gate_type : Z)
    (changes : option (list Change)) :
  (get_gate_by_type (fe_id fe) gate_type = None ∨
   ∃ g, get_gate_by_type (fe_id fe) gate_type = Some g ∧ assignee_emails g = []) →
  ∃ tasks,
    make_review_requests_email cfg can_create_feature o format_email_body
      get_gate_by_type get_approvers fe gate_type changes = Ok tasks ∧
    StronglySorted (strict String.le) (task_to <$> tasks) ∧
    (∀ addr, addr ∈ task_to <$> tasks ↔ addr ∈ get_approvers gate_type) ∧
    (∀ task, task ∈ tasks →
       convert_reasons_to_task cfg can_create_feature o (task_to task)
         ["You are a reviewer for this type of gate"]
         (format_email_body "update-feature-email.html" fe (default [] changes) None)
         ("Review Request for feature: " +:+ name fe) (updater_email fe) = Ok task) ∧
    (get_approvers gate_type = [] → tasks = []).
Proof.
  intros Hgate.
  destruct (make_review_requests_email_tasks fe gate_type changes)
    as (tasks & Hrun & Hsorted & Hmem & Htask).
  assert (Hc : review_contribution get_gate_by_type get_approvers fe gate_type
               = (get_approvers gate_type, "You are a reviewer for this type of gate")).
  { unfold review_contribution. destruct Hgate as [-> | (g & -> & Hg)]; [done|].
    by rewrite decide_True. }
  rewrite Hc in Hmem, Htask. exists tasks. repeat split; try done; try apply Hmem.
  intros Hnone. destruct tasks as [|t ts]; [done|]. exfalso.
  assert (task_to t ∈ get_approvers gate_type) as Hin by (apply Hmem; left).
  rewrite Hnone in Hin. by apply not_elem_of_nil in Hin.
Qed.

(** X5.  Once the body is rendered, a review assignment email goes to the
    old and the new assignees and to nobody else (the approvers of the gate
    type are not recipients), one task per distinct address in address
    order, and no recipient is left without a reason.  The reasons of a
    recipient say that the review was previously assigned to them exactly
    when they are an old assignee, and that it is now assigned to them
    exactly when they are a new one.  With no assignee on either side no
    task is built. *)
Theorem review_assignment_goes_to_old_and_new_assignees (fe : FeatureEntry)
    (gate_type : Z) (triggering_user_email : string)
    (old_assignees new_assignees : list string) :
  ∃ tasks,
    make_review_assignment_email cfg can_create_feature o format_email_body
      get_approvers fe gate_type triggering_user_email old_assignees new_assignees
      = Ok tasks ∧
    StronglySorted (strict String.le) (task_to <$> tasks) ∧
    (∀ addr, addr ∈ task_to <$> tasks ↔ addr ∈ old_assignees ∨ addr ∈ new_assignees) ∧
    (∀ task, task ∈ tasks →
       ∃ reasons,
         convert_reasons_to_task cfg can_create_feature o (task_to task) reasons
           (format_email_body "update-feature-email.html" fe
              [{| prop_name := "Assigned reiewer";
                  old_val := Some (joined_or_None old_assignees);
                  new_val := Some (joined_or_None new_assignees) |}]
              (Some triggering_user_email))
           ("Review assigned for feature: " +:+ name fe) (Some triggering_user_email)
         = Ok task ∧
         ("The review was previously assigned to you" ∈ reasons ↔
            task_to task ∈ old_assignees) ∧
         ("The review is now assigned to you" ∈ reasons ↔ task_to task ∈ new_assignees) ∧
         (∀ r, r ∈ reasons → r = "The review was previously assigned to you" ∨
                             r = "The review is now assigned to you")) ∧
    (old_assignees = [] → new_assignees = [] → tasks = []).
Proof.
  set (seq := [(old_assignees, "The review was previously assigned to you");
               (new_assignees, "The review is now assigned to you")] : list contribution).
  destruct (all_tasks_of_contributions seq
              (format_email_body "update-feature-email.html" fe
                 [{| prop_name := "Assigned reiewer";
                     old_val := Some (joined_or_None old_assignees);
                     new_val := Some (joined_or_None new_assignees) |}]
                 (Some triggering_user_email))
              ("Review assigned for feature: " +:+ name fe) (Some triggering_user_email))
    as (tasks & Hrun & Hsorted & Hmem & Htask).
  assert (Hrecipients : ∀ addr,
            addr ∈ task_to <$> tasks ↔ addr ∈ old_assignees ∨ addr ∈ new_assignees).
  { intros addr. rewrite Hmem. unfold seq. split.
    - intros (c & Hc & Hin). apply elem_of_cons in Hc as [->|Hc]; [left; exact Hin|].
      apply list_elem_of_singleton in Hc. subst c. right. exact Hin.
    - intros [Hin|Hin].
      + exists (old_assignees, "The review was previously assigned to you").
        split; [left | exact Hin].
      + exists (new_assignees, "The review is now assigned to you").
        split; [right; left | exact Hin]. }
  exists tasks. split; [exact Hrun|]. split; [done|]. split; [done|]. split.
  - intros task Hin. destruct (Htask task Hin) as [_ Hconv].
    exists (reasons_for seq (task_to task)). split; [exact Hconv|].
    rewrite !reasons_for_elem_of. unfold seq. split; [|split].
    + split.
      * intros (c & Hc & Ha & Hr). apply elem_of_cons in Hc as [->|Hc]; [done|].
        apply list_elem_of_singleton in Hc. subst c. discriminate Hr.
      * intros Ha. eexists. split; [left|]. done.
    + split.
      * intros (c & Hc & Ha & Hr). apply elem_of_cons in Hc as [->|Hc]; [discriminate Hr|].
        apply list_elem_of_singleton in Hc. by subst c.
      * intros Ha. eexists. split; [right; left|]. done.
    + intros r (c & Hc & _ & <-)%reasons_for_elem_of.
      apply elem_of_cons in Hc as [->|Hc]; [by left|].
      apply list_elem_of_singleton in Hc. subst c. by right.
  - intros -> ->. destruct tasks as [|t ts]; [done|]. exfalso.
    assert (task_to t ∈ task_to <$> t :: ts) as Hin by left.
    apply Hrecipients in Hin as [Hin|Hin]; by apply not_elem_of_nil in Hin.
Qed.

(** X6.  Once the body is rendered, the email about new comments goes to
    the owners, editors, CC and devrel contacts of the feature together with
    the reviewers chosen by [add_reviewers], and to nobody else; no
    recipient is left without a reason, and the reasons of a recipient are
    those of the categories that list it. *)
Theorem new_comments_go_to_core_receivers_and_reviewers (d : datastore)
    (fe : FeatureEntry) (gate_type : Z) (changes : option (list Change)) :
  let reviewers := review_contribution get_gate_by_type get_approvers fe gate_type in
  ∃ tasks,
    make_new_comments_email cfg can_create_feature o format_email_body
      get_gate_by_type get_approvers d fe gate_type changes = Ok tasks ∧
    StronglySorted (strict String.le) (task_to <$> tasks) ∧
    (∀ addr, addr ∈ task_to <$> tasks ↔
       addr ∈ owner_emails fe ∨ addr ∈ editor_emails fe ∨ addr ∈ cc_emails fe ∨
       addr ∈ devrel_emails fe ∨ addr ∈ reviewers.1) ∧
    (∀ task, task ∈ tasks →
       convert_reasons_to_task cfg can_create_feature o (task_to task)
         (reasons_for (core_contributions fe ++ [reviewers]) (task_to task))
         (format_email_body "update-feature-email.html" fe (default [] changes) None)
         ("New comments for feature: " +:+ name fe) (updater_email fe) = Ok task).
Proof.
  intros reviewers.
  destruct (all_tasks_of_contributions (core_contributions fe ++ [reviewers])
              (format_email_body "update-feature-email.html" fe (default [] changes) None)
              ("New comments for feature: " +:+ name fe) (updater_email fe))
    as (tasks & Hrun & Hsorted & Hmem & Htask).
  exists tasks. split.
  - unfold make_new_comments_email. rewrite add_reviewers_contribution. exact Hrun.
  - split; [done|]. split; [|intros task Hin; by apply Htask].
    intros addr. rewrite Hmem. unfold core_contributions. split.
    + intros (c & Hc & Hin). simpl in Hc.
      repeat (apply elem_of_cons in Hc as [->|Hc]; [tauto|]).
      by apply not_elem_of_nil in Hc.
    + intros H. simpl.
      destruct H as [H|[H|[H|[H|H]]]].
      * exists (owner_emails fe, "You are listed as an owner of this feature").
        split; [left | exact H].
      * exists (editor_emails fe, "You are listed as an editor of this feature").
        split; [right; left | exact H].
      * exists (cc_emails fe, "You are CC'd on this feature").
        split; [do 2 right; left | exact H].
      * exists (devrel_emails fe, "You are a devrel contact for this feature.").
        split; [do 3 right; left | exact H].
      * exists reviewers. split; [do 4 right; left | exact H].
Qed.

End ReviewEmailProperties.

(** ** Sending *)

Lemma string_app_cons (a : ascii) (s t : string) : String a s +:+ t = String a (s +:+ t).
Proof. reflexivity. Qed.

(** A slice never cuts a code point in two, *)
Lemma slice_to_split (n : nat) (s : string) :
  ∃ rest, s = PyStr.slice_to n s +:+ rest ∧ at_boundary rest = true.
Proof.
  revert n. induction s as [|a s IH]; intros n; [by exists EmptyString|].
  cbn [PyStr.slice_to]. destruct (PyStr.is_continuation a) eqn:Ha.
  - destruct (IH n) as (rest & Heq & Hrest). exists rest. split; [|done].
    rewrite string_app_cons. by rewrite <- Heq.
  - destruct n as [|n].
    + exists (String a s). split; [done|]. simpl. by rewrite Ha.
    + destruct (IH n) as (rest & Heq & Hrest). exists rest. split; [|done].
      rewrite string_app_cons. by rewrite <- Heq.
Qed.

(** and it holds [n] code points, or all of them when there are fewer. *)
Lemma slice_to_code_points (n : nat) (s : string) :
  code_points (PyStr.slice_to n s) = n `min` code_points s.
Proof.
  revert n. induction s as [|a s IH]; intros n; [by destruct n|].
  cbn [PyStr.slice_to code_points]. destruct (PyStr.is_continuation a) eqn:Ha.
  - cbn [code_points]. rewrite Ha, IH. lia.
  - destruct n as [|n]; [done|]. cbn [code_points]. rewrite Ha, IH. lia.
Qed.

(** Two code points of [é€x] are five bytes. *)
Example slice_to_non_ascii :
  PyStr.slice_to 2 sample_non_ascii
    = String "195" (String "169" (String "226" (String "130" (String "172" EmptyString)))) ∧
  PyStr.slice_to 1 sample_non_ascii = String "195" (String "169" EmptyString) ∧
  PyStr.slice_to 0 sample_non_ascii = EmptyString ∧
  PyStr.slice_to 7 sample_non_ascii = sample_non_ascii ∧
  PyStr.slice_to 3 "plain text" = "pla".
Proof. vm_compute. repeat split. Qed.

(** X7.  [send_emails] never raises and leaves the datastore alone.  When
    sending is on it logs the count and enqueues every task once, in order,
    at [/tasks/outbound-email]; in a dry run it enqueues nothing and logs
    the count and then each task.  The body shown in the line of a task is the
    start of its HTML, cut after [MAX_LOG_LINE] code points (the whole HTML when
    it has no more), never inside a code point. *)
Theorem send_emails_enqueues_or_logs (cfg : settings) (MAX_LOG_LINE : nat)
    (email_tasks : list email_task) (w : world) :
  let after := send_emails cfg MAX_LOG_LINE email_tasks w in
  after.1 = Ok tt ∧ db after.2 = db w ∧
  if SEND_EMAIL cfg then
    task_queue after.2 =
      task_queue w ++ ((λ t, ("/tasks/outbound-email", t)) <$> email_tasks) ∧
    log after.2 = log w ++ [processing_entry email_tasks]
  else
    task_queue after.2 = task_queue w ∧
    log after.2 =
      log w ++ processing_entry email_tasks
            :: (would_send_entry MAX_LOG_LINE <$> email_tasks) ∧
    ∀ task, task ∈ email_tasks →
      ∃ body rest,
        last (args (would_send_entry MAX_LOG_LINE task)) = Some (ArgStr body) ∧
        task_html task = body +:+ rest ∧
        at_boundary rest = true ∧
        code_points body = MAX_LOG_LINE `min` code_points (task_html task).
Proof.
  cbv zeta. rewrite send_emails_run. unfold sent.
  destruct (SEND_EMAIL cfg); cbn [fst snd db log task_queue]; [auto|].
  split; [done|]. split; [done|]. split; [done|]. split; [done|].
  intros task _.
  destruct (slice_to_split MAX_LOG_LINE (task_html task)) as (rest & Heq & Hrest).
  exists (PyStr.slice_to MAX_LOG_LINE (task_html task)), rest.
  split; [by destruct task|]. split; [exact Heq|]. split; [exact Hrest|].
  apply slice_to_code_points.
Qed.

(** ** The review handlers *)

Section ReviewHandlerProperties.

Variable cfg : settings.
Variable MAX_LOG_LINE : nat.
Variable can_create_feature : string → bool.
Variable o : set_order.
Variable format_email_body : string → FeatureEntry → list Change → option string → string.
Variable get_gate_by_type : Z → Z → option AssignedGate.
Variable get_approvers : Z → list string.

Lemma sent_task_queue (email_tasks : list email_task) (w : world) :
  SEND_EMAIL cfg = true →
  task_queue (sent cfg MAX_LOG_LINE email_tasks w) =
    task_queue w ++ ((λ t, ("/tasks/outbound-email", t)) <$> email_tasks).
Proof. intros H. unfold sent. by rewrite H. Qed.

Ltac run_handler Hfe :=
  unfold bind at 1 2, starting_to_notify, logging at 1, get_db at 1;
  cbn [db log task_queue]; rewrite Hfe.

Ltac run_builder Hfe Hbuild :=
  run_handler Hfe; unfold bind at 1, lift at 1; rewrite Hbuild;
  unfold bind, ret; rewrite send_emails_run; reflexivity.

Lemma ReviewAssignmentHandler_run feature gate_type triggering_user_email
    old_assignees new_assignees fe tasks w :
  FeatureEntry_get_by_id (db w) !! feature_param_id feature = Some fe →
  make_review_assignment_email cfg can_create_feature o format_email_body get_approvers
    fe gate_type triggering_user_email old_assignees new_assignees = Ok tasks →
  ReviewAssignmentHandler_process_post_data cfg MAX_LOG_LINE can_create_feature o
    format_email_body get_approvers feature gate_type triggering_user_email
    old_assignees new_assignees w =
  (Ok "Done",
   sent cfg MAX_LOG_LINE tasks
     (started_with MAX_LOG_LINE "Starting to notify assignees for feature %s" feature w)).
Proof.
  intros Hfe Hbuild. unfold ReviewAssignmentHandler_process_post_data.
  run_builder Hfe Hbuild.
Qed.

Lemma FeatureReviewHandler_run feature gate_type changes fe tasks w :
  FeatureEntry_get_by_id (db w) !! feature_param_id feature = Some fe →
  make_review_requests_email cfg can_create_feature o format_email_body get_gate_by_type
    get_approvers fe gate_type (Some (default [] changes)) = Ok tasks →
  FeatureReviewHandler_process_post_data cfg MAX_LOG_LINE can_create_feature o
    format_email_body get_gate_by_type get_approvers feature gate_type changes w =
  (Ok "Done",
   sent cfg MAX_LOG_LINE tasks
     (started_with MAX_LOG_LINE "Starting to notify reviewers for feature %s" feature w)).
Proof.
  intros Hfe Hbuild. unfold FeatureReviewHandler_process_post_data.
  run_builder Hfe Hbuild.
Qed.

Lemma FeatureCommentHandler_run feature gate_type changes fe tasks w :
  FeatureEntry_get_by_id (db w) !! feature_param_id feature = Some fe →
  make_new_comments_email cfg can_create_feature o format_email_body get_gate_by_type
    get_approvers (db w) fe gate_type (Some (default [] changes)) = Ok tasks →
  FeatureCommentHandler_process_post_data cfg MAX_LOG_LINE can_create_feature o
    format_email_body get_gate_by_type get_approvers feature gate_type changes w =
  (Ok "Done",
   sent cfg MAX_LOG_LINE tasks
     (started_with MAX_LOG_LINE "Starting to notify of comments for feature %s" feature w)).
Proof.
  intros Hfe Hbuild. unfold FeatureCommentHandler_process_post_data.
  run_builder Hfe Hbuild.
Qed.

(** X8.  The handler of review assignments sends nothing for a feature that
    does not exist.  For an existing feature, with sending on, it enqueues
    one outbound email per distinct old or new assignee, in address order,
    and none to anybody else. *)
Theorem assignment_handler_emails_each_assignee_once (feature : feature_param)
    (gate_type : Z) (triggering_user_email : string)
    (old_assignees new_assignees : list string) (w : world) :
  let run := ReviewAssignmentHandler_process_post_data cfg MAX_LOG_LINE
               can_create_feature o format_email_body get_approvers feature gate_type
               triggering_user_email old_assignees new_assignees w in
  let started := started_with MAX_LOG_LINE "Starting to notify assignees for feature %s"
                   feature w in
  match FeatureEntry_get_by_id (db w) !! feature_param_id feature with
  | None => run = (Ok "Done", started)
  | Some fe =>
      ∃ tasks,
        run = (Ok "Done", sent cfg MAX_LOG_LINE tasks started) ∧
        (SEND_EMAIL cfg = true →
         task_queue run.2 =
           task_queue w ++ ((λ t, ("/tasks/outbound-email", t)) <$> tasks)) ∧
        StronglySorted (strict String.le) (task_to <$> tasks) ∧
        (∀ addr, addr ∈ task_to <$> tasks ↔
           addr ∈ old_assignees ∨ addr ∈ new_assignees)
  end.
Proof.
  cbv zeta.
  destruct (FeatureEntry_get_by_id (db w) !! feature_param_id feature) as [fe|] eqn:Hfe.
  - destruct (all_tasks_of_contributions cfg can_create_feature o
                [(old_assignees, "The review was previously assigned to you");
                 (new_assignees, "The review is now assigned to you")]
                (format_email_body "update-feature-email.html" fe
                   [{| prop_name := "Assigned reiewer";
                       old_val := Some (joined_or_None old_assignees);
                       new_val := Some (joined_or_None new_assignees) |}]
                   (Some triggering_user_email))
                ("Review assigned for feature: " +:+ name fe)
                (Some triggering_user_email))
      as (tasks & Hbuild & Hsorted & Hmem & _).
    exists tasks.
    rewrite (ReviewAssignmentHandler_run _ _ _ _ _ fe tasks w Hfe Hbuild).
    split; [reflexivity|]. split; [|split; [done|]].
    + intros Hsend. cbn [snd]. by rewrite sent_task_queue.
    + intros addr. rewrite Hmem. split.
      * intros (c & Hc & Hin). apply elem_of_cons in Hc as [->|Hc]; [left; exact Hin|].
        apply list_elem_of_singleton in Hc. subst c. right. exact Hin.
      * intros [Hin|Hin].
        -- exists (old_assignees, "The review was previously assigned to you").
           split; [left | exact Hin].
        -- exists (new_assignees, "The review is now assigned to you").
           split; [right; left | exact Hin].
  - unfold ReviewAssignmentHandler_process_post_data. run_handler Hfe. reflexivity.
Qed.

(** X9.  The handler of review requests sends nothing for a feature that
    does not exist.  For an existing feature, with sending on, it enqueues
    one outbound email per distinct reviewer (the assignees of the gate, or
    the approvers of the gate type when nobody is assigned). *)
Theorem review_handler_emails_each_reviewer_once (feature : feature_param)
    (gate_type : Z) (changes : option (list Change)) (w : world) :
  let run := FeatureReviewHandler_process_post_data cfg MAX_LOG_LINE can_create_feature o
               format_email_body get_gate_by_type get_approvers feature gate_type
               changes w in
  let started := started_with MAX_LOG_LINE "Starting to notify reviewers for feature %s"
                   feature w in
  match FeatureEntry_get_by_id (db w) !! feature_param_id feature with
  | None => run = (Ok "Done", started)
  | Some fe =>
      ∃ tasks,
        run = (Ok "Done", sent cfg MAX_LOG_LINE tasks started) ∧
        (SEND_EMAIL cfg = true →
         task_queue run.2 =
           task_queue w ++ ((λ t, ("/tasks/outbound-email", t)) <$> tasks)) ∧
        StronglySorted (strict String.le) (task_to <$> tasks) ∧
        (∀ addr, addr ∈ task_to <$> tasks ↔
           addr ∈ (review_contribution get_gate_by_type get_approvers fe gate_type).1)
  end.
Proof.
  cbv zeta.
  destruct (FeatureEntry_get_by_id (db w) !! feature_param_id feature) as [fe|] eqn:Hfe.
  - destruct (make_review_requests_email_tasks cfg can_create_feature o format_email_body
                get_gate_by_type get_approvers fe gate_type (Some (default [] changes)))
      as (tasks & Hbuild & Hsorted & Hmem & _).
    exists tasks. rewrite (FeatureReviewHandler_run _ _ _ fe tasks w Hfe Hbuild).
    split; [reflexivity|]. split; [|done].
    intros Hsend. cbn [snd]. by rewrite sent_task_queue.
  - unfold FeatureReviewHandler_process_post_data. run_handler Hfe. reflexivity.
Qed.

(** X10.  The handler of new comments sends nothing for a feature that does
    not exist.  For an existing feature, with sending on, it enqueues one
    outbound email per distinct core receiver or reviewer. *)
Theorem comment_handler_emails_receivers_and_reviewers (feature : feature_param)
    (gate_type : Z) (changes : option (list Change)) (w : world) :
  let run := FeatureCommentHandler_process_post_data cfg MAX_LOG_LINE can_create_feature o
               format_email_body get_gate_by_type get_approvers feature gate_type
               changes w in
  let started := started_with MAX_LOG_LINE "Starting to notify of comments for feature %s"
                   feature w in
  match FeatureEntry_get_by_id (db w) !! feature_param_id feature with
  | None => run = (Ok "Done", started)
  | Some fe =>
      ∃ tasks,
        run = (Ok "Done", sent cfg MAX_LOG_LINE tasks started) ∧
        (SEND_EMAIL cfg = true →
         task_queue run.2 =
           task_queue w ++ ((λ t, ("/tasks/outbound-email", t)) <$> tasks)) ∧
        StronglySorted (strict String.le) (task_to <$> tasks) ∧
        (∀ addr, addr ∈ task_to <$> tasks ↔
           ∃ c : contribution,
             c ∈ core_contributions fe
                   ++ [review_contribution get_gate_by_type get_approvers fe gate_type] ∧
             addr ∈ c.1)
  end.
Proof.
  cbv zeta.
  destruct (FeatureEntry_get_by_id (db w) !! feature_param_id feature) as [fe|] eqn:Hfe.
  - destruct (all_tasks_of_contributions cfg can_create_feature o
                (core_contributions fe
                   ++ [review_contribution get_gate_by_type get_approvers fe gate_type])
                (format_email_body "update-feature-email.html" fe
                   (default [] (Some (default [] changes))) None)
                ("New comments for feature: " +:+ name fe) (updater_email fe))
      as (tasks & Hbuild & Hsorted & Hmem & _).
    exists tasks.
    rewrite (FeatureCommentHandler_run _ _ changes fe tasks w Hfe).
    + split; [reflexivity|]. split; [|done].
      intros Hsend. cbn [snd]. by rewrite sent_task_queue.
    + unfold make_new_comments_email. rewrite add_reviewers_contribution. exact Hbuild.
  - unfold FeatureCommentHandler_process_post_data. run_handler Hfe. reflexivity.
Qed.

End ReviewHandlerProperties.

(** ** Thread ids and review comments *)

Lemma before_char_app (c : ascii) (s rest : string) :
  c ∉ chars s → PyStr.before_char c (s +:+ String c rest) = s.
Proof.
  induction s as [|a s IH]; simpl; intros Hc.
  - by rewrite Ascii.eqb_refl.
  - apply not_elem_of_cons in Hc as [Hne Hc].
    destruct (Ascii.eqb a c) eqn:E; [apply Ascii.eqb_eq in E; congruence|].
    f_equal. by apply IH.
Qed.

Lemma before_char_absent (c : ascii) (s : string) :
  c ∉ chars s → PyStr.before_char c s = s.
Proof.
  induction s as [|a s IH]; simpl; intros Hc; [done|].
  apply not_elem_of_cons in Hc as [Hne Hc].
  destruct (Ascii.eqb a c) eqn:E; [apply Ascii.eqb_eq in E; congruence|].
  f_equal. by apply IH.
Qed.

Lemma before_char_chars (c : ascii) (s : string) : c ∉ chars (PyStr.before_char c s).
Proof.
  induction s as [|a s IH]; simpl; [apply not_elem_of_nil|].
  destruct (Ascii.eqb a c) eqn:E; simpl; [apply not_elem_of_nil|].
  apply not_elem_of_cons. split; [|done].
  intros ->. by rewrite Ascii.eqb_refl in E.
Qed.

Lemma chars_app (s1 s2 : string) : chars (s1 +:+ s2) = chars s1 ++ chars s2.
Proof. induction s1 as [|a s1 IH]; simpl; [done|]. unfold chars in *. simpl. by f_equal. Qed.

Lemma startswith_app (p t : string) : PyStr.startswith p (p +:+ t) = true.
Proof.
  unfold PyStr.startswith. induction p as [|a p IH]; simpl; [by destruct t|].
  destruct (ascii_dec a a); [done | congruence].
Qed.

Lemma drop_prefix_app (p t : string) : PyStr.drop_prefix (String.length p) (p +:+ t) = t.
Proof. induction p as [|a p IH]; simpl; [by destruct t | done]. Qed.

Lemma startswith_drop_prefix (p s : string) :
  PyStr.startswith p s = true → s = p +:+ PyStr.drop_prefix (String.length p) s.
Proof.
  unfold PyStr.startswith. revert s. induction p as [|a p IH]; intros s.
  - by destruct s.
  - destruct s as [|b s]; simpl; [done|]. destruct (ascii_dec a b) as [->|]; [|done].
    intros H. change (String b s = String b (p +:+ PyStr.drop_prefix (String.length p) s)).
    f_equal. by apply IH.
Qed.

Lemma before_char_app_absent (c : ascii) (s rest : string) :
  c ∉ chars s → PyStr.before_char c (s +:+ rest) = s +:+ PyStr.before_char c rest.
Proof.
  induction s as [|a s IH]; simpl; intros Hc; [done|].
  apply not_elem_of_cons in Hc as [Hne Hc].
  destruct (Ascii.eqb a c) eqn:E; [apply Ascii.eqb_eq in E; congruence|].
  rewrite string_app_cons. f_equal. by apply IH.
Qed.

Lemma string_app_empty (s : string) : s +:+ EmptyString = s.
Proof. induction s as [|a s IH]; [done|]. rewrite string_app_cons. by f_equal. Qed.

Lemma string_app_assoc (s1 s2 s3 : string) : s1 +:+ s2 +:+ s3 = (s1 +:+ s2) +:+ s3.
Proof. induction s1 as [|a s1 IH]; [done|]. rewrite !string_app_cons. by f_equal. Qed.

(** The URL of an archived message, cut at its anchor and then at its query
    string, is the URL of the message. *)
Lemma cleaned_archive_url (url rest : string) :
  "#"%char ∉ chars url → "?"%char ∉ chars url →
  (rest = EmptyString ∨ ∃ r, rest = String "?" r ∨ rest = String "#" r) →
  PyStr.before_char "?" (PyStr.before_char "#" (url +:+ rest)) = url.
Proof.
  intros Hh Hq Hrest. rewrite (before_char_app_absent "#") by done.
  destruct Hrest as [-> | (r & [-> | ->])]; simpl.
  - rewrite string_app_empty. by apply before_char_absent.
  - by apply before_char_app.
  - rewrite string_app_empty. by apply before_char_absent.
Qed.

(** X11.  Round trip of a thread URL: for the URL of a message in one of the
    two archives, possibly followed by a query string or an anchor, the
    thread id is the message id (when unquoting leaves the URL as it is). *)
Theorem get_thread_id_of_archive_url (unquote : string → string) (stage : Stage)
    (archive thread_id rest : string) :
  archive = BLINK_DEV_ARCHIVE_URL_PREFIX ∨ archive = TEST_ARCHIVE_URL_PREFIX →
  intent_thread_url stage = Some (archive +:+ thread_id +:+ rest) →
  "#"%char ∉ chars thread_id → "?"%char ∉ chars thread_id →
  (rest = EmptyString ∨ ∃ r, rest = String "?" r ∨ rest = String "#" r) →
  unquote (archive +:+ thread_id) = archive +:+ thread_id →
  get_thread_id unquote stage = Some thread_id.
Proof.
  intros Harchive Hurl Hhash Hquery Hrest Hunquote.
  assert (Hclean : ("#"%char ∉ chars archive) ∧ ("?"%char ∉ chars archive)).
  { destruct Harchive as [-> | ->]; split; apply (bool_decide_unpack _); vm_compute;
      exact I. }
  destruct Hclean as [Ha1 Ha2].
  unfold get_thread_id. rewrite Hurl, string_app_assoc, cleaned_archive_url, Hunquote.
  - destruct Harchive as [-> | ->].
    + rewrite startswith_app, drop_prefix_app.
      replace (PyStr.startswith TEST_ARCHIVE_URL_PREFIX
                 (BLINK_DEV_ARCHIVE_URL_PREFIX +:+ thread_id)) with false by reflexivity.
      done.
    + rewrite startswith_app, drop_prefix_app.
      replace (PyStr.startswith BLINK_DEV_ARCHIVE_URL_PREFIX
                 (TEST_ARCHIVE_URL_PREFIX +:+ thread_id)) with false by reflexivity.
      done.
  - rewrite chars_app, elem_of_app. tauto.
  - rewrite chars_app, elem_of_app. tauto.
  - done.
Qed.

Lemma get_thread_id_of_archive_url_witness :
  get_thread_id id sample_stage_with_thread = Some "CAKXHy=abc@mail.gmail.com".
Proof.
  apply (get_thread_id_of_archive_url id sample_stage_with_thread
           BLINK_DEV_ARCHIVE_URL_PREFIX "CAKXHy=abc@mail.gmail.com"
           "?utm_medium=email&utm_source=footer").
  - by left.
  - reflexivity.
  - apply (bool_decide_unpack _). vm_compute. exact I.
  - apply (bool_decide_unpack _). vm_compute. exact I.
  - right. eexists. left. reflexivity.
  - reflexivity.
Defined.

(** X12.  A thread id is only ever read off a URL of one of the two archives:
    when [get_thread_id] returns an id, the stage has a thread URL which, cut
    at its anchor and query string and unquoted, is an archive prefix
    followed by that id.  A stage without thread URL has no thread id. *)
Theorem get_thread_id_comes_from_an_archive (unquote : string → string) (stage : Stage) :
  (intent_thread_url stage = None → get_thread_id unquote stage = None) ∧
  ∀ thread_id,
    get_thread_id unquote stage = Some thread_id →
    ∃ url,
      intent_thread_url stage = Some url ∧
      let cleaned := unquote (PyStr.before_char "?" (PyStr.before_char "#" url)) in
      cleaned = BLINK_DEV_ARCHIVE_URL_PREFIX +:+ thread_id ∨
      cleaned = TEST_ARCHIVE_URL_PREFIX +:+ thread_id.
Proof.
  unfold get_thread_id. split; [by intros ->|].
  intros thread_id. destruct (intent_thread_url stage) as [url|]; [|done].
  intros H. exists url. split; [done|]. cbv zeta.
  set (cleaned := unquote (PyStr.before_char "?" (PyStr.before_char "#" url))) in *.
  destruct (PyStr.startswith TEST_ARCHIVE_URL_PREFIX cleaned) eqn:Htest.
  - injection H as <-. right. by apply startswith_drop_prefix.
  - destruct (PyStr.startswith BLINK_DEV_ARCHIVE_URL_PREFIX cleaned) eqn:Hblink; [|done].
    injection H as <-. left. by apply startswith_drop_prefix.
Qed.

(** X13.  With a known approval field and a gate whose stage exists, posting
    a comment sends exactly one task, to the review mailing list.  Its
    subject starts with [Re: ]: the subject line of the stage when that
    already starts with [Re: ], the subject line or generated subject
    prefixed once otherwise.  The sender name holds no [@], and the task
    refers to the thread exactly when the stage has a non-empty thread id. *)
Theorem comment_is_posted_as_a_reply (cfg : settings) (MAX_LOG_LINE : nat)
    (FEATURE_TYPE_DEPRECATION_ID : Z)
    (PrototypeApproval ExperimentApproval ExtendExperimentApproval : ApprovalFieldDef)
    (APPROVAL_FIELDS_BY_ID : gmap Z ApprovalFieldDef)
    (unquote render_review_comment : string → string)
    (feature : FeatureEntry) (gate_id approval_field_id : Z)
    (author_addr comment_content : string) (w : world)
    (approval_field : ApprovalFieldDef) (gate : Gate) (stage : Stage) :
  APPROVAL_FIELDS_BY_ID !! approval_field_id = Some approval_field →
  Gate_get_by_id (db w) !! gate_id = Some gate →
  Stage_get_by_id (db w) !! stage_id gate = Some stage →
  ∃ from_user references subject,
    post_comment_to_mailing_list cfg MAX_LOG_LINE FEATURE_TYPE_DEPRECATION_ID
      PrototypeApproval ExperimentApproval ExtendExperimentApproval
      APPROVAL_FIELDS_BY_ID unquote render_review_comment
      feature gate_id approval_field_id author_addr comment_content w =
    (Ok tt,
     sent cfg MAX_LOG_LINE
       [ThreadReplyTask (REVIEW_COMMENT_MAILING_LIST cfg) from_user references subject
          (render_review_comment comment_content)] w) ∧
    ("@"%char ∉ chars from_user) ∧
    PyStr.startswith "Re: " subject = true ∧
    (let base := default (generate_thread_subject FEATURE_TYPE_DEPRECATION_ID
                            PrototypeApproval ExperimentApproval ExtendExperimentApproval
                            feature approval_field)
                   (intent_subject_line stage) in
     subject = if PyStr.startswith "Re: " base then base else "Re: " +:+ base) ∧
    references =
      match get_thread_id unquote stage with
      | Some thread_id =>
          if PyStr.truthy thread_id then Some ("<" +:+ thread_id +:+ ">") else None
      | None => None
      end.
Proof.
  intros Hfield Hgate Hstage.
  set (base := default (generate_thread_subject FEATURE_TYPE_DEPRECATION_ID
                          PrototypeApproval ExperimentApproval ExtendExperimentApproval
                          feature approval_field)
                 (intent_subject_line stage)).
  exists (PyStr.before_char "@" author_addr),
    (match get_thread_id unquote stage with
     | Some thread_id =>
         if PyStr.truthy thread_id then Some ("<" +:+ thread_id +:+ ">") else None
     | None => None
     end),
    (if PyStr.startswith "Re: " base then base else "Re: " +:+ base).
  split; [|split; [|split; [|split]]].
  - unfold post_comment_to_mailing_list. rewrite Hfield.
    unfold bind, get_db. rewrite Hgate, Hstage, send_emails_run.
    unfold base. destruct (intent_subject_line stage) as [s|]; simpl.
    + by destruct (PyStr.startswith "Re: " s).
    + by destruct (PyStr.startswith "Re: " _).
  - apply before_char_chars.
  - destruct (PyStr.startswith "Re: " base) eqn:E; [exact E|].
    apply (startswith_app "Re: ").
  - reflexivity.
  - reflexivity.
Qed.

Lemma comment_is_posted_as_a_reply_witness :
  ∃ from_user references subject,
    post_comment_to_mailing_list sample_settings 100 3
      sample_PrototypeApproval sample_ExperimentApproval sample_ExtendExperimentApproval
      sample_APPROVAL_FIELDS_BY_ID id id sample_feature 1 1
      "reviewer@example.com" "Looks good" sample_review_world =
    (Ok tt,
     sent sample_settings 100
       [ThreadReplyTask "blink-dev@chromium.org" from_user references subject "Looks good"]
       sample_review_world) ∧
    PyStr.startswith "Re: " subject = true.
Proof.
  destruct (comment_is_posted_as_a_reply sample_settings 100 3
              sample_PrototypeApproval sample_ExperimentApproval
              sample_ExtendExperimentApproval sample_APPROVAL_FIELDS_BY_ID id id
              sample_feature 1 1 "reviewer@example.com" "Looks good" sample_review_world
              sample_PrototypeApproval {| stage_id := 2 |} sample_stage_with_thread)
    as (from_user & references & subject & Hrun & _ & Hre & _);
    [reflexivity..|].
  exists from_user, references, subject. split; [exact Hrun | exact Hre].
Defined.

(** The reply of the sample comment. *)
Example post_comment_sample_reply :
  (post_comment_to_mailing_list sample_settings 100 3
     sample_PrototypeApproval sample_ExperimentApproval sample_ExtendExperimentApproval
     sample_APPROVAL_FIELDS_BY_ID id id sample_feature 1 1
     "reviewer@example.com" "Looks good" sample_review_world).2
  = World sample_review_datastore
      [processing_entry [ThreadReplyTask "blink-dev@chromium.org" "reviewer"
        (Some "<CAKXHy=abc@mail.gmail.com>") "Re: Intent to Ship: feature one"
        "Looks good"]]
      [("/tasks/outbound-email",
      ThreadReplyTask "blink-dev@chromium.org" "reviewer"
        (Some "<CAKXHy=abc@mail.gmail.com>") "Re: Intent to Ship: feature one"
        "Looks good")].
Proof. vm_compute. reflexivity. Qed.

(** ** Stars *)

Section Stars.

Implicit Types (st : star_store) (fs : FeatureStar) (l : list FeatureStar).

Lemma insert_at_Permutation {A} (place : nat) (x : A) (l : list A) :
  insert_at place x l ≡ₚ x :: l.
Proof.
  unfold insert_at. rewrite <- Permutation_middle. by rewrite take_drop.
Qed.

Lemma filter_insert_at {A} (Q : A → Prop) `{∀ x, Decision (Q x)} (place : nat) (x : A)
    (l : list A) :
  ¬ Q x → filter Q (insert_at place x l) = filter Q l.
Proof.
  intros Hx. unfold insert_at. rewrite filter_app, filter_cons_False by done.
  by rewrite <- filter_app, take_drop.
Qed.

Lemma filter_list_insert {A} (Q : A → Prop) `{∀ x, Decision (Q x)} (l : list A) (i : nat)
    (x y : A) :
  l !! i = Some x → ¬ Q x → ¬ Q y → filter Q (<[i:=y]> l) = filter Q l.
Proof.
  revert i. induction l as [|z l IH]; intros [|i] Hi Hx Hy; simpl in *; try done.
  - injection Hi as ->. by rewrite !filter_cons_False.
  - rewrite !filter_cons. by rewrite (IH i).
Qed.

Lemma NoDup_fmap_elem_inj {A B} (f : A → B) (l : list A) (x y : A) :
  NoDup (f <$> l) → x ∈ l → y ∈ l → f x = f y → x = y.
Proof.
  induction l as [|z l IH]; intros Hnd Hx Hy Hf; [by apply not_elem_of_nil in Hx|].
  rewrite fmap_cons in Hnd. apply NoDup_cons in Hnd as [Hz Hnd].
  apply elem_of_cons in Hx as [->|Hx]; apply elem_of_cons in Hy as [->|Hy]; try done.
  - exfalso. apply Hz. rewrite Hf. apply list_elem_of_fmap. eauto.
  - exfalso. apply Hz. rewrite <- Hf. apply list_elem_of_fmap. eauto.
  - by apply IH.
Qed.

Lemma elem_of_list_insert_inv {A} (l : list A) (i : nat) (y z : A) :
  y ∈ <[i:=z]> l → y = z ∨ ∃ j, j ≠ i ∧ l !! j = Some y.
Proof.
  intros (j & Hj)%list_elem_of_lookup. apply list_lookup_insert_Some in Hj.
  destruct Hj as [(-> & -> & _) | (Hne & Hj)]; [by left | right; eauto].
Qed.

Lemma get_star_Some email feature_id st key fs :
  get_star email feature_id st = Some (key, fs) →
  feature_stars st !! key = Some fs ∧ fs_email fs = email ∧ fs_feature_id fs = feature_id.
Proof. unfold get_star. intros (? & [? ?] & _)%list_find_Some. done. Qed.

Lemma get_star_None email feature_id st fs :
  get_star email feature_id st = None → fs ∈ feature_stars st →
  ¬ (fs_email fs = email ∧ fs_feature_id fs = feature_id).
Proof.
  unfold get_star. intros Hnone%list_find_None Hin.
  rewrite Forall_forall in Hnone. by apply Hnone.
Qed.

(** The three courses of [set_star]: nothing to do, a new entity, or an
    entity whose [starred] is flipped. *)
Lemma set_star_cases email feature_id new_starred place st :
  (set_star email feature_id new_starred place st = (Returned, st) ∧
   (get_star email feature_id st = None ∧ new_starred = false ∨
    ∃ key fs, get_star email feature_id st = Some (key, fs) ∧ starred fs = new_starred))
  ∨ (get_star email feature_id st = None ∧ new_starred = true ∧
     feature_stars (set_star email feature_id new_starred place st).2 =
       insert_at place
         {| fs_email := email; fs_feature_id := feature_id; starred := true |}
         (feature_stars st))
  ∨ (∃ key fs,
       get_star email feature_id st = Some (key, fs) ∧ starred fs = negb new_starred ∧
       feature_stars (set_star email feature_id new_starred place st).2 =
         <[key := restarred fs new_starred]> (feature_stars st)).
Proof.
  unfold set_star.
  destruct (get_star email feature_id st) as [[key fs]|] eqn:Hget.
  - destruct (starred fs) eqn:Hs, new_starred; simpl.
    + left. split; [done|]. right. eauto.
    + right. right. exists key, fs. split; [done|]. split; [done|].
      destruct (star_counts st !! feature_id) as [c|]; [|done].
      by destruct (c + -1 <? 0)%Z.
    + right. right. exists key, fs. split; [done|]. split; [done|].
      destruct (star_counts st !! feature_id) as [c|]; [|done].
      by destruct (c + 1 <? 0)%Z.
    + left. split; [done|]. right. eauto.
  - destruct new_starred; simpl.
    + right. left. split; [done|]. split; [done|].
      destruct (star_counts st !! feature_id) as [c|]; [|done].
      by destruct (c + 1 <? 0)%Z.
    + left. split; [done|]. by left.
Qed.

(** A filter that rejects the stars of this user and feature sees no change. *)
Lemma set_star_filter (Q : FeatureStar → Prop) `{∀ fs, Decision (Q fs)}
    email feature_id new_starred place st :
  (∀ fs, fs_email fs = email → fs_feature_id fs = feature_id → ¬ Q fs) →
  filter Q (feature_stars (set_star email feature_id new_starred place st).2) =
    filter Q (feature_stars st).
Proof.
  intros HQ.
  destruct (set_star_cases email feature_id new_starred place st)
    as [[-> _] | [(_ & _ & ->) | (key & fs & Hget & _ & ->)]]; [done| |].
  - apply filter_insert_at. by apply HQ.
  - apply get_star_Some in Hget as (Hkey & He & Hf).
    eapply filter_list_insert; [exact Hkey | |]; by apply HQ.
Qed.

Lemma elem_of_get_user_stars email st feature_id :
  feature_id ∈ (get_user_stars email st).1 ↔
    ∃ fs, fs ∈ feature_stars st ∧ fs_email fs = email ∧ starred fs = true ∧
          fs_feature_id fs = feature_id.
Proof.
  unfold get_user_stars, sorted_reverse. cbn [fst].
  rewrite merge_sort_Permutation, list_elem_of_fmap. split.
  - intros (fs & -> & [[? ?] ?]%list_elem_of_filter). eauto.
  - intros (fs & ? & ? & ? & <-). exists fs. split; [done|].
    by apply list_elem_of_filter.
Qed.

Lemma elem_of_get_user_stars_filter email st feature_id :
  feature_id ∈ (get_user_stars email st).1 ↔
    filter (λ fs, fs_email fs = email ∧ starred fs = true ∧ fs_feature_id fs = feature_id)
      (feature_stars st) ≠ [].
Proof.
  rewrite elem_of_get_user_stars. split.
  - intros (fs & Hin & ? & ? & ?) Hnil.
    assert (fs ∈ filter (λ fs, fs_email fs = email ∧ starred fs = true ∧
                               fs_feature_id fs = feature_id) (feature_stars st)) as Hf
      by (by apply list_elem_of_filter).
    rewrite Hnil in Hf. by apply not_elem_of_nil in Hf.
  - intros Hne.
    destruct (filter _ (feature_stars st)) as [|fs rest] eqn:E; [done|].
    assert (fs ∈ fs :: rest) as Hin by left. rewrite <- E in Hin.
    apply list_elem_of_filter in Hin as [(? & ? & ?) ?]. eauto.
Qed.

(** After starring, a starred entity of the user and feature exists. *)
Lemma starred_entity_exists email feature_id place st :
  ∃ fs, fs ∈ feature_stars (set_star email feature_id true place st).2 ∧
        fs_email fs = email ∧ starred fs = true ∧ fs_feature_id fs = feature_id.
Proof.
  destruct (set_star_cases email feature_id true place st)
    as [[-> Hwhy] | [(_ & _ & ->) | (key & fs & Hget & _ & ->)]].
  - destruct Hwhy as [[_ ?] | (key & fs & Hget & Hs)]; [done|].
    apply get_star_Some in Hget as (Hkey & ? & ?). exists fs.
    split; [by eapply list_elem_of_lookup_2|]. done.
  - exists {| fs_email := email; fs_feature_id := feature_id; starred := true |}.
    split; [|done]. unfold insert_at. apply elem_of_app. right. left.
  - apply get_star_Some in Hget as (Hkey & ? & ?). exists (restarred fs true).
    split; [|done]. apply list_elem_of_insert. by eapply lookup_lt_Some.
Qed.

(** After unstarring under uniqueness, no starred entity of the user and
    feature is left. *)
Lemma no_starred_entity_left email feature_id place st fs :
  unique_stars st →
  fs ∈ feature_stars (set_star email feature_id false place st).2 →
  fs_email fs = email → fs_feature_id fs = feature_id → starred fs = false.
Proof.
  intros Huniq Hin He Hf.
  destruct (set_star_cases email feature_id false place st)
    as [[Heq Hwhy] | [(_ & ? & _) | (key & fs0 & Hget & _ & Hstars)]]; [| done |].
  - rewrite Heq in Hin. cbn [snd] in Hin.
    destruct Hwhy as [[Hnone _] | (key & fs0 & Hget & Hs)].
    + exfalso. by eapply get_star_None.
    + apply get_star_Some in Hget as (Hkey & ? & ?).
      assert (fs = fs0) as ->; [|done].
      eapply (NoDup_fmap_elem_inj star_key); [exact Huniq | done | |].
      * by eapply list_elem_of_lookup_2.
      * unfold star_key. congruence.
  - rewrite Hstars in Hin. apply get_star_Some in Hget as (Hkey & ? & ?).
    apply elem_of_list_insert_inv in Hin as [-> | (j & Hj & Hlookup)]; [done|].
    exfalso. apply Hj.
    assert (fs = fs0) as ->.
    { eapply (NoDup_fmap_elem_inj star_key); [exact Huniq | | |].
      - by eapply list_elem_of_lookup_2.
      - by eapply list_elem_of_lookup_2.
      - unfold star_key. congruence. }
    eapply NoDup_lookup; [|exact Hlookup | exact Hkey].
    eapply NoDup_fmap_1. exact Huniq.
Qed.

(** The keys after [set_star]: the same, or one new key. *)
Lemma set_star_keys email feature_id new_starred place st :
  star_key <$> feature_stars (set_star email feature_id new_starred place st).2
    = star_key <$> feature_stars st
  ∨ (((email, feature_id) ∉ (star_key <$> feature_stars st)) ∧
     star_key <$> feature_stars (set_star email feature_id new_starred place st).2
       ≡ₚ (email, feature_id) :: (star_key <$> feature_stars st)).
Proof.
  destruct (set_star_cases email feature_id new_starred place st)
    as [[-> _] | [(Hnone & _ & ->) | (key & fs & Hget & _ & ->)]]; [by left| |].
  - right. split.
    + intros (fs & Hk & Hin)%list_elem_of_fmap.
      eapply get_star_None; [exact Hnone | exact Hin |].
      unfold star_key in Hk. by injection Hk as <- <-.
    + by rewrite insert_at_Permutation.
  - left. apply get_star_Some in Hget as (Hkey & ? & ?).
    rewrite list_fmap_insert. apply list_insert_id.
    rewrite list_lookup_fmap, Hkey. done.
Qed.

Lemma set_star_noop email feature_id new_starred place st key fs :
  get_star email feature_id st = Some (key, fs) → starred fs = new_starred →
  set_star email feature_id new_starred place st = (Returned, st).
Proof.
  intros Hget Hs. unfold set_star. rewrite Hget, Hs.
  by destruct new_starred.
Qed.

(** X14.  [set_star] keeps the star entities unique: when no two entities
    share user and feature before the call, none do after it, wherever a new
    entity lands. *)
Theorem set_star_keeps_stars_unique (email : string) (feature_id : Z)
    (new_starred : bool) (place : nat) (st : star_store) :
  unique_stars st → unique_stars (set_star email feature_id new_starred place st).2.
Proof.
  unfold unique_stars. intros Huniq.
  destruct (set_star_keys email feature_id new_starred place st) as [-> | [Hnew ->]].
  - exact Huniq.
  - apply NoDup_cons. by split.
Qed.

Lemma set_star_keeps_stars_unique_witness :
  unique_stars (set_star "b@example.com" 9 true 1 sample_star_store).2.
Proof.
  apply (set_star_keeps_stars_unique "b@example.com" 9 true 1 sample_star_store).
  unfold unique_stars. apply (bool_decide_unpack _). vm_compute. exact I.
Defined.

(** X15.  Calling [set_star] again with the same user, feature and value does
    nothing: the second call returns without touching the entities, the
    counts or the log, whatever the first call did (also when it raised or
    refused a negative count). *)
Theorem set_star_again_changes_nothing (email : string) (feature_id : Z)
    (new_starred : bool) (place place' : nat) (st : star_store) :
  let st1 := (set_star email feature_id new_starred place st).2 in
  set_star email feature_id new_starred place' st1 = (Returned, st1).
Proof.
  cbv zeta.
  destruct (set_star_cases email feature_id new_starred place st)
    as [[Heq Hwhy] | [(Hnone & -> & Hstars) | (key & fs & Hget & Hs & Hstars)]].
  - rewrite Heq. cbn [snd].
    destruct Hwhy as [[Hnone ->] | (key & fs & Hget & Hs)].
    + unfold set_star. by rewrite Hnone.
    + by eapply set_star_noop.
  - set (st1 := (set_star email feature_id true place st).2) in *.
    set (new := {| fs_email := email; fs_feature_id := feature_id; starred := true |}) in *.
    assert (Hin : new ∈ feature_stars st1).
    { rewrite Hstars. unfold insert_at. apply elem_of_app. right. left. }
    destruct (list_find_elem_of
                (λ fs, fs_email fs = email ∧ fs_feature_id fs = feature_id)
                (feature_stars st1) new Hin) as [[key fs] Hfind]; [done|].
    pose proof (get_star_Some email feature_id st1 key fs Hfind) as (Hkey & He & Hf).
    apply (set_star_noop _ _ _ _ _ key fs Hfind).
    apply list_elem_of_lookup_2 in Hkey. rewrite Hstars in Hkey.
    rewrite insert_at_Permutation in Hkey.
    apply elem_of_cons in Hkey as [-> | Hold]; [done|].
    exfalso. by eapply get_star_None.
  - set (st1 := (set_star email feature_id new_starred place st).2) in *.
    apply (set_star_noop _ _ _ _ _ key (restarred fs new_starred)); [|done].
    pose proof Hget as Hfind. unfold get_star in Hfind.
    apply list_find_Some in Hfind as (Hkey & HP & Hfirst).
    unfold get_star. rewrite Hstars. apply list_find_insert_Some. right. left.
    split; [done|]. split; [done|]. split; [by eapply lookup_lt_Some|].
    split; [exact HP|]. exact Hfirst.
Qed.

(** X16.  [set_star] never stores a negative star count: when every stored
    count is non-negative before the call, every one is after it. *)
Theorem set_star_keeps_counts_non_negative (email : string) (feature_id : Z)
    (new_starred : bool) (place : nat) (st : star_store) :
  (∀ id count, star_counts st !! id = Some count → (0 ≤ count)%Z) →
  ∀ id count,
    star_counts (set_star email feature_id new_starred place st).2 !! id = Some count →
    (0 ≤ count)%Z.
Proof.
  intros Hpos id count. unfold set_star.
  destruct (match get_star email feature_id st with
            | Some (key, fs) => _ | None => _ end) as [stars|]; [|apply Hpos].
  destruct (star_counts st !! feature_id) as [c|] eqn:Hc; [|apply Hpos].
  destruct (c + (if new_starred then 1 else -1) <? 0)%Z eqn:Hneg; cbn [snd star_counts];
    [apply Hpos|].
  rewrite lookup_insert. case_decide; [|apply Hpos].
  intros [= <-]. apply Z.ltb_ge in Hneg. exact Hneg.
Qed.

Lemma set_star_keeps_counts_non_negative_witness :
  ∃ count,
    star_counts (set_star "a@example.com" 9 false 0 sample_star_store).2 !! 9%Z
      = Some count ∧ (0 ≤ count)%Z.
Proof.
  exists 0%Z. split; [reflexivity|].
  apply (set_star_keeps_counts_non_negative "a@example.com" 9 false 0 sample_star_store)
    with (id := 9%Z); [|reflexivity].
  intros id count. unfold sample_star_store. cbn [star_counts].
  rewrite lookup_insert. case_decide; [intros [= <-]; lia|].
  rewrite lookup_singleton. case_decide; [intros [= <-]; lia | done].
Defined.

(** X17.  Starring a feature puts it in the list of the user's starred
    features, whatever the outcome of the call, and changes the listing of
    no other feature. *)
Theorem starring_lists_the_feature (email : string) (feature_id : Z) (place : nat)
    (st : star_store) :
  let st1 := (set_star email feature_id true place st).2 in
  feature_id ∈ (get_user_stars email st1).1 ∧
  ∀ other, other ≠ feature_id →
    (other ∈ (get_user_stars email st1).1 ↔ other ∈ (get_user_stars email st).1).
Proof.
  cbv zeta. split.
  - apply elem_of_get_user_stars, starred_entity_exists.
  - intros other Hne. rewrite !elem_of_get_user_stars_filter.
    rewrite set_star_filter; [done|]. intros fs _ Hf (_ & _ & Hother). congruence.
Qed.

(** X18.  With unique star entities, unstarring a feature takes it out of the
    list of the user's starred features, whatever the outcome of the call,
    and changes the listing of no other feature. *)
Theorem unstarring_unlists_the_feature (email : string) (feature_id : Z) (place : nat)
    (st : star_store) :
  unique_stars st →
  let st1 := (set_star email feature_id false place st).2 in
  (feature_id ∉ (get_user_stars email st1).1) ∧
  ∀ other, other ≠ feature_id →
    (other ∈ (get_user_stars email st1).1 ↔ other ∈ (get_user_stars email st).1).
Proof.
  intros Huniq. cbv zeta. split.
  - intros (fs & Hin & He & Hs & Hf)%elem_of_get_user_stars.
    rewrite (no_starred_entity_left email feature_id place st fs Huniq Hin He Hf) in Hs.
    discriminate Hs.
  - intros other Hne. rewrite !elem_of_get_user_stars_filter.
    rewrite set_star_filter; [done|]. intros fs _ Hf (_ & _ & Hother). congruence.
Qed.

Lemma unstarring_unlists_the_feature_witness :
  (7%Z ∉ (get_user_stars "a@example.com"
            (set_star "a@example.com" 7 false 0 sample_star_store).2).1) ∧
  ∀ other, other ≠ 7%Z →
    (other ∈ (get_user_stars "a@example.com"
                (set_star "a@example.com" 7 false 0 sample_star_store).2).1 ↔
     other ∈ (get_user_stars "a@example.com" sample_star_store).1).
Proof.
  apply (unstarring_unlists_the_feature "a@example.com" 7 0 sample_star_store).
  unfold unique_stars. apply (bool_decide_unpack _). vm_compute. exact I.
Defined.

(** X19.  [set_star] for one user leaves the starred features of every other
    user as they were. *)
Theorem set_star_leaves_other_users_alone (email other_email : string)
    (feature_id : Z) (new_starred : bool) (place : nat) (st : star_store) :
  other_email ≠ email →
  (get_user_stars other_email (set_star email feature_id new_starred place st).2).1 =
  (get_user_stars other_email st).1.
Proof.
  intros Hne. unfold get_user_stars. cbn [fst].
  rewrite set_star_filter; [done|]. intros fs He _ [He' _]. congruence.
Qed.

Lemma set_star_leaves_other_users_alone_witness :
  (get_user_stars "a@example.com"
     (set_star "b@example.com" 7 true 0 sample_star_store).2).1 =
  (get_user_stars "a@example.com" sample_star_store).1.
Proof.
  apply (set_star_leaves_other_users_alone "b@example.com" "a@example.com" 7 true 0
           sample_star_store).
  discriminate.
Defined.

Global Instance flip_Z_le_total : Total (flip Z.le).
Proof. intros x y. unfold flip. lia. Qed.

Global Instance flip_Z_le_trans : Transitive (flip Z.le).
Proof. intros x y z. unfold flip. lia. Qed.

(** X20.  [get_user_stars] returns the features the user has starred, and
    only those, in descending order of id; it writes to the log only. *)
Theorem get_user_stars_lists_starred_descending (email : string) (st : star_store) :
  let r := get_user_stars email st in
  StronglySorted (flip Z.le) r.1 ∧
  (∀ feature_id,
     feature_id ∈ r.1 ↔
       ∃ fs, fs ∈ feature_stars st ∧ fs_email fs = email ∧ starred fs = true ∧
             fs_feature_id fs = feature_id) ∧
  feature_stars r.2 = feature_stars st ∧ star_counts r.2 = star_counts st.
Proof.
  cbv zeta. split; [|split; [|done]].
  - unfold get_user_stars, sorted_reverse. cbn [fst].
    apply (StronglySorted_merge_sort (flip Z.le)).
  - intros feature_id. apply elem_of_get_user_stars.
Qed.

Lemma get_star_after_insert email feature_id place st counts log :
  get_star email feature_id st = None →
  ∃ key,
    get_star email feature_id
      (StarStore
         (insert_at place
            {| fs_email := email; fs_feature_id := feature_id; starred := true |}
            (feature_stars st)) counts log)
    = Some (key, {| fs_email := email; fs_feature_id := feature_id; starred := true |}).
Proof.
  intros Hnone.
  set (new := {| fs_email := email; fs_feature_id := feature_id; starred := true |}).
  set (st1 := StarStore (insert_at place new (feature_stars st)) counts log).
  assert (Hin : new ∈ feature_stars st1).
  { unfold st1, insert_at. cbn [feature_stars]. apply elem_of_app. right. left. }
  destruct (list_find_elem_of
              (λ fs, fs_email fs = email ∧ fs_feature_id fs = feature_id)
              (feature_stars st1) new Hin) as [[key fs] Hfind]; [done|].
  exists key. unfold get_star. rewrite Hfind. do 2 f_equal.
  pose proof (get_star_Some email feature_id st1 key fs Hfind) as (Hkey & He & Hf).
  apply list_elem_of_lookup_2 in Hkey. unfold st1 in Hkey. cbn [feature_stars] in Hkey.
  rewrite insert_at_Permutation in Hkey.
  apply elem_of_cons in Hkey as [-> | Hold]; [done|].
  exfalso. by eapply get_star_None.
Qed.

(** X21.  Round trip of a star: when a user who has no star entity for an
    existing feature stars it and then unstars it, both calls return, the
    count goes up by one and comes back to what it was, the log is untouched,
    and the feature is listed in between and no longer after. *)
Theorem star_then_unstar_restores_the_count (email : string) (feature_id : Z)
    (place place' : nat) (st : star_store) (count : Z) :
  unique_stars st →
  get_star email feature_id st = None →
  star_counts st !! feature_id = Some count → (0 ≤ count)%Z →
  let r1 := set_star email feature_id true place st in
  let r2 := set_star email feature_id false place' r1.2 in
  r1.1 = Returned ∧ r2.1 = Returned ∧
  star_counts r1.2 !! feature_id = Some (count + 1)%Z ∧
  star_counts r2.2 = star_counts st ∧ star_log r2.2 = star_log st ∧
  feature_id ∈ (get_user_stars email r1.2).1 ∧
  (feature_id ∉ (get_user_stars email r2.2).1).
Proof.
  intros Huniq Hnone Hcount Hpos. cbv zeta.
  assert (Huniq1 : unique_stars (set_star email feature_id true place st).2).
  { unfold unique_stars.
    destruct (set_star_keys email feature_id true place st) as [-> | [Hnew ->]];
      [exact Huniq | apply NoDup_cons; by split]. }
  assert (Hlisted : feature_id ∈
            (get_user_stars email (set_star email feature_id true place st).2).1)
    by apply elem_of_get_user_stars, starred_entity_exists.
  assert (Hunlisted : feature_id ∉
            (get_user_stars email
               (set_star email feature_id false place'
                  (set_star email feature_id true place st).2).2).1).
  { intros (fs & Hin & He & Hs & Hf)%elem_of_get_user_stars.
    rewrite (no_starred_entity_left email feature_id place' _ fs Huniq1 Hin He Hf) in Hs.
    discriminate Hs. }
  revert Hlisted Hunlisted.
  assert (H1 : set_star email feature_id true place st =
    (Returned,
     StarStore
       (insert_at place
          {| fs_email := email; fs_feature_id := feature_id; starred := true |}
          (feature_stars st))
       (<[feature_id := (count + 1)%Z]> (star_counts st)) (star_log st))).
  { unfold set_star. rewrite Hnone, Hcount.
    replace (count + 1 <? 0)%Z with false by (symmetry; apply Z.ltb_ge; lia). done. }
  rewrite H1. cbn [fst snd]. intros Hlisted Hunlisted.
  destruct (get_star_after_insert email feature_id place st
              (<[feature_id := (count + 1)%Z]> (star_counts st)) (star_log st) Hnone)
    as [key Hget].
  assert (H2 : ∃ stars,
    set_star email feature_id false place'
      (StarStore
         (insert_at place
            {| fs_email := email; fs_feature_id := feature_id; starred := true |}
            (feature_stars st))
         (<[feature_id := (count + 1)%Z]> (star_counts st)) (star_log st)) =
    (Returned, StarStore stars (star_counts st) (star_log st))).
  { unfold set_star. rewrite Hget. cbn [starred eqb negb star_counts star_log feature_stars].
    rewrite lookup_insert_eq.
    replace (count + 1 + -1 <? 0)%Z with false by (symmetry; apply Z.ltb_ge; lia).
    eexists. f_equal. f_equal. rewrite insert_insert_eq.
    replace (count + 1 + -1)%Z with count by lia. by apply insert_id. }
  destruct H2 as [stars H2]. rewrite H2 in Hunlisted |- *. cbn [fst snd] in *.
  repeat split; try done. cbn [star_counts]. apply lookup_insert_eq.
Qed.

Lemma star_then_unstar_restores_the_count_witness :
  star_counts
    (set_star "b@example.com" 9 false 0
       (set_star "b@example.com" 9 true 1 sample_star_store).2).2
  = star_counts sample_star_store.
Proof.
  apply (star_then_unstar_restores_the_count "b@example.com" 9 1 0 sample_star_store 0).
  - unfold unique_stars. apply (bool_decide_unpack _). vm_compute. exact I.
  - reflexivity.
  - reflexivity.
  - lia.
Defined.

(** X22.  Starring a feature that has no [FeatureEntry] fails with an
    [AttributeError] only after the star is saved: unless the user already
    has the feature starred, the call raises, and the feature is then in the
    list of the user's starred features. *)
Theorem starring_a_missing_feature_raises_after_saving (email : string)
    (feature_id : Z) (place : nat) (st : star_store) :
  star_counts st !! feature_id = None →
  (get_star email feature_id st = None ∨
   ∃ key fs, get_star email feature_id st = Some (key, fs) ∧ starred fs = false) →
  ∃ st1,
    set_star email feature_id true place st = (RaisedAttributeError, st1) ∧
    feature_id ∈ (get_user_stars email st1).1 ∧
    star_counts st1 = star_counts st ∧ star_log st1 = star_log st.
Proof.
  intros Hmissing Hstar.
  pose proof (starred_entity_exists email feature_id place st) as Hexists.
  apply elem_of_get_user_stars in Hexists. revert Hexists.
  unfold set_star. rewrite Hmissing.
  destruct Hstar as [-> | (key & fs & -> & ->)]; cbn [eqb negb snd]; eauto.
Qed.

Lemma starring_a_missing_feature_raises_after_saving_witness :
  ∃ st1,
    set_star "a@example.com" 11 true 0 sample_star_store = (RaisedAttributeError, st1) ∧
    11%Z ∈ (get_user_stars "a@example.com" st1).1.
Proof.
  destruct (starring_a_missing_feature_raises_after_saving "a@example.com" 11 0
              sample_star_store) as (st1 & Hrun & Hlisted & _).
  - reflexivity.
  - left. reflexivity.
  - exists st1. split; [exact Hrun | exact Hlisted].
Defined.

(** X23.  Unstarring a starred feature whose count is zero (or less) takes
    the star away but leaves the count as it is: the call logs that the count
    would be negative and returns without saving the feature entry. *)
Theorem unstarring_at_zero_keeps_the_count (email : string) (feature_id : Z)
    (place : nat) (st : star_store) (key : nat) (fs : FeatureStar) (count : Z) :
  unique_stars st →
  get_star email feature_id st = Some (key, fs) → starred fs = true →
  star_counts st !! feature_id = Some count → (count ≤ 0)%Z →
  ∃ st1,
    set_star email feature_id false place st = (Returned, st1) ∧
    star_counts st1 = star_counts st ∧
    star_log st1 = star_log st ++ [ErrorCountBelowZero email feature_id false] ∧
    (feature_id ∉ (get_user_stars email st1).1).
Proof.
  intros Huniq Hget Hs Hcount Hle.
  assert (Hunlisted : feature_id ∉
            (get_user_stars email (set_star email feature_id false place st).2).1).
  { intros (fs' & Hin & He & Hs' & Hf)%elem_of_get_user_stars.
    rewrite (no_starred_entity_left email feature_id place st fs' Huniq Hin He Hf) in Hs'.
    discriminate Hs'. }
  revert Hunlisted. unfold set_star. rewrite Hget, Hs, Hcount. cbn [eqb negb].
  replace (count + -1 <? 0)%Z with true by (symmetry; apply Z.ltb_lt; lia).
  cbn [snd]. eauto.
Qed.

Lemma unstarring_at_zero_keeps_the_count_witness :
  ∃ st1,
    set_star "a@example.com" 9 false 0 sample_star_store = (Returned, st1) ∧
    star_counts st1 = star_counts sample_star_store ∧
    star_log st1 = [ErrorCountBelowZero "a@example.com" 9 false].
Proof.
  destruct (unstarring_at_zero_keeps_the_count "a@example.com" 9 0 sample_star_store 2
              {| fs_email := "a@example.com"; fs_feature_id := 9; starred := true |} 0)
    as (st1 & Hrun & Hcounts & Hlog & _).
  - unfold unique_stars. apply (bool_decide_unpack _). vm_compute. exact I.
  - reflexivity.
  - reflexivity.
  - reflexivity.
  - lia.
  - exists st1. split; [exact Hrun|]. split; [exact Hcounts | exact Hlog].
Defined.

End Stars.

(** ** Inactive users *)

Section InactiveUserProperties.

Implicit Types (user : AppUser) (users : list AppUser).

(** The loop notifies the due users, in order, and marks them. *)
Lemma determine_users_due now users :
  _determine_users_to_notify now users =
    (au_email <$> filter (due now) users,
     (λ user, if decide (due now user) then mark_notified user else user) <$> users).
Proof.
  unfold _determine_users_to_notify.
  induction users as [|user users IH]; [done|].
  cbn [notify_loop]. rewrite IH. rewrite filter_cons, fmap_cons.
  destruct (decide (due now user)) as [Hdue|Hnot].
  - destruct Hdue as (-> & -> & -> & Hlt). cbn [orb].
    destruct (default DEFAULT_LAST_VISIT (last_visit user) <? created user)%Z eqn:E1.
    + apply Z.ltb_lt in E1.
      replace (created user <? now - timedelta_days INACTIVE_WARN_DAYS)%Z with true
        by (symmetry; apply Z.ltb_lt; lia). done.
    + apply Z.ltb_ge in E1.
      replace (default DEFAULT_LAST_VISIT (last_visit user)
               <? now - timedelta_days INACTIVE_WARN_DAYS)%Z with true
        by (symmetry; apply Z.ltb_lt; lia). done.
  - destruct (is_admin user) eqn:Ha; [done|].
    destruct (is_site_editor user) eqn:Hs; [done|].
    destruct (notified_inactive user) eqn:Hn; [done|]. cbn [orb].
    destruct (default DEFAULT_LAST_VISIT (last_visit user) <? created user)%Z eqn:E1.
    + apply Z.ltb_lt in E1.
      destruct (created user <? now - timedelta_days INACTIVE_WARN_DAYS)%Z eqn:E2;
        [|done].
      apply Z.ltb_lt in E2. exfalso. apply Hnot. unfold due. rewrite Ha, Hs, Hn.
      repeat split; try done. lia.
    + apply Z.ltb_ge in E1.
      destruct (default DEFAULT_LAST_VISIT (last_visit user)
                <? now - timedelta_days INACTIVE_WARN_DAYS)%Z eqn:E2; [|done].
      apply Z.ltb_lt in E2. exfalso. apply Hnot. unfold due. rewrite Ha, Hs, Hn.
      repeat split; try done. lia.
Qed.

Lemma mark_notified_not_due now user : ¬ due now (mark_notified user).
Proof. intros (_ & _ & H & _). discriminate H. Qed.

(** X24.  The users notified of inactivity are those who are neither admins
    nor site editors, have not been notified before, and whose latest of
    last visit (2022-08-01 when none is recorded) and creation lies more than
    180 days before [now]; they come in stored order.  Each of them, and
    nobody else, is stored as notified; no other field changes. *)
Theorem inactive_users_are_notified_and_marked (now : Z) (users : list AppUser) :
  let r := _determine_users_to_notify now users in
  (∀ email, email ∈ r.1 ↔ ∃ user, user ∈ users ∧ au_email user = email ∧ due now user) ∧
  length r.2 = length users ∧
  (∀ i user, users !! i = Some user →
     r.2 !! i = Some (if decide (due now user) then mark_notified user else user)).
Proof.
  cbv zeta. rewrite determine_users_due. cbn [fst snd]. split; [|split].
  - intros email. rewrite list_elem_of_fmap. split.
    + intros (user & -> & [? ?]%list_elem_of_filter). eauto.
    + intros (user & ? & <- & ?). exists user. split; [done|].
      by apply list_elem_of_filter.
  - by rewrite length_fmap.
  - intros i user Hi. by rewrite list_lookup_fmap, Hi.
Qed.

(** X25.  Nobody is notified twice.  A second run at the same or an earlier
    time, on the users as the first run stored them, notifies nobody and
    stores nothing new; a later run notifies none of the addresses the first
    run notified (for users with distinct addresses). *)
Theorem inactive_users_are_not_notified_again (now1 now2 : Z) (users : list AppUser) :
  let r1 := _determine_users_to_notify now1 users in
  let r2 := _determine_users_to_notify now2 r1.2 in
  ((now2 ≤ now1)%Z → r2 = ([], r1.2)) ∧
  (NoDup (au_email <$> users) → ∀ email, email ∈ r1.1 → email ∉ r2.1).
Proof.
  cbv zeta. rewrite !determine_users_due. cbn [fst snd]. split.
  - intros Hle.
    assert (Hnone : ∀ user, user ∈ users →
              ¬ due now2 (if decide (due now1 user) then mark_notified user else user)).
    { intros user _. case_decide as Hdue; [apply mark_notified_not_due|].
      intros (Ha & Hs & Hn & Hlt). apply Hdue. repeat split; try done. lia. }
    f_equal.
    + replace (filter (due now2) _) with (@nil AppUser); [done|]. symmetry.
      apply elem_of_nil_inv. intros u [Hdue Hin]%list_elem_of_filter.
      apply list_elem_of_fmap in Hin as (user & -> & Hin). by eapply Hnone.
    + rewrite <- list_fmap_compose. apply list_fmap_ext. intros i user Hi. simpl.
      rewrite decide_False; [done|]. apply Hnone. by eapply list_elem_of_lookup_2.
  - intros Hnd email (u1 & -> & [Hdue1 Hin1]%list_elem_of_filter)%list_elem_of_fmap
      (u2 & Heq & [Hdue2 Hin2]%list_elem_of_filter)%list_elem_of_fmap.
    apply list_elem_of_fmap in Hin2 as (user & -> & Hin).
    assert (au_email user = au_email u1) as Hsame.
    { rewrite Heq. by case_decide. }
    assert (user = u1) as -> by (by eapply (NoDup_fmap_elem_inj au_email)).
    rewrite decide_True in Hdue2 by done. by eapply mark_notified_not_due.
Qed.

(** X26.  Until 180 days after 2022-08-01 nobody without a recorded last
    visit is notified, however old the account: the date the field was
    introduced counts as the last visit. *)
Theorem no_notice_before_the_default_date_expires (now : Z) (users : list AppUser) :
  (now ≤ DEFAULT_LAST_VISIT + timedelta_days INACTIVE_WARN_DAYS)%Z →
  ∀ email, email ∈ (_determine_users_to_notify now users).1 →
    ∃ user visited, user ∈ users ∧ au_email user = email ∧
                    last_visit user = Some visited.
Proof.
  intros Hnow email. rewrite determine_users_due. cbn [fst].
  intros (user & -> & [Hdue Hin]%list_elem_of_filter)%list_elem_of_fmap.
  destruct (last_visit user) as [visited|] eqn:Hv; [eauto|].
  exfalso. destruct Hdue as (_ & _ & _ & Hlt). rewrite Hv in Hlt. simpl in Hlt. lia.
Qed.

Lemma no_notice_before_the_default_date_expires_witness :
  ∃ user visited, user ∈ sample_users ∧ au_email user = "lapsed@example.com" ∧
                  last_visit user = Some visited.
Proof.
  apply (no_notice_before_the_default_date_expires (1670000000 * 1000000) sample_users).
  - vm_compute. discriminate.
  - apply (bool_decide_unpack _). vm_compute. exact I.
Defined.

(** The sample users on 2023-09-01: the old and the lapsed account are
    notified and marked, the admin and the recent visitor are not. *)
Example determine_users_to_notify_sample :
  (_determine_users_to_notify sample_now sample_users).1
    = ["old@example.com"; "lapsed@example.com"] ∧
  notified_inactive <$> (_determine_users_to_notify sample_now sample_users).2
    = [false; true; false; true].
Proof. vm_compute. split; reflexivity. Qed.

(** X27.  The handler of inactive users builds one task per notified user,
    in stored order, addressed to the user with no reply-to address, hands
    them to [send_emails] (so that with sending on the queue grows by exactly
    these tasks, and in a dry run by none), and returns the users as marked. *)
Theorem inactivity_notices_are_sent (cfg : settings) (MAX_LOG_LINE : nat)
    (render_template : string → string → string) (now : Z) (users : list AppUser)
    (w : world) :
  let notified := (_determine_users_to_notify now users).1 in
  let tasks := _build_email_tasks cfg render_template notified in
  ∃ message w',
    get_template_data cfg MAX_LOG_LINE render_template now users w =
      (Ok (message, (_determine_users_to_notify now users).2), w') ∧
    task_to <$> tasks = notified ∧
    (∀ task, task ∈ tasks →
       task = NotificationTask (task_to task)
                ("Notice of WebStatus user inactivity for " +:+ task_to task) None
                (render_template EMAIL_TEMPLATE_PATH (SITE_URL cfg))) ∧
    db w' = db w ∧
    task_queue w' =
      if SEND_EMAIL cfg
      then task_queue w ++ ((λ t, ("/tasks/outbound-email", t)) <$> tasks)
      else task_queue w.
Proof.
  cbv zeta. unfold get_template_data.
  destruct (_determine_users_to_notify now users) as [notified stored]. cbn [fst snd].
  eexists _, _. split; [|split; [|split; [|split]]].
  - unfold bind. rewrite send_emails_run. unfold logging, ret. reflexivity.
  - unfold _build_email_tasks. rewrite <- list_fmap_compose. apply list_fmap_id.
  - intros task (email & -> & _)%list_elem_of_fmap. reflexivity.
  - unfold sent. by destruct (SEND_EMAIL cfg).
  - unfold sent. by destruct (SEND_EMAIL cfg).
Qed.

End InactiveUserProperties.

(** ** Amendments and the subscriber task *)

Section NotifierHelperProperties.

Context {V : Type} `{PyValue V}.
Variable convert_enum_int_to_string : string → string → string.
Variable feature_entry_to_json_verbose : FeatureEntry → feature_param.
Variable current_user_email : option string.

(** The amendments are those of the effective changes, in order. *)
Lemma amendments_of_effective_changes (changed_fields : list (string * V * V)) :
  _get_changes_as_amendments changed_fields =
    amendment_of <$> filter effective_change changed_fields.
Proof.
  induction changed_fields as [|[[field old_val] new_val] rest IH]; [done|].
  cbn [_get_changes_as_amendments]. rewrite IH, filter_cons.
  destruct (decide (effective_change (field, old_val, new_val))) as [[Hne Hkeep]|Hnot].
  - cbn [fst snd] in Hne, Hkeep. rewrite Hne. cbn [negb].
    destruct Hkeep as [-> | ->]; [done|]. by rewrite andb_false_r.
  - destruct (py_eqb new_val old_val) eqn:Heq; cbn [negb]; [done|].
    destruct (py_is_None old_val) eqn:Hnone; cbn [andb].
    + destruct (py_bool new_val) eqn:Hbool; cbn [negb]; [|done].
      exfalso. apply Hnot. split; [done | by right].
    + exfalso. apply Hnot. split; [done | by left].
Qed.

(** X28.  [_get_changes_as_amendments] keeps a changed field exactly when
    its new value differs from the old one, except that a change from [None]
    to a falsy value is dropped; each kept field gives one amendment holding
    the two values as strings, and the amendments follow the order of the
    fields. *)
Theorem amendments_record_the_effective_changes (changed_fields : list (string * V * V)) :
  let result := _get_changes_as_amendments changed_fields in
  (∀ a, a ∈ result ↔
        ∃ field old_val new_val,
          (field, old_val, new_val) ∈ changed_fields ∧
          py_eqb new_val old_val = false ∧
          (py_is_None old_val = false ∨ py_bool new_val = true) ∧
          a = {| amendment_field_name := field; old_value := py_str old_val;
                 new_value := py_str new_val |}) ∧
  (amendment_field_name <$> result) `sublist_of` ((λ c, c.1.1) <$> changed_fields) ∧
  (length result ≤ length changed_fields)%nat.
Proof.
  cbv zeta. rewrite amendments_of_effective_changes. split; [|split].
  - intros a. rewrite list_elem_of_fmap. split.
    + intros ([[field old_val] new_val] & -> & [[? ?] ?]%list_elem_of_filter).
      exists field, old_val, new_val. done.
    + intros (field & old_val & new_val & Hin & Hne & Hkeep & ->).
      exists (field, old_val, new_val). split; [done|].
      apply list_elem_of_filter. split; [|done]. split; done.
  - rewrite <- list_fmap_compose.
    change (amendment_field_name ∘ amendment_of) with (λ c : string * V * V, c.1.1).
    apply fmap_sublist, sublist_filter.
  - rewrite length_fmap. apply length_filter.
Qed.

Variable cfg : settings.
Variable MAX_LOG_LINE : nat.
Variable can_create_feature : string → bool.
Variable o : set_order.
Variable IWA : Z.
Variable STAGE_TYPES_SHIPPING : gmap Z (option Z).
Variable format_email_body : string → FeatureEntry → list Change → string.

(** X29.  Saving fields of which none changed effectively stores no
    [Activity]; when notification is asked for, one task is still enqueued
    for [/tasks/email-subscribers], with an empty change list.  The handler
    of feature changes, run on that payload of an update, sends no email. *)
Theorem unchanged_fields_send_no_email (fe : FeatureEntry)
    (changed_fields : list (string * V * V)) (notify is_update : bool)
    (st : helper_store) (w : world) :
  (∀ change, change ∈ changed_fields → ¬ effective_change change) →
  let params :=
    {| params_changes := []; params_is_update := is_update;
       params_feature := feature_entry_to_json_verbose fe |} in
  notify_subscribers_and_save_amendments convert_enum_int_to_string
    feature_entry_to_json_verbose current_user_email fe changed_fields notify is_update st
  = HelperStore (activities st)
      (cloud_tasks st ++ if notify then [("/tasks/email-subscribers", params)] else []) ∧
  process_post_data cfg MAX_LOG_LINE can_create_feature o IWA STAGE_TYPES_SHIPPING
    format_email_body (params_feature params) true (Some (params_changes params)) w
  = (Ok "Done",
     World (db w) (log w ++ [starting_entry MAX_LOG_LINE (params_feature params)])
       (task_queue w)).
Proof.
  intros Hnone. cbv zeta. split.
  - unfold notify_subscribers_and_save_amendments.
    rewrite amendments_of_effective_changes.
    replace (filter effective_change changed_fields) with (@nil (string * V * V)).
    + cbn [fmap list_fmap length Nat.ltb Nat.leb].
      destruct notify; [done|]. destruct st. cbn. by rewrite app_nil_r.
    + symmetry. apply elem_of_nil_inv. intros change [? ?]%list_elem_of_filter.
      by eapply Hnone.
  - unfold process_post_data, bind, logging, get_db. cbn [db log task_queue params_feature].
    fold (starting_entry MAX_LOG_LINE (feature_entry_to_json_verbose fe)).
    by destruct (FeatureEntry_get_by_id (db w) !! _).
Qed.

(** X30.  Saving fields of which some changed effectively stores exactly one
    [Activity], for the feature and by the current user, that holds every
    amendment; when notification is asked for, one task is enqueued for
    [/tasks/email-subscribers] whose change list names the amended fields in
    order, and none otherwise. *)
Theorem changed_fields_are_saved_and_announced (fe : FeatureEntry)
    (changed_fields : list (string * V * V)) (notify is_update : bool)
    (st : helper_store) (change : string * V * V) :
  change ∈ changed_fields → effective_change change →
  let amended := _get_changes_as_amendments changed_fields in
  let st' :=
    notify_subscribers_and_save_amendments convert_enum_int_to_string
      feature_entry_to_json_verbose current_user_email fe changed_fields notify
      is_update st in
  amendment_of change ∈ amended ∧
  activities st' =
    activities st ++ [{| activity_feature_id := fe_id fe; author := current_user_email;
                         content := EmptyString; amendments := amended |}] ∧
  if notify then
    ∃ params,
      cloud_tasks st' = cloud_tasks st ++ [("/tasks/email-subscribers", params)] ∧
      prop_name <$> params_changes params = amendment_field_name <$> amended ∧
      params_is_update params = is_update ∧
      params_feature params = feature_entry_to_json_verbose fe
  else cloud_tasks st' = cloud_tasks st.
Proof.
  intros Hin Heff. cbv zeta.
  assert (Hamended : amendment_of change ∈ _get_changes_as_amendments changed_fields).
  { rewrite amendments_of_effective_changes. apply list_elem_of_fmap.
    exists change. split; [done|]. by apply list_elem_of_filter. }
  split; [exact Hamended|].
  unfold notify_subscribers_and_save_amendments.
  destruct (_get_changes_as_amendments changed_fields) as [|a rest] eqn:E.
  { by apply not_elem_of_nil in Hamended. }
  cbn [length Nat.ltb Nat.leb].
  destruct notify; cbn [activities cloud_tasks notify_feature_subscribers_of_changes];
    [|done].
  split; [done|]. eexists. split; [reflexivity|].
  cbn [params_changes params_is_update params_feature].
  split; [|done]. rewrite <- list_fmap_compose. by apply list_fmap_ext.
Qed.

End NotifierHelperProperties.

Lemma unchanged_fields_send_no_email_witness :
  notify_subscribers_and_save_amendments (λ _ v, v)
    (λ fe, {| feature_param_id := fe_id fe; feature_param_repr := "{...}" |})
    (Some "editor@example.com") sample_feature
    [("summary", PyStr "same", PyStr "same"); ("shipped_milestone", PyNone, PyInt 0)]
    true true (HelperStore [] [])
  = HelperStore []
      [("/tasks/email-subscribers",
        {| params_changes := []; params_is_update := true;
           params_feature :=
             {| feature_param_id := 123; feature_param_repr := "{...}" |} |})].
Proof.
  apply (unchanged_fields_send_no_email (λ _ v, v)
           (λ fe, {| feature_param_id := fe_id fe; feature_param_repr := "{...}" |})
           (Some "editor@example.com") sample_settings 100 chromium_or_google
           first_occurrence_order sample_IWA sample_STAGE_TYPES_SHIPPING
           sample_format_email_body sample_feature
           [("summary", PyStr "same", PyStr "same");
            ("shipped_milestone", PyNone, PyInt 0)]
           true true (HelperStore [] []) sample_world).
  intros change Hin. apply (bool_decide_unpack _).
  apply elem_of_cons in Hin as [-> | Hin]; [vm_compute; exact I|].
  apply list_elem_of_singleton in Hin. subst change. vm_compute. exact I.
Defined.

Lemma changed_fields_are_saved_and_announced_witness :
  amendment_of ("name", PyStr "old name", PyStr "new name")
    ∈ _get_changes_as_amendments sample_changed_fields.
Proof.
  apply (changed_fields_are_saved_and_announced (λ _ v, v)
           (λ fe, {| feature_param_id := fe_id fe; feature_param_repr := "{...}" |})
           (Some "editor@example.com") sample_feature sample_changed_fields true true
           (HelperStore [] []) ("name", PyStr "old name", PyStr "new name")).
  - left.
  - apply (bool_decide_unpack _). vm_compute. exact I.
Defined.

(** The amendments of the sample fields: the unchanged summary and the
    change from [None] to [0] are left out. *)
Example get_changes_as_amendments_sample :
  _get_changes_as_amendments sample_changed_fields =
    [ {| amendment_field_name := "name"; old_value := "old name";
         new_value := "new name" |};
      {| amendment_field_name := "unlisted"; old_value := "False";
         new_value := "True" |} ].
Proof. vm_compute. reflexivity. Qed.

(** ** The review emails on the sample gates *)

Lemma review_request_goes_to_assignees_witness :
  ∃ tasks,
    make_review_requests_email sample_settings chromium_or_google first_occurrence_order
      sample_format_email_body4 sample_get_gate_by_type sample_get_approvers
      sample_feature 1 None = Ok tasks ∧
    (∀ addr, addr ∈ task_to <$> tasks ↔ addr ∈ ["approver3@example.com"]).
Proof.
  destruct (review_request_goes_to_assignees sample_settings chromium_or_google
              first_occurrence_order sample_format_email_body4 sample_get_gate_by_type
              sample_get_approvers sample_feature 1 None
              {| gate_entity := {| stage_id := 2 |};
                 assignee_emails := ["approver3@example.com"] |})
    as (tasks & Hrun & _ & Hmem & _).
  - reflexivity.
  - discriminate.
  - exists tasks. split; [exact Hrun | exact Hmem].
Defined.

Lemma review_request_falls_back_to_approvers_witness :
  ∃ tasks,
    make_review_requests_email sample_settings chromium_or_google first_occurrence_order
      sample_format_email_body4 sample_get_gate_by_type sample_get_approvers
      sample_feature 2 None = Ok tasks ∧
    (∀ addr, addr ∈ task_to <$> tasks ↔ addr ∈ sample_get_approvers 2).
Proof.
  destruct (review_request_falls_back_to_approvers sample_settings chromium_or_google
              first_occurrence_order sample_format_email_body4 sample_get_gate_by_type
              sample_get_approvers sample_feature 2 None)
    as (tasks & Hrun & _ & Hmem & _).
  - right. eexists. split; reflexivity.
  - exists tasks. split; [exact Hrun | exact Hmem].
Defined.

(** The tests of the review request and assignment emails. *)
Example make_review_requests_email_unassigned :
  match make_review_requests_email sample_settings chromium_or_google
          first_occurrence_order sample_format_email_body4 sample_get_gate_by_type
          sample_get_approvers sample_feature 3 None with
  | Ok tasks => task_to <$> tasks
  | Raise _ => []
  end = ["approver1@example.com"; "approver2@example.com"].
Proof. vm_compute. reflexivity. Qed.

Example make_review_assignment_email_both_reasons :
  match make_review_assignment_email sample_settings chromium_or_google
          first_occurrence_order sample_format_email_body4 sample_get_approvers
          sample_feature 1 "triggerer@example.com"
          ["a@example.com"; "b@example.com"] ["b@example.com"; "c@example.com"] with
  | Ok tasks => task_to <$> tasks
  | Raise _ => []
  end = ["a@example.com"; "b@example.com"; "c@example.com"].
Proof. vm_compute. reflexivity. Qed.

(** The milestone strings of the tests. *)
Example determine_milestone_string_samples :
  _determine_milestone_string [] = "None" ∧
  _determine_milestone_string [sample_ship_stage] = "88 (android)" ∧
  _determine_milestone_string
    [sample_ship_stage;
     {| milestones := Some {| desktop_first := Some 120%Z; android_first := Some 90%Z;
                              webview_first := None |};
        intent_thread_url := None; intent_subject_line := None |};
     {| milestones := Some {| desktop_first := Some 100%Z; android_first := None;
                              webview_first := None |};
        intent_thread_url := None; intent_subject_line := None |}] = "100".
Proof. vm_compute. repeat split; reflexivity. Qed.

(** Stars on the sample store. *)
Example set_star_new_star :
  let r := set_star "b@example.com" 9 true 1 sample_star_store in
  r.1 = Returned ∧ (get_user_stars "b@example.com" r.2).1 = [9%Z] ∧
  star_counts r.2 !! 9%Z = Some 1%Z ∧
  (get_user_stars "a@example.com" r.2).1 = [9%Z; 7%Z].
Proof. vm_compute. repeat split; reflexivity. Qed.
